(** * ShareBite: donation lifecycle and driver matching

    A shallow embedding of the ShareBite backend: the Mongoose models
    ([models/User.js], [models/Donation.js]), the driver-assignment service
    ([services/driverAssignment.js]), the authentication middleware and the
    routes that mutate users and donations.

    Conventions of the embedding.
    - In the model of the routes a JavaScript number is an exact rational
      ([Q]) and equality of numbers is [Qeq] ([==]): what is stated there is
      which drivers a loop keeps, how a list is ordered and what a request
      writes.  The values the code computes are those of IEEE doubles; the
      numeric functions of the service are given a second time on doubles, bit
      for bit, in the module [Binary64], and the properties of the value of
      the kg-equivalent and of the score are stated there.
    - The two Mongo collections are lists in natural (query) order; [find]
      without a sort returns documents in that order.
    - A handler is a function from the store to a new store and a response.
      The handlers that read, check and then write are also given as their
      read phase and their write phase, so that interleavings of two requests
      at the [await] between them can be written down.
    - [Math.sin], [Math.cos] and [Math.atan2] have no rational counterpart:
      [calculateDistance] is a parameter of the matching code. *)

From Stdlib Require Import QArith Qround Qabs ZArith List String Bool Lia.
From Stdlib Require Import Permutation Sorted Lqa.
From Stdlib Require Import Floats.
#[local] Set Warnings "-inexact-float".
Import ListNotations.
Local Open Scope string_scope.
Local Open Scope list_scope.
Local Open Scope Q_scope.

(** ** Data model *)

Definition ObjectId := string.
Definition Date := Z.

Inductive UserType := Donor | Receiver | Driver | Admin.
Inductive KycStatus := pending | verified | rejected | not_submitted.
Inductive DriverStatus := DsAvailable | DsBusy.
Inductive VehicleCapacity := small | medium | large.

(** [status] of a donation, the schema's enum. *)
Inductive Status :=
  available | reserved | assigned | picked_up | delivered | cancelled.

Definition UserType_eqb (a b : UserType) : bool :=
  match a, b with
  | Donor, Donor | Receiver, Receiver | Driver, Driver | Admin, Admin => true
  | _, _ => false
  end.

Definition DriverStatus_eqb (a b : DriverStatus) : bool :=
  match a, b with
  | DsAvailable, DsAvailable | DsBusy, DsBusy => true
  | _, _ => false
  end.

Definition Status_eqb (a b : Status) : bool :=
  match a, b with
  | available, available | reserved, reserved | assigned, assigned
  | picked_up, picked_up | delivered, delivered | cancelled, cancelled => true
  | _, _ => false
  end.

(** A path of type [Number] in a stored document or in a request body:
    absent, [null], or a number. *)
Inductive NumberPath := Undefined | Null | Num (q : Q).

(** The query operator [{ $exists: true }]: the path is in the document,
    with any value, [null] included. *)
Definition path_exists (p : NumberPath) : bool :=
  match p with Undefined => false | _ => true end.

(** The query operator [{ $exists: true, $ne: null }]. *)
Definition is_number (p : NumberPath) : bool :=
  match p with Num _ => true | _ => false end.

(** The operand an arithmetic operator makes of a path that is in the
    document: [null] is converted to 0.  (An absent path gives [NaN]; the
    callers below exclude it first.) *)
Definition number_of (p : NumberPath) : Q :=
  match p with Num q => q | _ => 0 end.

(** The user schema.  [coordinates_lat] and [coordinates_lng] are the paths
    [address.coordinates.lat] and [address.coordinates.lng]. *)
Record User := mkUser {
  user_id : ObjectId;
  name : string;
  email : string;
  phone : string;
  userType : UserType;
  coordinates_lat : NumberPath;
  coordinates_lng : NumberPath;
  kycStatus : KycStatus;
  reputationScore : Q;
  isActive : bool;
  driverStatus : DriverStatus;
  vehicleCapacity : option VehicleCapacity
}.

Record FoodItem := mkFoodItem {
  item_name : string;
  quantity : Q;
  unit : string
}.

Record Coordinates := mkCoordinates { lat : Q; lng : Q }.

(** [pickupAddress] of a donation.  [coordinates] is [Some] when both
    [pickupAddress.coordinates.lat] and [pickupAddress.coordinates.lng] are
    numbers, and [None] otherwise. *)
Record PickupAddress := mkPickupAddress {
  street : string;
  city : string;
  coordinates : option Coordinates
}.

Record DeliveryProof := mkDeliveryProof { url : string; uploadedAt : Date }.

Record Donation := mkDonation {
  donation_id : ObjectId;
  donor : ObjectId;
  receiver : option ObjectId;
  driver : option ObjectId;
  foodItems : list FoodItem;
  pickupAddress : PickupAddress;
  status : Status;
  preferredPickupTime : Date;
  actualPickupTime : option Date;
  actualDeliveryTime : option Date;
  deliveryProof : option DeliveryProof;
  notes : string;
  createdAt : Date;
  updatedAt : Date
}.

(** Assignments to one path of a loaded document. *)
Definition set_driverStatus (v : DriverStatus) (u : User) : User :=
  mkUser (user_id u) (name u) (email u) (phone u) (userType u)
    (coordinates_lat u) (coordinates_lng u) (kycStatus u) (reputationScore u)
    (isActive u) v (vehicleCapacity u).

Definition set_kycStatus (v : KycStatus) (u : User) : User :=
  mkUser (user_id u) (name u) (email u) (phone u) (userType u)
    (coordinates_lat u) (coordinates_lng u) v (reputationScore u)
    (isActive u) (driverStatus u) (vehicleCapacity u).

Definition set_reputationScore (v : Q) (u : User) : User :=
  mkUser (user_id u) (name u) (email u) (phone u) (userType u)
    (coordinates_lat u) (coordinates_lng u) (kycStatus u) v
    (isActive u) (driverStatus u) (vehicleCapacity u).

Definition set_isActive (v : bool) (u : User) : User :=
  mkUser (user_id u) (name u) (email u) (phone u) (userType u)
    (coordinates_lat u) (coordinates_lng u) (kycStatus u) (reputationScore u)
    v (driverStatus u) (vehicleCapacity u).

Definition set_profile (n p : string) (la ln : NumberPath) (u : User) : User :=
  mkUser (user_id u) n (email u) p (userType u)
    la ln (kycStatus u) (reputationScore u)
    (isActive u) (driverStatus u) (vehicleCapacity u).

Definition set_receiver (v : option ObjectId) (d : Donation) : Donation :=
  mkDonation (donation_id d) (donor d) v (driver d) (foodItems d)
    (pickupAddress d) (status d) (preferredPickupTime d) (actualPickupTime d)
    (actualDeliveryTime d) (deliveryProof d) (notes d) (createdAt d)
    (updatedAt d).

Definition set_driver (v : option ObjectId) (d : Donation) : Donation :=
  mkDonation (donation_id d) (donor d) (receiver d) v (foodItems d)
    (pickupAddress d) (status d) (preferredPickupTime d) (actualPickupTime d)
    (actualDeliveryTime d) (deliveryProof d) (notes d) (createdAt d)
    (updatedAt d).

Definition set_status (v : Status) (d : Donation) : Donation :=
  mkDonation (donation_id d) (donor d) (receiver d) (driver d) (foodItems d)
    (pickupAddress d) v (preferredPickupTime d) (actualPickupTime d)
    (actualDeliveryTime d) (deliveryProof d) (notes d) (createdAt d)
    (updatedAt d).

Definition set_actualPickupTime (v : option Date) (d : Donation) : Donation :=
  mkDonation (donation_id d) (donor d) (receiver d) (driver d) (foodItems d)
    (pickupAddress d) (status d) (preferredPickupTime d) v
    (actualDeliveryTime d) (deliveryProof d) (notes d) (createdAt d)
    (updatedAt d).

Definition set_actualDeliveryTime (v : option Date) (d : Donation) : Donation :=
  mkDonation (donation_id d) (donor d) (receiver d) (driver d) (foodItems d)
    (pickupAddress d) (status d) (preferredPickupTime d) (actualPickupTime d)
    v (deliveryProof d) (notes d) (createdAt d) (updatedAt d).

Definition set_deliveryProof (v : option DeliveryProof) (d : Donation)
  : Donation :=
  mkDonation (donation_id d) (donor d) (receiver d) (driver d) (foodItems d)
    (pickupAddress d) (status d) (preferredPickupTime d) (actualPickupTime d)
    (actualDeliveryTime d) v (notes d) (createdAt d) (updatedAt d).

(** The [pre('save')] hook of the donation schema: [updatedAt = Date.now()]. *)
Definition set_updatedAt (v : Date) (d : Donation) : Donation :=
  mkDonation (donation_id d) (donor d) (receiver d) (driver d) (foodItems d)
    (pickupAddress d) (status d) (preferredPickupTime d) (actualPickupTime d)
    (actualDeliveryTime d) (deliveryProof d) (notes d) (createdAt d) v.

(** ** The store: the [users] and [donations] collections *)

Record Store := mkStore { users : list User; donations : list Donation }.

(** [User.findById], [Donation.findById]. *)
Definition findUser (s : Store) (id : ObjectId) : option User :=
  find (fun u => user_id u =? id) (users s).

Definition findDonation (s : Store) (id : ObjectId) : option Donation :=
  find (fun d => donation_id d =? id) (donations s).

(** [doc.save()] of a loaded document whose modified paths are the ones [f]
    assigns: an update of the stored document with that [_id]. *)
Definition saveUser (id : ObjectId) (f : User -> User) (s : Store) : Store :=
  mkStore (map (fun u => if user_id u =? id then f u else u) (users s))
          (donations s).

Definition saveDonation (now : Date) (id : ObjectId)
  (f : Donation -> Donation) (s : Store) : Store :=
  mkStore (users s)
          (map (fun d => if donation_id d =? id
                         then set_updatedAt now (f d) else d)
               (donations s)).

(** [new Model(...).save()]: a new document at the end of the collection. *)
Definition insertUser (u : User) (s : Store) : Store :=
  mkStore (users s ++ [u]) (donations s).

Definition insertDonation (d : Donation) (s : Store) : Store :=
  mkStore (users s) (donations s ++ [d]).

Definition ObjectId_opt_eqb (o : option ObjectId) (id : ObjectId) : bool :=
  match o with Some x => x =? id | None => false end.

(** A donation is active for its driver when it is assigned or picked up. *)
Definition is_active (st : Status) : bool :=
  match st with assigned | picked_up => true | _ => false end.

(** [Donation.countDocuments({ driver, status: { $in: ['assigned',
    'picked_up'] } })]. *)
Definition countActive (s : Store) (driverId : ObjectId) : nat :=
  List.length (filter (fun d => ObjectId_opt_eqb (driver d) driverId
                           && is_active (status d)) (donations s)).

(** The same count with [_id: { $ne: donationId }]. *)
Definition countActiveExcept (s : Store) (driverId donationId : ObjectId)
  : nat :=
  List.length (filter (fun d => ObjectId_opt_eqb (driver d) driverId
                           && negb (donation_id d =? donationId)
                           && is_active (status d)) (donations s)).

(** ** Responses

    The error taxonomy.  Each handler below notes the HTTP status and message
    behind the tag it returns.  [InvalidTransition] and [Conflict] are tags of
    the taxonomy that no handler returns; [ServerError] is a failure of the
    storage layer or of schema validation. *)
Inductive Failure :=
| Unauthenticated     (* 401 *)
| Forbidden           (* 403 *)
| NotFound            (* 404 *)
| BadRequest          (* 400, a malformed request body *)
| InvalidState        (* 400, the donation is not in the status required *)
| InvalidTransition
| MissingLocation     (* 400, no pickup coordinates *)
| DriverUnavailable   (* 400 'Driver is not available' *)
| CapacityExceeded    (* no driver can take the donation *)
| Conflict
| ServerError.        (* 500, or an exception caught by the service *)

Definition Result (A : Type) : Type := (Failure + A)%type.

Definition is_success {A : Type} (r : Result A) : bool :=
  match r with inr _ => true | inl _ => false end.

(** ** CapacityModel (services/driverAssignment.js) *)

(** One step of the [forEach] of [calculateFoodQuantity]: the [switch] on
    [item.unit].  (On rationals; [Binary64.addFoodItem] is the same step on
    doubles.) *)
Definition addFoodItem (totalKg : Q) (item : FoodItem) : Q :=
  if unit item =? "kg" then totalKg + quantity item
  else if unit item =? "liters" then totalKg + quantity item * 1
  else if unit item =? "boxes" then totalKg + quantity item * 5
  else if unit item =? "packets" then totalKg + quantity item * 0.5
  else if unit item =? "pieces" then totalKg + quantity item * 0.2
  else totalKg + quantity item.

Definition calculateFoodQuantity (foodItems : list FoodItem) : Q :=
  fold_left addFoodItem foodItems 0.

(** [capacityMap[vehicleCapacity] || 150]; [None] is a key that is not in the
    map. *)
Definition getVehicleCapacityKg (v : option VehicleCapacity) : Q :=
  match v with
  | Some small => 50
  | Some medium => 150
  | Some large => 300
  | None => 150
  end.

(** [driver.vehicleCapacity || 'medium']. *)
Definition vehicleCapacity_or_medium (u : User) : VehicleCapacity :=
  match vehicleCapacity u with Some v => v | None => medium end.

(** The factors of the specification's [demandKg]. *)
Definition factor (u : string) : Q :=
  if u =? "kg" then 1
  else if u =? "liters" then 1
  else if u =? "boxes" then 5
  else if u =? "packets" then 0.5
  else if u =? "pieces" then 0.2
  else 1.

(** The specification's [demandKg]: the sum of [quantity * factor unit]. *)
Fixpoint demandKg (items : list FoodItem) : Q :=
  match items with
  | [] => 0
  | it :: rest => quantity it * factor (unit it) + demandKg rest
  end.

(** ** DriverAvailabilityChecker *)

(** [isDriverAvailable(driverId)]. *)
Definition isDriverAvailable (s : Store) (driverId : ObjectId) : bool :=
  match findUser s driverId with
  | None => false
  | Some drv =>
      if negb (UserType_eqb (userType drv) Driver) then false
      else if negb (DriverStatus_eqb (driverStatus drv) DsAvailable) then false
      else Nat.eqb (countActive s driverId) 0
  end.

(** ** ScoringEngine *)

(** [parseFloat(x.toFixed(digits))] on rationals: the closest multiple of
    [10^-digits], the larger one in magnitude on a tie; numbers of magnitude
    [10^21] or more are printed in full.  ([Binary64.toFixed] is the function
    on doubles.) *)
Definition toFixed (digits : nat) (x : Q) : Q :=
  let p := inject_Z (10 ^ Z.of_nat digits) in
  if Qle_bool (inject_Z (10 ^ 21)) (Qabs x) then x
  else if Qle_bool 0 x
       then inject_Z (Qfloor (x * p + (1 # 2))) / p
       else - (inject_Z (Qfloor ((- x) * p + (1 # 2))) / p).

(** [totalScore] of the advisory route (routes/donations.js, lines 198-201). *)
Definition advisoryTotalScore (distance reputation foodQuantity capacity : Q)
  : Q :=
  let distanceScore := distance * 0.4 in
  let reputationScore := (100 - reputation) * 0.3 in
  let capacityUtilization := (foodQuantity / capacity) * 0.2 in
  distanceScore + reputationScore + capacityUtilization.

(** [totalScore] of [assignDriver] (lines 133-138), with its constant
    availability term. *)
Definition commitTotalScore (distance reputation foodQuantity capacity : Q)
  : Q :=
  let distanceScore := distance * 0.4 in
  let reputationScore := (100 - reputation) * 0.3 in
  let capacityUtilization := (foodQuantity / capacity) * 0.2 in
  let availabilityScore := 0.1 in
  distanceScore + reputationScore + capacityUtilization + availabilityScore.

(** The score of the specification. *)
Definition specScore (distanceKm reputation demand capacity : Q) : Q :=
  0.4 * distanceKm + 0.3 * (100 - reputation) + 0.2 * (demand / capacity).

(** [Array.prototype.sort((a, b) => a.score - b.score)]: a stable sort,
    ascending on the score.  An element goes before the first element whose
    score is not smaller, so equal scores keep their order. *)
Section Sort.
Context {A : Type} (score : A -> Q).

Fixpoint insert_by_score (x : A) (l : list A) : list A :=
  match l with
  | [] => [x]
  | y :: l' => if Qle_bool (score x) (score y) then x :: y :: l'
               else y :: insert_by_score x l'
  end.

Definition sort_by_score (l : list A) : list A :=
  fold_right insert_by_score [] l.


End Sort.

Definition Qltb (a b : Q) : bool := negb (Qle_bool b a).

(** ** Authentication middleware (middleware/auth.js) *)

(** [authenticate]: the token's [userId] must be the id of a stored user. *)
Definition authenticate (s : Store) (userId : ObjectId) : option User :=
  findUser s userId.

(** [authorize(...allowedRoles)]. *)
Definition authorize (allowedRoles : list UserType) (user : User) : bool :=
  existsb (UserType_eqb (userType user)) allowedRoles.

(** [authorizeOwnerOrRole('id', ...allowedRoles)]: a caller with one of the
    roles, or the owner of the resource [req.params.id]. *)
Definition authorizeOwnerOrRole (allowedRoles : list UserType) (user : User)
  (userId resourceUserId : ObjectId) : bool :=
  authorize allowedRoles user || (resourceUserId =? userId).

(** ** MatchingEngine *)

(** An element of [eligibleDrivers] in the advisory route. *)
Record EligibleDriver := mkEligibleDriver {
  ed_id : ObjectId;
  ed_distance : Q;
  ed_capacity : Q;
  ed_capacityUtilization : Q;
  ed_vehicleCapacity : VehicleCapacity;
  ed_reputationScore : Q;
  ed_score : Q
}.

(** An element of [eligibleDrivers] in [assignDriver]. *)
Record Candidate := mkCandidate {
  c_driver : User;
  c_distance : Q;
  c_capacity : Q;
  c_capacityUtilization : Q;
  c_reputation : Q;
  c_score : Q
}.

(** The successful result of [assignDriver]. *)
Record Assignment := mkAssignment {
  assignedDonation : option Donation;
  assignedDriver : ObjectId;
  assignedDistance : Q;
  assignedCapacity : Q;
  alternatives : list ObjectId
}.

(** The elements of a list that a partial function keeps, in order: a loop
    that [continue]s or [push]es. *)
Definition filter_map {A B : Type} (f : A -> option B) (l : list A) : list B :=
  flat_map (fun a => match f a with Some b => [b] | None => [] end) l.

(** The query of the advisory route (routes/donations.js, lines 150-156):
    [User.find({ userType: 'driver', driverStatus: 'available', isActive:
    true, 'address.coordinates.lat': { $exists: true, $ne: null },
    'address.coordinates.lng': { $exists: true, $ne: null } })]. *)
Definition findAvailableDrivers (s : Store) : list User :=
  filter (fun u => UserType_eqb (userType u) Driver
                   && DriverStatus_eqb (driverStatus u) DsAvailable
                   && isActive u
                   && is_number (coordinates_lat u)
                   && is_number (coordinates_lng u)) (users s).

(** The query of [assignDriver] (services/driverAssignment.js, lines
    96-102): the same with [{ $exists: true }] alone, which a [null]
    coordinate satisfies. *)
Definition findAssignableDrivers (s : Store) : list User :=
  filter (fun u => UserType_eqb (userType u) Driver
                   && DriverStatus_eqb (driverStatus u) DsAvailable
                   && isActive u
                   && path_exists (coordinates_lat u)
                   && path_exists (coordinates_lng u)) (users s).

Section Matching.
(** [calculateDistance(lat1, lon1, lat2, lon2)], the Haversine distance in
    kilometres. *)
Variable calculateDistance : Q -> Q -> Q -> Q -> Q.

(** The body of the loop of the advisory route (lines 168-215).  The value
    of the score on the numbers of the code is [Binary64.advisoryScore]. *)
Definition advisoryEntry (s : Store) (pickupCoords : Coordinates)
  (foodQuantity : Q) (drv : User) : option EligibleDriver :=
  if negb (isDriverAvailable s (user_id drv)) then None
  else
    let vehicleCapacity :=
      getVehicleCapacityKg (Some (vehicleCapacity_or_medium drv)) in
    if Qltb vehicleCapacity foodQuantity then None
    else
      match coordinates_lat drv, coordinates_lng drv with
      | Num dlat, Num dlng =>
          (* [!driverCoords.lat || !driverCoords.lng]: 0 is falsy *)
          if Qeq_bool dlat 0 || Qeq_bool dlng 0 then None
          else
            let distance :=
              calculateDistance dlat dlng (lat pickupCoords)
                                (lng pickupCoords) in
            let totalScore :=
              advisoryTotalScore distance (reputationScore drv)
                                 foodQuantity vehicleCapacity in
            Some (mkEligibleDriver (user_id drv)
                    (toFixed 2 distance)
                    vehicleCapacity
                    (toFixed 1 (foodQuantity / vehicleCapacity * 100))
                    (vehicleCapacity_or_medium drv)
                    (reputationScore drv)
                    (toFixed 2 totalScore))
      | _, _ => None   (* excluded by the query *)
      end.

(** [GET /:id/available-drivers]: the ranked list, no write.

    The guard of line 135 is taken when the pickup latitude or longitude is
    not a number.  (Mongoose hydrates the nested path [pickupAddress
    .coordinates] as an object even when it is empty, so on a stored document
    the guard of the source does not fire: the route goes on with the
    [undefined] coordinates and answers 200 with the drivers it kept in query
    order, every distance and score being [NaN], [null] in the JSON.  The
    rationals of this model have no [NaN]; the outcome is kept apart from a
    ranking under the tag of the guard, [MissingLocation], and the properties
    of a ranking take the pickup coordinates as a hypothesis.) *)
Definition available_drivers (s : Store) (userId id : ObjectId)
  : Result (list EligibleDriver) :=
  match authenticate s userId with
  | None => inl Unauthenticated
  | Some user =>
    if negb (authorize [Receiver; Donor] user) then inl Forbidden
    else
      match findDonation s id with
      | None => inl NotFound
      | Some donation =>
        match coordinates (pickupAddress donation) with
        | None => inl MissingLocation
        | Some pickupCoords =>
          let foodQuantity := calculateFoodQuantity (foodItems donation) in
          let allDrivers := findAvailableDrivers s in
          let eligibleDrivers :=
            filter_map (advisoryEntry s pickupCoords foodQuantity)
                       allDrivers in
          inr (sort_by_score ed_score eligibleDrivers)
        end
      end
  end.

(** The body of the loop of [assignDriver] (lines 111-148).  The loop has
    no test of the driver's coordinates: a [null] latitude or longitude, which
    the query lets through, enters [calculateDistance] as 0. *)
Definition commitEntry (s : Store) (pickupCoords : Coordinates)
  (foodQuantity : Q) (drv : User) : option Candidate :=
  if negb (isDriverAvailable s (user_id drv)) then None
  else
    let vehicleCapacity :=
      getVehicleCapacityKg (Some (vehicleCapacity_or_medium drv)) in
    if Qltb vehicleCapacity foodQuantity then None
    else
      if negb (path_exists (coordinates_lat drv)
               && path_exists (coordinates_lng drv))
      then None        (* excluded by the query *)
      else
        let distance :=
          calculateDistance (number_of (coordinates_lat drv))
                            (number_of (coordinates_lng drv))
                            (lat pickupCoords) (lng pickupCoords) in
        Some (mkCandidate drv distance vehicleCapacity
                (foodQuantity / vehicleCapacity)
                (reputationScore drv)
                (commitTotalScore distance (reputationScore drv)
                                  foodQuantity vehicleCapacity)).

(** [donation.receiver?.address?.coordinates] after [populate('receiver',
    'address')]: the donation has a receiver and the receiver is a stored
    user.  The nested path [address.coordinates] of a hydrated user is an
    object whether or not a latitude and a longitude are stored, so the
    receiver's own coordinates play no part. *)
Definition receiverHasCoordinates (s : Store) (donation : Donation) : bool :=
  match receiver donation with
  | None => false
  | Some r =>
      match findUser s r with
      | None => false
      | Some _ => true
      end
  end.

(** The read phase of [assignDriver]: everything up to the sort.  It
    returns the sorted, non-empty [eligibleDrivers].  The pickup coordinates
    are treated as in [available_drivers]: without them every distance and
    score of the source is [NaN], which this model does not express. *)
Definition assignDriver_select (s : Store) (donationId : ObjectId)
  : Result (list Candidate) :=
  match findDonation s donationId with
  | None => inl NotFound
  | Some donation =>
    match coordinates (pickupAddress donation) with
    | None => inl MissingLocation
    | Some pickupCoords =>
      if negb (receiverHasCoordinates s donation) then inl MissingLocation
      else
        let foodQuantity := calculateFoodQuantity (foodItems donation) in
        let allDrivers := findAssignableDrivers s in
        match allDrivers with
        | [] => inl CapacityExceeded   (* 'No available drivers found' *)
        | _ =>
          let eligibleDrivers :=
            filter_map (commitEntry s pickupCoords foodQuantity)
                       allDrivers in
          match eligibleDrivers with
          | [] => inl CapacityExceeded (* 'No eligible drivers found' *)
          | _ => inr (sort_by_score c_score eligibleDrivers)
          end
        end
    end
  end.

(** The write phase of [assignDriver] (lines 160-166): the two saves. *)
Definition assignDriver_write (now : Date) (s : Store)
  (donationId bestDriver : ObjectId) : Store :=
  let s1 := saveDonation now donationId
              (fun d => set_status assigned
                          (set_driver (Some bestDriver) d)) s in
  saveUser bestDriver (set_driverStatus DsBusy) s1.

(** [assignDriver(donationId)]. *)
Definition assignDriver (now : Date) (s : Store) (donationId : ObjectId)
  : Store * Result Assignment :=
  match assignDriver_select s donationId with
  | inl e => (s, inl e)
  | inr [] => (s, inl ServerError)
  | inr (best :: rest) =>
      let bestDriver := user_id (c_driver best) in
      let s' := assignDriver_write now s donationId bestDriver in
      (s', inr (mkAssignment (findDonation s' donationId) bestDriver
                  (toFixed 2 (c_distance best)) (c_capacity best)
                  (map (fun d => user_id (c_driver d)) (firstn 3 rest))))
  end.
End Matching.

(** ** DonationLifecycle (routes/donations.js) *)

(** The validation of one element of [foodItems] by the donation schema:
    [name] is required (an empty string does not pass) and [unit] is one of
    the schema's enum.  [quantity] is required too; it is a number here. *)
Definition validFoodItem (item : FoodItem) : bool :=
  negb (item_name item =? "")
  && existsb (String.eqb (unit item))
             ["kg"; "pieces"; "packets"; "liters"; "boxes"].

(** [POST /]: only donors create.  [donation.save()] validates the document
    against the schema; when an item does not pass, it throws, and the route
    answers 500 'Failed to create donation' with nothing stored. *)
Definition create_donation (now : Date) (s : Store) (userId newId : ObjectId)
  (items : list FoodItem) (address : PickupAddress) (preferred : Date)
  (note : string) : Store * Result (option Donation) :=
  match authenticate s userId with
  | None => (s, inl Unauthenticated)
  | Some user =>
    if negb (authorize [Donor] user) then (s, inl Forbidden)
    else
      match items with
      | [] => (s, inl BadRequest)  (* 'At least one food item is required' *)
      | _ =>
        if negb (forallb validFoodItem items) then (s, inl ServerError)
        else
          let donation :=
            mkDonation newId userId None None items address available
                       preferred None None None note now now in
          let s' := insertDonation donation s in
          (s', inr (findDonation s' newId))
      end
  end.

(** [PATCH /:id/reserve]: only receivers reserve. *)
Definition reserve (now : Date) (s : Store) (userId id : ObjectId)
  : Store * Result (option Donation) :=
  match authenticate s userId with
  | None => (s, inl Unauthenticated)
  | Some user =>
    if negb (authorize [Receiver] user) then (s, inl Forbidden)
    else
      match findDonation s id with
      | None => (s, inl NotFound)
      | Some donation =>
        if negb (Status_eqb (status donation) available)
        then (s, inl InvalidState)     (* 'Donation is not available' *)
        else
          let s' := saveDonation now id
                      (fun d => set_status reserved
                                  (set_receiver (Some userId) d)) s in
          (s', inr (findDonation s' id))
      end
  end.

(** The read phase of [PATCH /:id/assign-driver] (lines 243-261). *)
Definition assign_driver_validate (s : Store) (userId id drv : ObjectId)
  : Result (Donation * User) :=
  match authenticate s userId with
  | None => inl Unauthenticated
  | Some user =>
    if negb (authorize [Receiver; Donor] user) then inl Forbidden
    else
      match findDonation s id with
      | None => inl NotFound           (* 'Donation not found' *)
      | Some donation =>
        if negb (Status_eqb (status donation) reserved)
        then inl InvalidState          (* 'Donation must be reserved ...' *)
        else
          match findUser s drv with
          | None => inl NotFound       (* 'Driver not found' *)
          | Some driverUser =>
            if negb (UserType_eqb (userType driverUser) Driver)
            then inl NotFound          (* 'Driver not found' *)
            else if negb (DriverStatus_eqb (driverStatus driverUser)
                                           DsAvailable)
            then inl DriverUnavailable (* 'Driver is not available' *)
            else inr (donation, driverUser)
          end
      end
  end.

(** The write phase of [PATCH /:id/assign-driver] (lines 263-269). *)
Definition assign_driver_write (now : Date) (s : Store) (id drv : ObjectId)
  : Store :=
  let s1 := saveDonation now id
              (fun d => set_status assigned (set_driver (Some drv) d)) s in
  saveUser drv (set_driverStatus DsBusy) s1.

(** [PATCH /:id/assign-driver]. *)
Definition assign_driver (now : Date) (s : Store) (userId id drv : ObjectId)
  : Store * Result (option Donation) :=
  match assign_driver_validate s userId id drv with
  | inl e => (s, inl e)
  | inr _ =>
      let s' := assign_driver_write now s id drv in
      (s', inr (findDonation s' id))
  end.

(** The driver-status update after a completed delivery (lines 318-337 and
    382-401): the driver goes back to [available] when no other donation of
    theirs is assigned or picked up; nothing is written otherwise. *)
Definition syncDriverAfterDelivery (s : Store) (donation : Donation) : Store :=
  match driver donation with
  | None => s
  | Some driverId =>
      match findUser s driverId with
      | None => s
      | Some drv =>
          let activeAssignments :=
            countActiveExcept s (user_id drv) (donation_id donation) in
          if Nat.eqb activeAssignments 0
          then saveUser (user_id drv) (set_driverStatus DsAvailable) s
          else s
      end
  end.

(** [donation.donor == userId || donation.receiver == userId ||
    donation.driver == userId]. *)
Definition canUpdate (donation : Donation) (userId : ObjectId) : bool :=
  (donor donation =? userId)
  || ObjectId_opt_eqb (receiver donation) userId
  || ObjectId_opt_eqb (driver donation) userId.

(** The assignments of [PATCH /:id/status] to the loaded donation
    (lines 307-313); a falsy timestamp is [None]. *)
Definition applyStatusUpdate (st : Status) (pickupTime deliveryTime : option Date)
  (d : Donation) : Donation :=
  let d1 := set_status st d in
  let d2 := match pickupTime with
            | Some t => set_actualPickupTime (Some t) d1
            | None => d1
            end in
  match deliveryTime with
  | Some t => set_actualDeliveryTime (Some t) d2
  | None => d2
  end.

(** [PATCH /:id/status].  The requested status is a value of the schema's
    enum; [save] refuses any other string when it validates the document. *)
Definition update_status (now : Date) (s : Store) (userId id : ObjectId)
  (st : Status) (pickupTime deliveryTime : option Date)
  : Store * Result (option Donation) :=
  match authenticate s userId with
  | None => (s, inl Unauthenticated)
  | Some _ =>
    match findDonation s id with
    | None => (s, inl NotFound)
    | Some donation =>
      if negb (canUpdate donation userId) then (s, inl Forbidden)
      else
        let s1 := saveDonation now id
                    (applyStatusUpdate st pickupTime deliveryTime) s in
        let s2 := if Status_eqb st delivered
                  then syncDriverAfterDelivery s1 donation
                  else s1 in
        (s2, inr (findDonation s2 id))
    end
  end.

(** [PATCH /:id/delivery-proof]: only the donation's driver, only from
    [picked_up]. *)
Definition delivery_proof (now : Date) (s : Store) (userId id : ObjectId)
  (proofUrl : string) : Store * Result (option Donation) :=
  match authenticate s userId with
  | None => (s, inl Unauthenticated)
  | Some user =>
    if negb (authorize [Driver] user) then (s, inl Forbidden)
    else
      match findDonation s id with
      | None => (s, inl NotFound)
      | Some donation =>
        if negb (ObjectId_opt_eqb (driver donation) userId)
        then (s, inl Forbidden)
        else if negb (Status_eqb (status donation) picked_up)
        then (s, inl InvalidState)
        else
          let s1 := saveDonation now id
                      (fun d => set_actualDeliveryTime (Some now)
                                  (set_status delivered
                                     (set_deliveryProof
                                        (Some (mkDeliveryProof proofUrl now))
                                        d))) s in
          let s2 := syncDriverAfterDelivery s1 donation in
          (s2, inr (findDonation s2 id))
      end
  end.

(** ** Routes that write users *)

(** [PATCH /api/drivers/:id/status] (routes/drivers.js): the body's status
    is [None] when it is neither ['available'] nor ['busy']. *)
Definition driver_patch_status (s : Store) (userId id : ObjectId)
  (st : option DriverStatus) : Store * Result DriverStatus :=
  match authenticate s userId with
  | None => (s, inl Unauthenticated)
  | Some user =>
    if negb (authorizeOwnerOrRole [Driver] user userId id)
    then (s, inl Forbidden)
    else
      match st with
      | None => (s, inl BadRequest)    (* 'Invalid status. ...' *)
      | Some v =>
        match findUser s id with
        | None => (s, inl NotFound)
        | Some drv =>
          if negb (UserType_eqb (userType drv) Driver) then (s, inl NotFound)
          else (saveUser id (set_driverStatus v) s, inr v)
        end
      end
  end.

(** The body of [PATCH /api/admin/users/:id]; an absent field is [None],
    and so is a [driverStatus] other than ['available'] and ['busy'].  A
    [reputationScore] in the body is a number: a body that carries [null]
    there (which the route's test [!== undefined] lets through) or a value
    that is no number is not covered by this model. *)
Record AdminUpdate := mkAdminUpdate {
  au_kycStatus : option KycStatus;
  au_reputationScore : option Q;
  au_isActive : option bool;
  au_driverStatus : option DriverStatus
}.

Definition applyAdminUpdate (b : AdminUpdate) (u : User) : User :=
  let u1 := match au_kycStatus b with
            | Some v => set_kycStatus v u | None => u end in
  let u2 := match au_reputationScore b with
            | Some v => set_reputationScore v u1 | None => u1 end in
  let u3 := match au_isActive b with
            | Some v => set_isActive v u2 | None => u2 end in
  match au_driverStatus b with
  | Some v => if UserType_eqb (userType u3) Driver
              then set_driverStatus v u3 else u3
  | None => u3
  end.

(** The schema's [min: 0, max: 100] on [reputationScore], checked by
    [save]. *)
Definition validReputation (b : AdminUpdate) : bool :=
  match au_reputationScore b with
  | Some v => Qle_bool 0 v && Qle_bool v 100
  | None => true
  end.

(** [PATCH /api/admin/users/:id] (routes/admin.js). *)
Definition admin_patch_user (s : Store) (userId id : ObjectId)
  (b : AdminUpdate) : Store * Result (option User) :=
  match authenticate s userId with
  | None => (s, inl Unauthenticated)
  | Some user =>
    if negb (authorize [Admin] user) then (s, inl Forbidden)
    else
      match findUser s id with
      | None => (s, inl NotFound)
      | Some _ =>
        if negb (validReputation b) then (s, inl ServerError)
        else
          let s' := saveUser id (applyAdminUpdate b) s in
          (s', inr (findUser s' id))
      end
  end.

(** The body of [PATCH /api/users/:id]; a falsy field is [None]. *)
Record ProfileUpdate := mkProfileUpdate {
  pu_name : option string;
  pu_phone : option string;
  pu_coordinates : option (NumberPath * NumberPath)
}.

Definition applyProfileUpdate (b : ProfileUpdate) (u : User) : User :=
  let n := match pu_name b with Some v => v | None => name u end in
  let p := match pu_phone b with Some v => v | None => phone u end in
  match pu_coordinates b with
  | Some (la, ln) => set_profile n p la ln u
  | None => set_profile n p (coordinates_lat u) (coordinates_lng u) u
  end.

(** [PATCH /api/users/:id] (routes/users.js): the owner only. *)
Definition users_patch (s : Store) (userId id : ObjectId) (b : ProfileUpdate)
  : Store * Result (option User) :=
  match authenticate s userId with
  | None => (s, inl Unauthenticated)
  | Some user =>
    if negb (authorizeOwnerOrRole [] user userId id) then (s, inl Forbidden)
    else
      match findUser s id with
      | None => (s, inl NotFound)
      | Some _ =>
        let s' := saveUser id (applyProfileUpdate b) s in
        (s', inr (findUser s' id))
      end
  end.

(** The body of [POST /api/auth/register], with the id Mongo gives the new
    document and whether the admin code matched.  [reg_email] is the e-mail
    as the schema's setters leave it, lowercased and trimmed: Mongoose applies
    them to the filter of [findOne] and to the new document alike, so the
    duplicate test and the stored value are both on that form. *)
Record Registration := mkRegistration {
  reg_id : ObjectId;
  reg_name : string;
  reg_email : string;
  reg_phone : string;
  reg_userType : UserType;
  reg_lat : NumberPath;
  reg_lng : NumberPath;
  reg_adminCodeValid : bool
}.

(** [POST /api/auth/register] (routes/auth.js): the schema's defaults fill
    the fields the body does not give. *)
Definition register (s : Store) (b : Registration) : Store * Result ObjectId :=
  if existsb (fun u => email u =? reg_email b) (users s)
  then (s, inl BadRequest)            (* 'User already exists ...' *)
  else if UserType_eqb (reg_userType b) Admin && negb (reg_adminCodeValid b)
  then (s, inl Forbidden)
  else
    let kyc := if UserType_eqb (reg_userType b) Admin
               then verified else not_submitted in
    let user := mkUser (reg_id b) (reg_name b) (reg_email b) (reg_phone b)
                       (reg_userType b) (reg_lat b) (reg_lng b) kyc 100 true
                       DsAvailable (Some medium) in
    (insertUser user s, inr (reg_id b)).

(** ** The operations as one step function *)

Inductive Request :=
| ReqRegister (b : Registration)
| ReqUsersPatch (userId id : ObjectId) (b : ProfileUpdate)
| ReqAdminPatchUser (userId id : ObjectId) (b : AdminUpdate)
| ReqDriverPatchStatus (userId id : ObjectId) (st : option DriverStatus)
| ReqCreateDonation (userId newId : ObjectId) (items : list FoodItem)
    (address : PickupAddress) (preferred : Date) (note : string)
| ReqReserve (userId id : ObjectId)
| ReqAvailableDrivers (userId id : ObjectId)
| ReqAssignDriver (userId id drv : ObjectId)
| ReqAutoAssign (donationId : ObjectId)
| ReqUpdateStatus (userId id : ObjectId) (st : Status)
    (pickupTime deliveryTime : option Date)
| ReqDeliveryProof (userId id : ObjectId) (proofUrl : string).

(** The store after a request has been served at time [now]. *)
Definition step (calculateDistance : Q -> Q -> Q -> Q -> Q) (now : Date)
  (r : Request) (s : Store) : Store :=
  match r with
  | ReqRegister b => fst (register s b)
  | ReqUsersPatch userId id b => fst (users_patch s userId id b)
  | ReqAdminPatchUser userId id b => fst (admin_patch_user s userId id b)
  | ReqDriverPatchStatus userId id st =>
      fst (driver_patch_status s userId id st)
  | ReqCreateDonation userId newId items address preferred note =>
      fst (create_donation now s userId newId items address preferred note)
  | ReqReserve userId id => fst (reserve now s userId id)
  | ReqAvailableDrivers _ _ => s
  | ReqAssignDriver userId id drv => fst (assign_driver now s userId id drv)
  | ReqAutoAssign donationId =>
      fst (assignDriver calculateDistance now s donationId)
  | ReqUpdateStatus userId id st pickupTime deliveryTime =>
      fst (update_status now s userId id st pickupTime deliveryTime)
  | ReqDeliveryProof userId id proofUrl =>
      fst (delivery_proof now s userId id proofUrl)
  end.

(** The driver's occupancy flag as stored. *)
Definition occupancy (s : Store) (id : ObjectId) : option DriverStatus :=
  option_map driverStatus (findUser s id).

(** The requests through which the occupancy flag may be written according to
    the specification: the commit paths of the matching engine (automatic and
    caller-specified) and the synchronisation after a delivery. *)
Definition commit_or_synchronizer (r : Request) : bool :=
  match r with
  | ReqAssignDriver _ _ _ | ReqAutoAssign _ => true
  | ReqUpdateStatus _ _ delivered _ _ => true
  | ReqDeliveryProof _ _ _ => true
  | _ => false
  end.

(** The two routes that assign [driverStatus] from the request body. *)
Definition direct_writer (r : Request) : bool :=
  match r with
  | ReqDriverPatchStatus _ _ _ | ReqAdminPatchUser _ _ _ => true
  | _ => false
  end.

(** ** The transition table of the specification (section 4.6) *)

Definition is_terminal (st : Status) : bool :=
  match st with delivered | cancelled => true | _ => false end.

Definition transition_table (from to : Status) : bool :=
  match from, to with
  | available, reserved => true
  | reserved, assigned => true
  | assigned, picked_up => true
  | picked_up, delivered => true
  | _, cancelled => negb (is_terminal from)
  | _, _ => false
  end.

(** ** Notions of the specification used to state the properties *)

(** The fields of a donation that [PATCH /:id/status] is not meant to touch:
    all but [status], [actualPickupTime], [actualDeliveryTime] and
    [updatedAt]. *)
Definition same_frame (d d' : Donation) : Prop :=
  donation_id d' = donation_id d
  /\ donor d' = donor d
  /\ receiver d' = receiver d
  /\ driver d' = driver d
  /\ foodItems d' = foodItems d
  /\ pickupAddress d' = pickupAddress d
  /\ preferredPickupTime d' = preferredPickupTime d
  /\ deliveryProof d' = deliveryProof d
  /\ notes d' = notes d
  /\ createdAt d' = createdAt d.

(** Eligibility of a driver as the specification defines it (section 4.3):
    role, active flag, occupancy flag, coordinates and the live count. *)
Definition isEligible (s : Store) (u : User) : bool :=
  UserType_eqb (userType u) Driver
  && isActive u
  && DriverStatus_eqb (driverStatus u) DsAvailable
  && is_number (coordinates_lat u) && is_number (coordinates_lng u)
  && Nat.eqb (countActive s (user_id u)) 0.


(** The ranked list of a response, empty for a failure. *)
Definition ranked_or_nil {A : Type} (r : Result (list A)) : list A :=
  match r with inr l => l | inl _ => [] end.



(** ** Two requests served concurrently

    Both handlers run their read phase on the same store before either
    writes: the interleaving in which each request is suspended at the
    [await] that precedes its first [save]. *)
Definition assign_driver_interleaved (now : Date) (s : Store)
  (userId1 id1 drv1 userId2 id2 drv2 : ObjectId)
  : Store * (bool * bool) :=
  let r1 := assign_driver_validate s userId1 id1 drv1 in
  let r2 := assign_driver_validate s userId2 id2 drv2 in
  let s1 := if is_success r1 then assign_driver_write now s id1 drv1 else s in
  let s2 := if is_success r2 then assign_driver_write now s1 id2 drv2
            else s1 in
  (s2, (is_success r1, is_success r2)).

Definition assignDriver_interleaved
  (calculateDistance : Q -> Q -> Q -> Q -> Q) (now : Date) (s : Store)
  (id1 id2 : ObjectId) : Store * (option ObjectId * option ObjectId) :=
  let best r := match r with
                | inr (c :: _) => Some (user_id (c_driver c))
                | _ => None
                end in
  let b1 := best (assignDriver_select calculateDistance s id1) in
  let b2 := best (assignDriver_select calculateDistance s id2) in
  let s1 := match b1 with
            | Some drv => assignDriver_write now s id1 drv
            | None => s
            end in
  let s2 := match b2 with
            | Some drv => assignDriver_write now s1 id2 drv
            | None => s1
            end in
  (s2, (b1, b2)).

(** Every stored user with the driver's id is busy, as after the write
    phase of a commit. *)
Definition all_busy (s : Store) (drv : ObjectId) : Prop :=
  forall u, In u (users s) -> user_id u = drv -> driverStatus u = DsBusy.

(** ** Worked examples *)

(** A distance for worked examples: 111 km per degree along the latitude and
    the longitude.  It stands in for the Haversine distance where an example
    needs a concrete function; it is 0 between identical points. *)
Definition flat_distance (lat1 lon1 lat2 lon2 : Q) : Q :=
  111 * (Qabs (lat2 - lat1) + Qabs (lon2 - lon1)).

Definition example_user (id : ObjectId) (t : UserType) (la ln : Q)
  (rep : Q) (ds : DriverStatus) (v : VehicleCapacity) : User :=
  mkUser id id (id ++ "@example.org")%string "000" t (Num la) (Num ln)
         verified rep true ds (Some v).

Definition example_donation (id : ObjectId) (rcv drv : option ObjectId)
  (items : list FoodItem) (st : Status) : Donation :=
  mkDonation id "donor1" rcv drv items
             (mkPickupAddress "1 Main St" "Pune" (Some (mkCoordinates 10 20)))
             st 1000%Z None None None "" 900%Z 900%Z.

Definition kg90 : list FoodItem := [mkFoodItem "rice" 90 "kg"].

(** A donor, a receiver and one donation that is still [available]. *)
Definition store_available : Store :=
  mkStore [example_user "donor1" Donor 10 20 100 DsAvailable medium;
           example_user "recv1" Receiver 10 20 100 DsAvailable medium]
          [example_donation "don1" None None kg90 available].

(** A driver who is busy with one assigned donation and has no other. *)
Definition store_assigned : Store :=
  mkStore [example_user "donor1" Donor 10 20 100 DsAvailable medium;
           example_user "recv1" Receiver 10 20 100 DsAvailable medium;
           example_user "drv1" Driver 10 20 100 DsBusy medium]
          [example_donation "don1" (Some "recv1") (Some "drv1") kg90 assigned].

(** Two reserved donations and one available driver. *)
Definition store_two_reserved : Store :=
  mkStore [example_user "donor1" Donor 10 20 100 DsAvailable medium;
           example_user "recv1" Receiver 10 20 100 DsAvailable medium;
           example_user "drv1" Driver 10 20 100 DsAvailable medium]
          [example_donation "don1" (Some "recv1") None kg90 reserved;
           example_donation "don2" (Some "recv1") None kg90 reserved].



(** A reserved donation, a deactivated driver without coordinates whose flag
    is [available], a driver whose flag is [available] although one of their
    donations is still assigned, and a driver whose flag is [busy]. *)
Definition store_unchecked : Store :=
  mkStore [example_user "donor1" Donor 10 20 100 DsAvailable medium;
           example_user "recv1" Receiver 10 20 100 DsAvailable medium;
           mkUser "drv1" "drv1" "drv1@example.org" "000" Driver
                  Undefined Undefined
                  verified 100 false DsAvailable (Some medium);
           example_user "drv2" Driver 10 20 100 DsAvailable medium;
           example_user "drv3" Driver 10 20 100 DsBusy medium]
          [example_donation "don1" (Some "recv1") None kg90 reserved;
           example_donation "don2" (Some "recv1") (Some "drv2") kg90 assigned].


(** ** Further notions used to state properties of the operations *)

(** Whether the response to a request is a success. *)
Definition request_ok (calculateDistance : Q -> Q -> Q -> Q -> Q) (now : Date)
  (r : Request) (s : Store) : bool :=
  match r with
  | ReqRegister b => is_success (snd (register s b))
  | ReqUsersPatch userId id b => is_success (snd (users_patch s userId id b))
  | ReqAdminPatchUser userId id b =>
      is_success (snd (admin_patch_user s userId id b))
  | ReqDriverPatchStatus userId id st =>
      is_success (snd (driver_patch_status s userId id st))
  | ReqCreateDonation userId newId items address preferred note =>
      is_success
        (snd (create_donation now s userId newId items address preferred note))
  | ReqReserve userId id => is_success (snd (reserve now s userId id))
  | ReqAvailableDrivers userId id =>
      is_success (available_drivers calculateDistance s userId id)
  | ReqAssignDriver userId id drv =>
      is_success (snd (assign_driver now s userId id drv))
  | ReqAutoAssign donationId =>
      is_success (snd (assignDriver calculateDistance now s donationId))
  | ReqUpdateStatus userId id st pickupTime deliveryTime =>
      is_success (snd (update_status now s userId id st pickupTime deliveryTime))
  | ReqDeliveryProof userId id proofUrl =>
      is_success (snd (delivery_proof now s userId id proofUrl))
  end.

(** The stores the operations can produce from empty collections. *)
Definition empty_store : Store := mkStore [] [].

Inductive reachable (calculateDistance : Q -> Q -> Q -> Q -> Q)
  : Store -> Prop :=
| reachable_empty : reachable calculateDistance empty_store
| reachable_step (now : Date) (r : Request) (s : Store) :
    reachable calculateDistance s ->
    reachable calculateDistance (step calculateDistance now r s).

(** The paths of a user that no route assigns. *)
Definition user_kept (u u' : User) : Prop :=
  user_id u' = user_id u /\ email u' = email u /\ userType u' = userType u
  /\ vehicleCapacity u' = vehicleCapacity u.

(** Every stored user is still stored, with those paths as they were. *)
Definition users_kept (s s' : Store) : Prop :=
  forall id u, findUser s id = Some u ->
               exists u', findUser s' id = Some u' /\ user_kept u u'.

(** The paths of a donation that no route assigns after its creation. *)
Definition donation_kept (d d' : Donation) : Prop :=
  donation_id d' = donation_id d /\ donor d' = donor d
  /\ foodItems d' = foodItems d /\ pickupAddress d' = pickupAddress d
  /\ preferredPickupTime d' = preferredPickupTime d
  /\ notes d' = notes d /\ createdAt d' = createdAt d.

Definition donations_kept (s s' : Store) : Prop :=
  forall id d, findDonation s id = Some d ->
               exists d', findDonation s' id = Some d' /\ donation_kept d d'.

(** A stored user with this id and this role. *)
Definition has_role (s : Store) (id : ObjectId) (t : UserType) : Prop :=
  exists u, findUser s id = Some u /\ userType u = t.

(** Referential integrity of a donation: its donor, its receiver and its
    driver are stored users of that role. *)
Definition donation_refs_ok (s : Store) (d : Donation) : Prop :=
  has_role s (donor d) Donor
  /\ (forall r, receiver d = Some r -> has_role s r Receiver)
  /\ (forall x, driver d = Some x -> has_role s x Driver).

Definition refs_ok (s : Store) : Prop :=
  forall d, In d (donations s) -> donation_refs_ok s d.

(** What the routes keep of every stored user: the vehicle class is the
    schema's default, which registration stores and no route assigns. *)
Definition user_ok (u : User) : Prop := vehicleCapacity u = Some medium.

(** ** Admin analytics (routes/admin.js)

    The counts of [GET /api/admin/analytics] that depend on the paths of the
    model; the counts over the last seven days, which read the clock and the
    users' creation time, are left out. *)
Definition countDonations (p : Status -> bool) (s : Store) : nat :=
  List.length (filter (fun d => p (status d)) (donations s)).

Definition countUsers (p : User -> bool) (s : Store) : nat :=
  List.length (filter p (users s)).

Definition Status_in (l : list Status) (st : Status) : bool :=
  existsb (Status_eqb st) l.

Record Analytics := mkAnalytics {
  totalUsers : nat;
  totalDonors : nat;
  totalReceivers : nat;
  totalDrivers : nat;
  totalDonations : nat;
  activeDonations : nat;
  completedDonations : nat;
  cancelledDonations : nat;
  matchRate : Q;
  kycVerified : nat;
  kycPending : nat;
  kycRejected : nat
}.

Definition KycStatus_eqb (a b : KycStatus) : bool :=
  match a, b with
  | pending, pending | verified, verified | rejected, rejected
  | not_submitted, not_submitted => true
  | _, _ => false
  end.

Definition Q_of_nat (n : nat) : Q := inject_Z (Z.of_nat n).

Definition analytics (s : Store) (userId : ObjectId) : Result Analytics :=
  match authenticate s userId with
  | None => inl Unauthenticated
  | Some user =>
    if negb (authorize [Admin] user) then inl Forbidden
    else
      let total := countDonations (fun _ => true) s in
      let matchedDonations :=
        countDonations (Status_in [reserved; assigned; picked_up; delivered])
                       s in
      inr (mkAnalytics
             (countUsers (fun _ => true) s)
             (countUsers (fun u => UserType_eqb (userType u) Donor) s)
             (countUsers (fun u => UserType_eqb (userType u) Receiver) s)
             (countUsers (fun u => UserType_eqb (userType u) Driver) s)
             total
             (countDonations
                (Status_in [available; reserved; assigned; picked_up]) s)
             (countDonations (Status_in [delivered]) s)
             (countDonations (Status_in [cancelled]) s)
             (if Nat.ltb 0 total
              then toFixed 2 (Q_of_nat matchedDonations / Q_of_nat total * 100)
              else 0)
             (countUsers (fun u => KycStatus_eqb (kycStatus u) verified) s)
             (countUsers (fun u => KycStatus_eqb (kycStatus u) pending) s)
             (countUsers (fun u => KycStatus_eqb (kycStatus u) rejected) s))
  end.

(** [GET /api/admin/donations/stats]: the count of each status among the
    donations created within the optional bounds. *)
Definition inDateRange (startDate endDate : option Date) (d : Donation)
  : bool :=
  match startDate with Some a => Z.leb a (createdAt d) | None => true end
  && match endDate with Some b => Z.leb (createdAt d) b | None => true end.

Definition donation_stats (s : Store) (userId : ObjectId)
  (startDate endDate : option Date) : Result (Status -> nat) :=
  match authenticate s userId with
  | None => inl Unauthenticated
  | Some user =>
    if negb (authorize [Admin] user) then inl Forbidden
    else
      inr (fun st =>
             List.length
               (filter (fun d => inDateRange startDate endDate d
                                 && Status_eqb (status d) st)
                       (donations s)))
  end.

Definition all_statuses : list Status :=
  [available; reserved; assigned; picked_up; delivered; cancelled].

(** A store with an admin, for examples of the admin routes. *)
Definition store_admin : Store :=
  insertUser (example_user "admin1" Admin 10 20 100 DsAvailable medium)
             store_assigned.

(** A store reached through the operations: a donor registers and creates
    a donation of 200 kg. *)
Definition store_reached : Store :=
  step flat_distance 2%Z
    (ReqCreateDonation "donor1" "don1" [mkFoodItem "rice" 200 "kg"]
       (mkPickupAddress "1 Main St" "Pune" (Some (mkCoordinates 10 20)))
       1000%Z "")
    (step flat_distance 1%Z
       (ReqRegister (mkRegistration "donor1" "donor1" "donor1@example.org"
                                    "000" Donor (Num 10) (Num 20) false))
       empty_store).

(** ** Notions for the decimal rounding *)

(** [10^digits], the number of units of the last kept decimal in 1. *)
Definition pow10 (digits : nat) : Q := inject_Z (10 ^ Z.of_nat digits).

(** The rounding of [toFixed] on a non-negative number below [10^21]. *)
Definition roundPos (digits : nat) (x : Q) : Q :=
  inject_Z (Qfloor (x * pow10 digits + (1 # 2))) / pow10 digits.


(** A delivered donation whose driver is available again. *)
Definition store_delivered : Store :=
  mkStore [example_user "donor1" Donor 10 20 100 DsAvailable medium;
           example_user "recv1" Receiver 10 20 100 DsAvailable medium;
           example_user "drv1" Driver 10 20 100 DsAvailable medium;
           example_user "drv2" Driver 10 20 100 DsAvailable medium]
          [example_donation "don1" (Some "recv1") (Some "drv1") kg90
                            delivered].

(** A driver whose stored coordinates are [null], and a reserved
    donation. *)
Definition store_null_coordinates : Store :=
  mkStore [example_user "donor1" Donor 10 20 100 DsAvailable medium;
           example_user "recv1" Receiver 10 20 100 DsAvailable medium;
           mkUser "drv1" "drv1" "drv1@example.org" "000" Driver Null Null
                  verified 100 true DsAvailable (Some medium)]
          [example_donation "don1" (Some "recv1") None kg90 reserved].

(** ** The numeric functions on IEEE doubles

    The functions of services/driverAssignment.js and of the advisory route
    that compute with JavaScript numbers, on binary64 floating-point numbers:
    each [+], [-], [*] and [/] below is the IEEE operation the engine
    performs, rounding included. *)
Module Binary64.
Local Open Scope float_scope.

Record FoodItem := mkFoodItem {
  item_name : string;
  quantity : float;
  unit : string
}.

(** One step of the [forEach] of [calculateFoodQuantity]: the [switch] on
    [item.unit]. *)
Definition addFoodItem (totalKg : float) (item : FoodItem) : float :=
  if (unit item =? "kg")%string then totalKg + quantity item
  else if (unit item =? "liters")%string then totalKg + quantity item * 1
  else if (unit item =? "boxes")%string then totalKg + quantity item * 5
  else if (unit item =? "packets")%string then totalKg + quantity item * 0.5
  else if (unit item =? "pieces")%string then totalKg + quantity item * 0.2
  else totalKg + quantity item.

Definition calculateFoodQuantity (foodItems : list FoodItem) : float :=
  fold_left addFoodItem foodItems 0.

(** The rational that a finite double with mantissa [m] and exponent [e]
    stands for. *)
Definition exact (m : positive) (e : Z) : Q :=
  (inject_Z (Z.pos m) * Qpower 2 e)%Q.

(** The value of a double as a rational; infinities and [NaN] have none. *)
Definition value (x : float) : option Q :=
  match Prim2SF x with
  | S754_zero _ => Some 0%Q
  | S754_finite s m e => Some (if s then (- exact m e)%Q else exact m e)
  | _ => None
  end.

(** The sum of [quantity * factor unit] over the items as a sum of
    rationals, without any rounding; the factors are the rationals of
    [factor] above. *)
Definition exactDemandKg (items : list FoodItem) : option Q :=
  fold_left (fun total item =>
               match total, value (quantity item) with
               | Some t, Some q => Some (t + q * factor (unit item))%Q
               | _, _ => None
               end) items (Some 0%Q).

(** Whether the double that [calculateFoodQuantity] returns is that sum. *)
Definition is_exact_sum (items : list FoodItem) : bool :=
  match value (calculateFoodQuantity items), exactDemandKg items with
  | Some a, Some b => Qeq_bool a b
  | _, _ => false
  end.

(** The factors of the specification's [demandKg]. *)
Definition factor (u : string) : float :=
  if (u =? "kg")%string then 1
  else if (u =? "liters")%string then 1
  else if (u =? "boxes")%string then 5
  else if (u =? "packets")%string then 0.5
  else if (u =? "pieces")%string then 0.2
  else 1.

(** The specification's [demandKg], the sum of [quantity * factor unit],
    taken in doubles from 0 through the items in their order. *)
Definition demandKg (items : list FoodItem) : float :=
  fold_left (fun total item => total + quantity item * factor (unit item))
            items 0.

(** [capacityMap[vehicleCapacity] || 150]. *)
Definition getVehicleCapacityKg (v : option VehicleCapacity) : float :=
  match v with
  | Some small => 50
  | Some medium => 150
  | Some large => 300
  | None => 150
  end.

(** The specification's [capacityKg] of a driver's vehicle class, medium
    when the driver has none. *)
Definition capacityKg (v : option VehicleCapacity) : float :=
  match v with
  | Some small => 50
  | Some large => 300
  | _ => 150
  end.

(** [parseFloat(x.toFixed(digits))].  [toFixed] prints the decimal with
    [digits] decimals that is closest to the value of [x], the larger one in
    magnitude on a tie, and the value in full from [10^21] on; [parseFloat]
    reads the decimal back as the closest double.  [NaN] and the infinities
    are printed and read back as themselves; [-0] is printed without its
    sign. *)
Definition toFixed (digits : nat) (x : float) : float :=
  match Prim2SF x with
  | S754_nan => nan
  | S754_infinity _ => x
  | S754_zero _ => 0
  | S754_finite s m e =>
      if Qle_bool (inject_Z (10 ^ 21)) (exact m e) then x
      else
        match Qfloor (exact m e * inject_Z (10 ^ Z.of_nat digits) + (1 # 2))%Q
        with
        | Z.pos n =>
            SF2Prim (SFdiv prec emax (S754_finite s n 0)
                       (S754_finite false (Z.to_pos (10 ^ Z.of_nat digits)) 0))
        | _ => if s then -0 else 0
        end
  end.

(** [totalScore] of the advisory route (routes/donations.js, lines 198-201). *)
Definition advisoryTotalScore
  (distance reputation foodQuantity vehicleCapacity : float) : float :=
  let distanceScore := distance * 0.4 in
  let reputationScore := (100 - reputation) * 0.3 in
  let capacityUtilization := (foodQuantity / vehicleCapacity) * 0.2 in
  distanceScore + reputationScore + capacityUtilization.

(** [totalScore] of [assignDriver] (lines 133-138). *)
Definition commitTotalScore
  (distance reputation foodQuantity vehicleCapacity : float) : float :=
  let distanceScore := distance * 0.4 in
  let reputationScore := (100 - reputation) * 0.3 in
  let capacityUtilization := (foodQuantity / vehicleCapacity) * 0.2 in
  let availabilityScore := 0.1 in
  distanceScore + reputationScore + capacityUtilization + availabilityScore.

(** The [score] of the entry that the advisory loop pushes for a driver
    (lines 143, 177, 198-201 and 213), from the distance it computed, the
    driver's [reputationScore] and [vehicleCapacity] and the donation's
    [foodItems]. *)
Definition advisoryScore (distance reputationScore : float)
  (foodItems : list FoodItem) (vehicleCapacity : option VehicleCapacity)
  : float :=
  let foodQuantity := calculateFoodQuantity foodItems in
  let vehicleCapacity :=
    getVehicleCapacityKg
      (Some (match vehicleCapacity with Some v => v | None => medium end)) in
  toFixed 2
    (advisoryTotalScore distance reputationScore foodQuantity vehicleCapacity).

(** The [score] of the element that the loop of [assignDriver] pushes for a
    driver (lines 93, 117, 133-138 and 146). *)
Definition commitScore (distance reputationScore : float)
  (foodItems : list FoodItem) (vehicleCapacity : option VehicleCapacity)
  : float :=
  let foodQuantity := calculateFoodQuantity foodItems in
  let vehicleCapacity :=
    getVehicleCapacityKg
      (Some (match vehicleCapacity with Some v => v | None => medium end)) in
  commitTotalScore distance reputationScore foodQuantity vehicleCapacity.

(** The score of the specification, evaluated in doubles as it is written. *)
Definition specScore (distanceKm reputation demand capacity : float) : float :=
  0.4 * distanceKm + 0.3 * (100 - reputation) + 0.2 * (demand / capacity).

(** [Array.prototype.sort((a, b) => a.score - b.score)]: an element goes
    after another when the comparator is positive for the pair, and stays
    before it otherwise. *)
Section Sort.
Context {A : Type} (score : A -> float).

Fixpoint insert_by_score (x : A) (l : list A) : list A :=
  match l with
  | [] => [x]
  | y :: l' => if 0 <? score x - score y then y :: insert_by_score x l'
               else x :: y :: l'
  end.

Definition sort_by_score (l : list A) : list A :=
  fold_right insert_by_score [] l.
End Sort.

(** The demand of the scenario of the specification, 90 kg. *)
Definition kg90 : list FoodItem := [mkFoodItem "rice" 90 "kg"].

End Binary64.

(** * Properties *)

(** ** CapacityModel *)




(** *** The sum on doubles *)

Lemma SF64mul_comm (x y : SpecFloat.spec_float) :
  FloatAxioms.SF64mul x y = FloatAxioms.SF64mul y x.
Proof.
  unfold FloatAxioms.SF64mul, SpecFloat.SFmul.
  destruct x as [sx|sx| |sx mx ex], y as [sy|sy| |sy my ey];
    try reflexivity; try (now rewrite xorb_comm).
  now rewrite xorb_comm, Pos.mul_comm, Z.add_comm.
Qed.

(** The multiplication of doubles is commutative. *)
Lemma Binary64_mul_comm (x y : PrimFloat.float) :
  PrimFloat.mul x y = PrimFloat.mul y x.
Proof.
  apply FloatAxioms.Prim2SF_inj. rewrite !FloatAxioms.mul_spec.
  apply SF64mul_comm.
Qed.

Lemma digits2_pos_shift52 (m : positive) :
  Z.pos (SpecFloat.digits2_pos (4503599627370496 * m))
  = (Z.pos (SpecFloat.digits2_pos m) + 52)%Z.
Proof. cbn [Pos.mul SpecFloat.digits2_pos]. lia. Qed.

Lemma SF64mul_one (x : SpecFloat.spec_float) :
  SpecFloat.valid_binary FloatOps.prec FloatOps.emax x = true ->
  FloatAxioms.SF64mul x (SpecFloat.S754_finite false 4503599627370496 (-52)) = x.
Proof.
  destruct x as [s|s| |s m e]; intros Hv;
    unfold FloatAxioms.SF64mul, SpecFloat.SFmul.
  - now rewrite xorb_false_r.
  - now rewrite xorb_false_r.
  - reflexivity.
  - rewrite xorb_false_r, Pos.mul_comm.
    cbn [SpecFloat.valid_binary] in Hv. unfold SpecFloat.bounded in Hv.
    apply andb_true_iff in Hv. destruct Hv as [Hc He].
    unfold SpecFloat.canonical_mantissa in Hc. apply Z.eqb_eq in Hc.
    unfold SpecFloat.binary_round_aux, SpecFloat.shr_fexp.
    cbn [SpecFloat.Zdigits2]. rewrite digits2_pos_shift52.
    replace (Z.pos (SpecFloat.digits2_pos m) + 52 + (e + -52))%Z
      with (Z.pos (SpecFloat.digits2_pos m) + e)%Z by lia.
    rewrite Hc.
    replace (e - (e + -52))%Z with 52%Z by lia.
    cbn [SpecFloat.shr SpecFloat.shr_record_of_loc Pos.mul
         SpecFloat.iter_pos SpecFloat.shr_1 orb SpecFloat.shr_m
         SpecFloat.loc_of_shr_record SpecFloat.round_nearest_even
         SpecFloat.shr_r SpecFloat.shr_s SpecFloat.Zdigits2].
    replace (e + -52 + 52)%Z with e by lia.
    rewrite Hc, Z.sub_diag. cbn [SpecFloat.shr SpecFloat.shr_m].
    now rewrite He.
Qed.

(** Multiplying a double by 1 gives the double back, whatever it is. *)
Lemma Binary64_mul_1_r (x : PrimFloat.float) :
  PrimFloat.mul x 1%float = x.
Proof.
  apply FloatAxioms.Prim2SF_inj. rewrite FloatAxioms.mul_spec.
  change (FloatOps.Prim2SF 1%float)
    with (SpecFloat.S754_finite false 4503599627370496 (-52)).
  apply SF64mul_one, FloatAxioms.Prim2SF_valid.
Qed.

Lemma Binary64_addFoodItem_factor (totalKg : PrimFloat.float)
  (item : Binary64.FoodItem) :
  Binary64.addFoodItem totalKg item
  = PrimFloat.add totalKg
      (PrimFloat.mul (Binary64.quantity item)
                     (Binary64.factor (Binary64.unit item))).
Proof.
  unfold Binary64.addFoodItem, Binary64.factor.
  destruct (Binary64.unit item =? "kg")%string;
    [now rewrite Binary64_mul_1_r|].
  destruct (Binary64.unit item =? "liters")%string; [reflexivity|].
  destruct (Binary64.unit item =? "boxes")%string; [reflexivity|].
  destruct (Binary64.unit item =? "packets")%string; [reflexivity|].
  destruct (Binary64.unit item =? "pieces")%string; [reflexivity|].
  now rewrite Binary64_mul_1_r.
Qed.

Lemma Binary64_fold_addFoodItem (items : list Binary64.FoodItem) :
  forall total,
    fold_left Binary64.addFoodItem items total
    = fold_left (fun total item =>
                   PrimFloat.add total
                     (PrimFloat.mul (Binary64.quantity item)
                                    (Binary64.factor (Binary64.unit item))))
                items total.
Proof.
  induction items as [|item rest IH]; intros total; [reflexivity|].
  cbn [fold_left]. now rewrite IH, Binary64_addFoodItem_factor.
Qed.

Lemma Binary64_calculateFoodQuantity_demandKg
  (items : list Binary64.FoodItem) :
  Binary64.calculateFoodQuantity items = Binary64.demandKg items.
Proof. apply Binary64_fold_addFoodItem. Qed.

Lemma Binary64_factor_unrecognized (u : string) :
  In u ["kg"; "liters"; "boxes"; "packets"; "pieces"]
  \/ Binary64.factor u = 1%float.
Proof.
  unfold Binary64.factor.
  destruct (String.eqb_spec u "kg"); [left; subst; simpl; tauto|].
  destruct (String.eqb_spec u "liters"); [left; subst; simpl; tauto|].
  destruct (String.eqb_spec u "boxes"); [left; subst; simpl; tauto|].
  destruct (String.eqb_spec u "packets"); [left; subst; simpl; tauto|].
  destruct (String.eqb_spec u "pieces"); [left; subst; simpl; tauto|].
  now right.
Qed.

(** The claim C9 fails on the numbers the code computes with.  For the items
    0.1 kg, 0.2 kg and 0.3 kg, [calculateFoodQuantity] returns
    0.6000000000000001, which is not the sum of the three quantities; split
    after the first item, the two parts give 0.1 and 0.5, whose sum is the
    double 0.6: the total of a concatenation is not the sum of the totals of
    its parts. *)
Lemma calculateFoodQuantity_not_additive :
  let xs := [Binary64.mkFoodItem "flour" 0.1 "kg"] in
  let ys := [Binary64.mkFoodItem "rice" 0.2 "kg";
             Binary64.mkFoodItem "salt" 0.3 "kg"] in
  Binary64.calculateFoodQuantity (xs ++ ys) = 0.6000000000000001%float
  /\ Binary64.calculateFoodQuantity xs = 0.1%float
  /\ Binary64.calculateFoodQuantity ys = 0.5%float
  /\ PrimFloat.add (Binary64.calculateFoodQuantity xs)
                   (Binary64.calculateFoodQuantity ys) = 0.6%float
  /\ PrimFloat.eqb
       (Binary64.calculateFoodQuantity (xs ++ ys))
       (PrimFloat.add (Binary64.calculateFoodQuantity xs)
                      (Binary64.calculateFoodQuantity ys)) = false
  /\ Binary64.is_exact_sum (xs ++ ys) = false.
Proof. cbv zeta. repeat split; vm_compute; reflexivity. Qed.

(** C9, amended. In the arithmetic of doubles, [calculateFoodQuantity] is the
    running sum, from 0 and through the items in their order, of [quantity *
    factor unit], with the factors kg 1, liters 1, boxes 5, packets 0.5,
    pieces 0.2 and 1 for every other unit.  It is 0 on the empty list; on a
    concatenation it is the running sum continued through the second list
    from the total of the first; appending one item adds that item's
    [quantity * factor unit] to the total. *)
Theorem calculateFoodQuantity_running_sum :
  (forall items,
      Binary64.calculateFoodQuantity items = Binary64.demandKg items)
  /\ (Binary64.factor "kg" = 1 /\ Binary64.factor "liters" = 1
      /\ Binary64.factor "boxes" = 5 /\ Binary64.factor "packets" = 0.5
      /\ Binary64.factor "pieces" = 0.2)%float
  /\ (forall u, In u ["kg"; "liters"; "boxes"; "packets"; "pieces"]
                \/ Binary64.factor u = 1%float)
  /\ Binary64.calculateFoodQuantity [] = 0%float
  /\ (forall xs ys,
        Binary64.calculateFoodQuantity (xs ++ ys)
        = fold_left (fun total item =>
                       PrimFloat.add total
                         (PrimFloat.mul (Binary64.quantity item)
                            (Binary64.factor (Binary64.unit item))))
                    ys (Binary64.calculateFoodQuantity xs))
  /\ (forall xs item,
        Binary64.calculateFoodQuantity (xs ++ [item])
        = PrimFloat.add (Binary64.calculateFoodQuantity xs)
            (PrimFloat.mul (Binary64.quantity item)
               (Binary64.factor (Binary64.unit item)))).
Proof.
  split; [exact Binary64_calculateFoodQuantity_demandKg|].
  split; [repeat split; reflexivity|].
  split; [exact Binary64_factor_unrecognized|].
  split; [reflexivity|].
  split.
  - intros xs ys. unfold Binary64.calculateFoodQuantity.
    rewrite fold_left_app. apply Binary64_fold_addFoodItem.
  - intros xs item. unfold Binary64.calculateFoodQuantity.
    rewrite fold_left_app. cbn [fold_left].
    apply Binary64_addFoodItem_factor.
Qed.

(** ** The sort *)

Section SortFacts.
Context {A : Type} (score : A -> Q).

Lemma insert_by_score_perm (x : A) (l : list A) :
  Permutation (x :: l) (insert_by_score score x l).
Proof.
  induction l as [|y l IH]; simpl.
  - apply Permutation_refl.
  - destruct (Qle_bool (score x) (score y)).
    + apply Permutation_refl.
    + eapply perm_trans; [apply perm_swap|]. now apply perm_skip.
Qed.

Lemma sort_by_score_perm (l : list A) :
  Permutation l (sort_by_score score l).
Proof.
  induction l as [|x l IH]; simpl.
  - constructor.
  - eapply perm_trans; [apply perm_skip, IH|]. apply insert_by_score_perm.
Qed.

Lemma sort_by_score_In (l : list A) (a : A) :
  In a (sort_by_score score l) <-> In a l.
Proof.
  split; intros H.
  - eapply Permutation_in; [apply Permutation_sym, sort_by_score_perm|exact H].
  - eapply Permutation_in; [apply sort_by_score_perm|exact H].
Qed.






Lemma sort_by_score_nil_iff (l : list A) :
  sort_by_score score l = [] <-> l = [].
Proof.
  split; intros H.
  - apply Permutation_nil. rewrite <- H. apply Permutation_sym, sort_by_score_perm.
  - now subst.
Qed.
End SortFacts.

Lemma in_filter_map {A B : Type} (f : A -> option B) (l : list A) (b : B) :
  In b (filter_map f l) <-> exists a, In a l /\ f a = Some b.
Proof.
  unfold filter_map. rewrite in_flat_map. split.
  - intros (a & Ha & Hb). exists a. split; [exact Ha|].
    destruct (f a); simpl in Hb; [|tauto]. destruct Hb as [->|[]]. reflexivity.
  - intros (a & Ha & Hb). exists a. split; [exact Ha|]. rewrite Hb. now left.
Qed.

(** ** The store *)

Lemma find_map_update {A : Type} (key : A -> string) (id id' : string)
  (g : A -> A) (l : list A) :
  (forall a, key (g a) = key a) ->
  find (fun a => key a =? id') (map (fun a => if key a =? id then g a else a) l)
  = option_map (fun a => if key a =? id then g a else a)
               (find (fun a => key a =? id') l).
Proof.
  intros Hkey. induction l as [|a l IH]; [reflexivity|].
  simpl. destruct (key a =? id) eqn:E.
  - rewrite Hkey. destruct (key a =? id'); [simpl; now rewrite E|exact IH].
  - destruct (key a =? id'); [simpl; now rewrite E|exact IH].
Qed.

Lemma findUser_saveUser (s : Store) (id id' : ObjectId) (f : User -> User) :
  (forall u, user_id (f u) = user_id u) ->
  findUser (saveUser id f s) id'
  = option_map (fun u => if user_id u =? id then f u else u) (findUser s id').
Proof. intros H. unfold findUser, saveUser. simpl. now apply find_map_update. Qed.

Lemma findDonation_saveDonation (now : Date) (s : Store) (id id' : ObjectId)
  (f : Donation -> Donation) :
  (forall d, donation_id (f d) = donation_id d) ->
  findDonation (saveDonation now id f s) id'
  = option_map (fun d => if donation_id d =? id
                         then set_updatedAt now (f d) else d)
               (findDonation s id').
Proof.
  intros H. unfold findDonation, saveDonation. simpl.
  apply (find_map_update donation_id id id' (fun d => set_updatedAt now (f d))).
  intros d. simpl. apply H.
Qed.

Lemma findDonation_saveUser (s : Store) (id id' : ObjectId) (f : User -> User) :
  findDonation (saveUser id f s) id' = findDonation s id'.
Proof. reflexivity. Qed.

Lemma findUser_saveDonation (now : Date) (s : Store) (id id' : ObjectId)
  (f : Donation -> Donation) :
  findUser (saveDonation now id f s) id' = findUser s id'.
Proof. reflexivity. Qed.

Lemma donations_syncDriverAfterDelivery (s : Store) (d : Donation) :
  donations (syncDriverAfterDelivery s d) = donations s.
Proof.
  unfold syncDriverAfterDelivery.
  destruct (driver d); [|reflexivity].
  destruct (findUser s o); [|reflexivity].
  destruct (Nat.eqb _ 0); reflexivity.
Qed.

Lemma findDonation_syncDriverAfterDelivery (s : Store) (d : Donation)
  (id : ObjectId) :
  findDonation (syncDriverAfterDelivery s d) id = findDonation s id.
Proof.
  unfold findDonation. now rewrite donations_syncDriverAfterDelivery.
Qed.

Lemma applyStatusUpdate_id (st : Status) (pt dt : option Date) (d : Donation) :
  donation_id (applyStatusUpdate st pt dt d) = donation_id d.
Proof. unfold applyStatusUpdate. destruct pt, dt; reflexivity. Qed.

Lemma applyStatusUpdate_status (st : Status) (pt dt : option Date)
  (d : Donation) :
  status (applyStatusUpdate st pt dt d) = st.
Proof. unfold applyStatusUpdate. destruct pt, dt; reflexivity. Qed.

Lemma applyStatusUpdate_frame (now : Date) (st : Status) (pt dt : option Date)
  (d : Donation) :
  same_frame d (set_updatedAt now (applyStatusUpdate st pt dt d)).
Proof.
  unfold applyStatusUpdate, same_frame.
  destruct pt, dt; simpl; repeat split; reflexivity.
Qed.

Lemma same_frame_refl (d : Donation) : same_frame d d.
Proof. unfold same_frame. repeat split; reflexivity. Qed.

Lemma find_key_eq {A : Type} (key : A -> string) (id : string) (l : list A)
  (a : A) :
  find (fun a => key a =? id) l = Some a -> key a = id.
Proof.
  intros H. apply find_some in H. destruct H as [_ H].
  now apply String.eqb_eq.
Qed.

(** The donation stored under [id'] after [PATCH /:id/status], in terms of
    the one stored before. *)
Lemma findDonation_update_status (now : Date) (s : Store)
  (userId id id' : ObjectId) (st : Status) (pt dt : option Date) :
  let s' := fst (update_status now s userId id st pt dt) in
  findDonation s' id' = findDonation s id'
  \/ (is_success (snd (update_status now s userId id st pt dt)) = true
      /\ findDonation s' id'
         = option_map (fun d => if donation_id d =? id
                                then set_updatedAt now
                                       (applyStatusUpdate st pt dt d)
                                else d)
                      (findDonation s id')).
Proof.
  unfold update_status.
  destruct (authenticate s userId); [|now left].
  destruct (findDonation s id) as [donation|]; [|now left].
  destruct (canUpdate donation userId); [|now left].
  right. simpl. split; [reflexivity|].
  destruct (Status_eqb st delivered).
  - rewrite findDonation_syncDriverAfterDelivery.
    apply findDonation_saveDonation. intros d. apply applyStatusUpdate_id.
  - apply findDonation_saveDonation. intros d. apply applyStatusUpdate_id.
Qed.

(** ** DonationLifecycle: the generic status update *)

(** C10. Whatever status is requested, [PATCH /:id/status] leaves every
    stored donation with the same id, donor, receiver, driver, food items,
    pickup address, preferred pickup time, delivery proof, notes and creation
    time: only [status], [actualPickupTime], [actualDeliveryTime] and
    [updatedAt] may differ. *)
Theorem update_status_frame (now : Date) (s : Store) (userId id : ObjectId)
  (st : Status) (pt dt : option Date) (id' : ObjectId) (d : Donation) :
  findDonation s id' = Some d ->
  exists d',
    findDonation (fst (update_status now s userId id st pt dt)) id' = Some d'
    /\ same_frame d d'.
Proof.
  intros Hd.
  destruct (findDonation_update_status now s userId id id' st pt dt)
    as [H|[_ H]]; cbv zeta in H; rewrite H, Hd.
  - exists d. split; [reflexivity|apply same_frame_refl].
  - simpl. destruct (donation_id d =? id).
    + eexists. split; [reflexivity|apply applyStatusUpdate_frame].
    + exists d. split; [reflexivity|apply same_frame_refl].
Qed.

Lemma update_status_frame_witness :
  exists d',
    findDonation
      (fst (update_status 5%Z store_assigned "donor1" "don1" delivered
                          (Some 4%Z) (Some 5%Z))) "don1" = Some d'
    /\ same_frame
         (example_donation "don1" (Some "recv1") (Some "drv1") kg90 assigned)
         d'.
Proof.
  apply (update_status_frame 5%Z store_assigned "donor1" "don1" delivered
           (Some 4%Z) (Some 5%Z) "don1").
  reflexivity.
Defined.

(** The claim C1 fails: the donor of a donation that is [available] asks for
    [picked_up], which is no row of the transition table; the request
    succeeds and the stored status becomes [picked_up]. *)
Lemma update_status_available_to_picked_up :
  transition_table available picked_up = false
  /\ option_map status (findDonation store_available "don1") = Some available
  /\ is_success
       (snd (update_status 5%Z store_available "donor1" "don1" picked_up
                           None None)) = true
  /\ option_map status
       (findDonation
          (fst (update_status 5%Z store_available "donor1" "don1" picked_up
                              None None)) "don1") = Some picked_up.
Proof. repeat split; reflexivity. Qed.

(** C1, amended. [PATCH /:id/status] checks the caller and not the
    transition: for an authenticated caller and a stored donation, and for
    every current and every requested status, the update succeeds and stores
    the requested status when the caller is the donation's donor, receiver or
    driver, and fails [Forbidden] and writes nothing otherwise; it never fails
    [InvalidTransition]. *)
Theorem update_status_checks_actor_only (now : Date) (s : Store)
  (userId id : ObjectId) (st : Status) (pt dt : option Date)
  (user : User) (d : Donation) :
  authenticate s userId = Some user ->
  findDonation s id = Some d ->
  let r := update_status now s userId id st pt dt in
  (canUpdate d userId = true ->
     is_success (snd r) = true
     /\ option_map status (findDonation (fst r) id) = Some st)
  /\ (canUpdate d userId = false -> r = (s, inl Forbidden))
  /\ snd r <> inl InvalidTransition.
Proof.
  intros Hu Hd. cbv zeta. unfold update_status. rewrite Hu, Hd.
  destruct (canUpdate d userId); simpl.
  - split; [|split; [discriminate|discriminate]].
    intros _. split; [reflexivity|].
    assert (Hs : findDonation
                   (saveDonation now id (applyStatusUpdate st pt dt) s) id
                 = Some (set_updatedAt now (applyStatusUpdate st pt dt d))).
    { rewrite findDonation_saveDonation by (intros; apply applyStatusUpdate_id).
      rewrite Hd. simpl.
      rewrite (find_key_eq donation_id id _ d Hd), String.eqb_refl.
      reflexivity. }
    destruct (Status_eqb st delivered).
    + rewrite findDonation_syncDriverAfterDelivery, Hs. simpl.
      now rewrite applyStatusUpdate_status.
    + rewrite Hs. simpl. now rewrite applyStatusUpdate_status.
  - split; [discriminate|]. split; [reflexivity|discriminate].
Qed.

Lemma update_status_checks_actor_only_witness :
  is_success
    (snd (update_status 5%Z store_available "donor1" "don1" delivered
                        None None)) = true
  /\ option_map status
       (findDonation
          (fst (update_status 5%Z store_available "donor1" "don1" delivered
                              None None)) "don1") = Some delivered.
Proof.
  exact (proj1 (update_status_checks_actor_only 5%Z store_available "donor1"
                  "don1" delivered None None
                  (example_user "donor1" Donor 10 20 100 DsAvailable medium)
                  (example_donation "don1" None None kg90 available)
                  eq_refl eq_refl) eq_refl).
Defined.

(** ** DriverStatusSynchronizer *)

Lemma users_update_status_not_delivered (now : Date) (s : Store)
  (userId id : ObjectId) (st : Status) (pt dt : option Date) :
  Status_eqb st delivered = false ->
  users (fst (update_status now s userId id st pt dt)) = users s.
Proof.
  intros Hst. unfold update_status.
  destruct (authenticate s userId); [|reflexivity].
  destruct (findDonation s id); [|reflexivity].
  destruct (canUpdate d userId); [|reflexivity].
  simpl. now rewrite Hst.
Qed.

(** C3, the code against the claim.  A cancellation through
    [PATCH /:id/status] writes no user at all, so the driver's flag is not
    recomputed: after the donor cancels the only active donation of driver
    [drv1], the donation is [cancelled], the driver has no assigned or
    picked-up donation left, and the flag is still [busy]. *)
Theorem cancellation_leaves_driver_busy :
  (forall now s userId id pt dt,
      users (fst (update_status now s userId id cancelled pt dt)) = users s)
  /\ (let s' := fst (update_status 5%Z store_assigned "donor1" "don1" cancelled
                                   None None) in
      option_map status (findDonation store_assigned "don1") = Some assigned
      /\ option_map driver (findDonation store_assigned "don1")
         = Some (Some "drv1")
      /\ occupancy store_assigned "drv1" = Some DsBusy
      /\ option_map status (findDonation s' "don1") = Some cancelled
      /\ countActive s' "drv1" = 0%nat
      /\ occupancy s' "drv1" = Some DsBusy).
Proof.
  split.
  - intros. now apply users_update_status_not_delivered.
  - cbv zeta. repeat split; reflexivity.
Qed.

(** ** Writers of the occupancy flag *)

Lemma occupancy_users (s s' : Store) (id : ObjectId) :
  users s' = users s -> occupancy s' id = occupancy s id.
Proof. unfold occupancy, findUser. now intros ->. Qed.

Lemma occupancy_saveUser_other (s : Store) (id id' : ObjectId)
  (f : User -> User) :
  (forall u, user_id (f u) = user_id u) ->
  (forall u, driverStatus (f u) = driverStatus u) ->
  occupancy (saveUser id f s) id' = occupancy s id'.
Proof.
  intros Hid Hds. unfold occupancy. rewrite findUser_saveUser by exact Hid.
  destruct (findUser s id') as [u|]; [|reflexivity].
  simpl. destruct (user_id u =? id); [now rewrite Hds|reflexivity].
Qed.

Lemma occupancy_insertUser (s : Store) (u : User) (id : ObjectId)
  (st : DriverStatus) :
  occupancy s id = Some st -> occupancy (insertUser u s) id = Some st.
Proof.
  unfold occupancy, findUser, insertUser. simpl.
  generalize (users s). intros l. induction l as [|a l IH]; simpl.
  - discriminate.
  - destruct (user_id a =? id); [trivial|exact IH].
Qed.

Lemma applyProfileUpdate_id (b : ProfileUpdate) (u : User) :
  user_id (applyProfileUpdate b u) = user_id u.
Proof.
  unfold applyProfileUpdate. destruct (pu_coordinates b) as [[la ln]|];
    reflexivity.
Qed.

Lemma applyProfileUpdate_driverStatus (b : ProfileUpdate) (u : User) :
  driverStatus (applyProfileUpdate b u) = driverStatus u.
Proof.
  unfold applyProfileUpdate. destruct (pu_coordinates b) as [[la ln]|];
    reflexivity.
Qed.

Lemma occupancy_register (s : Store) (b : Registration) (id : ObjectId)
  (st : DriverStatus) :
  occupancy s id = Some st -> occupancy (fst (register s b)) id = Some st.
Proof.
  intros H. unfold register.
  destruct (existsb _ (users s)); [exact H|].
  destruct (UserType_eqb (reg_userType b) Admin && negb (reg_adminCodeValid b));
    [exact H|].
  simpl. now apply occupancy_insertUser.
Qed.

Lemma occupancy_users_patch (s : Store) (userId id : ObjectId)
  (b : ProfileUpdate) (id' : ObjectId) :
  occupancy (fst (users_patch s userId id b)) id' = occupancy s id'.
Proof.
  unfold users_patch.
  destruct (authenticate s userId) as [user|]; [|reflexivity].
  destruct (authorizeOwnerOrRole [] user userId id); [|reflexivity].
  destruct (findUser s id); [|reflexivity].
  simpl. apply occupancy_saveUser_other.
  - apply applyProfileUpdate_id.
  - apply applyProfileUpdate_driverStatus.
Qed.

Lemma users_create_donation (now : Date) (s : Store) (userId newId : ObjectId)
  (items : list FoodItem) (address : PickupAddress) (preferred : Date)
  (note : string) :
  users (fst (create_donation now s userId newId items address preferred note))
  = users s.
Proof.
  unfold create_donation.
  destruct (authenticate s userId) as [user|]; [|reflexivity].
  destruct (authorize [Donor] user); [|reflexivity].
  destruct items; [reflexivity|]. cbn [negb].
  destruct (forallb validFoodItem _); reflexivity.
Qed.

Lemma users_reserve (now : Date) (s : Store) (userId id : ObjectId) :
  users (fst (reserve now s userId id)) = users s.
Proof.
  unfold reserve.
  destruct (authenticate s userId) as [user|]; [|reflexivity].
  destruct (authorize [Receiver] user); [|reflexivity].
  destruct (findDonation s id) as [d|]; [|reflexivity].
  destruct (Status_eqb (status d) available); reflexivity.
Qed.

(** The claim C7 fails: a driver with an assigned donation sets their own
    flag to [available] through [PATCH /api/drivers/:id/status], which is
    neither a commit of the matching engine nor the synchronisation after a
    delivery. *)
Lemma driver_patch_status_writes_occupancy :
  commit_or_synchronizer
    (ReqDriverPatchStatus "drv1" "drv1" (Some DsAvailable)) = false
  /\ occupancy store_assigned "drv1" = Some DsBusy
  /\ countActive store_assigned "drv1" = 1%nat
  /\ occupancy
       (step flat_distance 5%Z
             (ReqDriverPatchStatus "drv1" "drv1" (Some DsAvailable))
             store_assigned) "drv1" = Some DsAvailable.
Proof. repeat split; reflexivity. Qed.

(** C7, amended. The occupancy flag of a stored user changes only through
    the commit paths of the matching engine (automatic and caller-specified),
    the synchronisation after a delivery ([PATCH /:id/status] to [delivered]
    and [PATCH /:id/delivery-proof]) and the two routes that assign it from
    the request body, [PATCH /api/drivers/:id/status] and
    [PATCH /api/admin/users/:id]; every other request leaves it as it is. *)
Theorem occupancy_writers (calculateDistance : Q -> Q -> Q -> Q -> Q)
  (now : Date) (r : Request) (s : Store) (id : ObjectId) (st : DriverStatus) :
  occupancy s id = Some st ->
  occupancy (step calculateDistance now r s) id <> Some st ->
  commit_or_synchronizer r = true \/ direct_writer r = true.
Proof.
  intros Hbefore Hafter.
  destruct r; simpl in *; try (now left); try (now right).
  - exfalso. apply Hafter. now apply occupancy_register.
  - exfalso. apply Hafter. now rewrite occupancy_users_patch.
  - exfalso. apply Hafter. rewrite <- Hbefore.
    apply occupancy_users, users_create_donation.
  - exfalso. apply Hafter. rewrite <- Hbefore.
    apply occupancy_users, users_reserve.
  - destruct (Status_eqb st0 delivered) eqn:E.
    + left. now destruct st0.
    + exfalso. apply Hafter. rewrite <- Hbefore.
      apply occupancy_users, users_update_status_not_delivered, E.
Qed.

Lemma occupancy_writers_witness :
  commit_or_synchronizer
    (ReqAdminPatchUser "admin1" "drv1"
       (mkAdminUpdate None None None (Some DsAvailable))) = true
  \/ direct_writer
       (ReqAdminPatchUser "admin1" "drv1"
          (mkAdminUpdate None None None (Some DsAvailable))) = true.
Proof.
  apply (occupancy_writers flat_distance 5%Z
           (ReqAdminPatchUser "admin1" "drv1"
              (mkAdminUpdate None None None (Some DsAvailable)))
           (insertUser (example_user "admin1" Admin 10 20 100 DsAvailable medium)
                       store_assigned)
           "drv1" DsBusy).
  - reflexivity.
  - discriminate.
Defined.

(** ** Decoding the boolean tests *)

Lemma Status_eqb_eq (a b : Status) : Status_eqb a b = true <-> a = b.
Proof. destruct a, b; simpl; split; congruence. Qed.

Lemma UserType_eqb_eq (a b : UserType) : UserType_eqb a b = true <-> a = b.
Proof. destruct a, b; simpl; split; congruence. Qed.

Lemma DriverStatus_eqb_eq (a b : DriverStatus) :
  DriverStatus_eqb a b = true <-> a = b.
Proof. destruct a, b; simpl; split; congruence. Qed.

Lemma Qltb_false (a b : Q) : Qltb a b = false <-> b <= a.
Proof.
  unfold Qltb. rewrite negb_false_iff. apply Qle_bool_iff.
Qed.

(** ** MatchingEngine: what the two loops keep *)

Section MatchingFacts.
Variable calculateDistance : Q -> Q -> Q -> Q -> Q.

Lemma findAvailableDrivers_In (s : Store) (u : User) :
  In u (findAvailableDrivers s) ->
  In u (users s) /\ userType u = Driver /\ driverStatus u = DsAvailable
  /\ isActive u = true
  /\ is_number (coordinates_lat u) = true
  /\ is_number (coordinates_lng u) = true.
Proof.
  unfold findAvailableDrivers. rewrite filter_In.
  intros [Hin H]. repeat rewrite andb_true_iff in H.
  destruct H as [[[[Ht Hs] Ha] Hla] Hln].
  apply UserType_eqb_eq in Ht. apply DriverStatus_eqb_eq in Hs. tauto.
Qed.

Lemma findAssignableDrivers_In (s : Store) (u : User) :
  In u (findAssignableDrivers s) ->
  In u (users s) /\ userType u = Driver /\ driverStatus u = DsAvailable
  /\ isActive u = true
  /\ path_exists (coordinates_lat u) = true
  /\ path_exists (coordinates_lng u) = true.
Proof.
  unfold findAssignableDrivers. rewrite filter_In.
  intros [Hin H]. repeat rewrite andb_true_iff in H.
  destruct H as [[[[Ht Hs] Ha] Hla] Hln].
  apply UserType_eqb_eq in Ht. apply DriverStatus_eqb_eq in Hs. tauto.
Qed.

(** The pool of the advisory route is part of the pool of [assignDriver]. *)
Lemma findAvailableDrivers_assignable (s : Store) (u : User) :
  In u (findAvailableDrivers s) -> In u (findAssignableDrivers s).
Proof.
  unfold findAvailableDrivers, findAssignableDrivers. rewrite !filter_In.
  intros [Hin H]. split; [exact Hin|].
  repeat rewrite andb_true_iff in H. destruct H as [[[[-> ->] ->] Hla] Hln].
  destruct (coordinates_lat u), (coordinates_lng u); try discriminate;
    reflexivity.
Qed.

Lemma advisoryEntry_Some (s : Store) (p : Coordinates) (fq : Q) (drv : User)
  (e : EligibleDriver) :
  advisoryEntry calculateDistance s p fq drv = Some e ->
  isDriverAvailable s (user_id drv) = true
  /\ fq <= getVehicleCapacityKg (Some (vehicleCapacity_or_medium drv))
  /\ exists dlat dlng,
       coordinates_lat drv = Num dlat /\ coordinates_lng drv = Num dlng
       /\ ~ dlat == 0 /\ ~ dlng == 0
       /\ e = mkEligibleDriver (user_id drv)
                (toFixed 2 (calculateDistance dlat dlng (lat p) (lng p)))
                (getVehicleCapacityKg (Some (vehicleCapacity_or_medium drv)))
                (toFixed 1
                   (fq / getVehicleCapacityKg
                           (Some (vehicleCapacity_or_medium drv)) * 100))
                (vehicleCapacity_or_medium drv)
                (reputationScore drv)
                (toFixed 2
                   (advisoryTotalScore
                      (calculateDistance dlat dlng (lat p) (lng p))
                      (reputationScore drv) fq
                      (getVehicleCapacityKg
                         (Some (vehicleCapacity_or_medium drv))))).
Proof.
  unfold advisoryEntry.
  destruct (isDriverAvailable s (user_id drv)); [|discriminate]. simpl.
  destruct (Qltb _ fq) eqn:Hcap; [discriminate|].
  apply Qltb_false in Hcap.
  destruct (coordinates_lat drv) as [| |dlat]; try discriminate.
  destruct (coordinates_lng drv) as [| |dlng]; try discriminate.
  destruct (Qeq_bool dlat 0) eqn:Hla; [discriminate|].
  destruct (Qeq_bool dlng 0) eqn:Hln; [discriminate|]. cbn [orb].
  intros [= <-]. split; [reflexivity|]. split; [exact Hcap|].
  exists dlat, dlng.
  repeat split; try (intros H0; apply Qeq_bool_iff in H0; congruence).
Qed.

Lemma commitEntry_Some (s : Store) (p : Coordinates) (fq : Q) (drv : User)
  (c : Candidate) :
  commitEntry calculateDistance s p fq drv = Some c ->
  isDriverAvailable s (user_id drv) = true
  /\ fq <= getVehicleCapacityKg (Some (vehicleCapacity_or_medium drv))
  /\ c = mkCandidate drv
           (calculateDistance (number_of (coordinates_lat drv))
                              (number_of (coordinates_lng drv))
                              (lat p) (lng p))
           (getVehicleCapacityKg (Some (vehicleCapacity_or_medium drv)))
           (fq / getVehicleCapacityKg (Some (vehicleCapacity_or_medium drv)))
           (reputationScore drv)
           (commitTotalScore
              (calculateDistance (number_of (coordinates_lat drv))
                                 (number_of (coordinates_lng drv))
                                 (lat p) (lng p))
              (reputationScore drv) fq
              (getVehicleCapacityKg (Some (vehicleCapacity_or_medium drv)))).
Proof.
  unfold commitEntry.
  destruct (isDriverAvailable s (user_id drv)); [|discriminate]. simpl.
  destruct (Qltb _ fq) eqn:Hcap; [discriminate|].
  apply Qltb_false in Hcap.
  destruct (path_exists (coordinates_lat drv)
            && path_exists (coordinates_lng drv)); [|discriminate].
  cbn [negb]. intros [= <-]. split; [reflexivity|]. split; [exact Hcap|].
  reflexivity.
Qed.

(** A successful advisory request returns the sorted list of the entries
    the loop kept, for the stored donation and its pickup coordinates. *)
Lemma available_drivers_inr (s : Store) (userId id : ObjectId)
  (ranked : list EligibleDriver) :
  available_drivers calculateDistance s userId id = inr ranked ->
  exists donation p,
    findDonation s id = Some donation
    /\ coordinates (pickupAddress donation) = Some p
    /\ ranked
       = sort_by_score ed_score
           (filter_map
              (advisoryEntry calculateDistance s p
                 (calculateFoodQuantity (foodItems donation)))
              (findAvailableDrivers s)).
Proof.
  unfold available_drivers.
  destruct (authenticate s userId) as [user|]; [|discriminate].
  destruct (authorize [Receiver; Donor] user); [|discriminate]. simpl.
  destruct (findDonation s id) as [donation|] eqn:Hd; [|discriminate].
  destruct (coordinates (pickupAddress donation)) as [p|] eqn:Hp;
    [|discriminate].
  intros [= <-]. exists donation, p. repeat split; auto.
Qed.

Lemma assignDriver_select_inr (s : Store) (id : ObjectId)
  (cands : list Candidate) :
  assignDriver_select calculateDistance s id = inr cands ->
  exists donation p,
    findDonation s id = Some donation
    /\ coordinates (pickupAddress donation) = Some p
    /\ cands
       = sort_by_score c_score
           (filter_map
              (commitEntry calculateDistance s p
                 (calculateFoodQuantity (foodItems donation)))
              (findAssignableDrivers s))
    /\ cands <> [].
Proof.
  unfold assignDriver_select.
  destruct (findDonation s id) as [donation|] eqn:Hd; [|discriminate].
  destruct (coordinates (pickupAddress donation)) as [p|] eqn:Hp;
    [|discriminate].
  destruct (receiverHasCoordinates s donation); [|discriminate]. simpl.
  destruct (findAssignableDrivers s) as [|u pool] eqn:Hpool; [discriminate|].
  destruct (filter_map _ (u :: pool)) as [|c l] eqn:Hel; [discriminate|].
  intros [= <-]. exists donation, p.
  split; [reflexivity|]. split; [exact Hp|].
  split; [now rewrite Hel|].
  intros Hnil.
  apply (proj1 (sort_by_score_nil_iff c_score (c :: l))) in Hnil.
  discriminate.
Qed.

Lemma assignDriver_select_not_Conflict (s : Store) (id : ObjectId) :
  assignDriver_select calculateDistance s id <> inl Conflict.
Proof.
  unfold assignDriver_select.
  destruct (findDonation s id) as [donation|]; [|discriminate].
  destruct (coordinates (pickupAddress donation)) as [p|]; [|discriminate].
  destruct (receiverHasCoordinates s donation); [|discriminate]. simpl.
  destruct (findAssignableDrivers s) as [|u pool]; [discriminate|].
  destruct (filter_map _ (u :: pool)); discriminate.
Qed.

(** What a successful [assignDriver] did: it took the head of the sorted
    candidates and ran the write phase for it. *)
Lemma assignDriver_success (now : Date) (s : Store) (id : ObjectId) :
  is_success (snd (assignDriver calculateDistance now s id)) = true ->
  exists best rest,
    assignDriver_select calculateDistance s id = inr (best :: rest)
    /\ fst (assignDriver calculateDistance now s id)
       = assignDriver_write now s id (user_id (c_driver best))
    /\ option_map assignedDriver
         (match snd (assignDriver calculateDistance now s id) with
          | inr a => Some a | inl _ => None end)
       = Some (user_id (c_driver best)).
Proof.
  unfold assignDriver.
  destruct (assignDriver_select calculateDistance s id) as [e|[|best rest]];
    simpl; try discriminate.
  intros _. exists best, rest. repeat split; reflexivity.
Qed.
End MatchingFacts.

(** ** The commit paths *)

Lemma isDriverAvailable_countActive (s : Store) (id : ObjectId) :
  isDriverAvailable s id = true -> countActive s id = 0%nat.
Proof.
  unfold isDriverAvailable.
  destruct (findUser s id) as [drv|]; [|discriminate].
  destruct (negb (UserType_eqb (userType drv) Driver)); [discriminate|].
  destruct (negb (DriverStatus_eqb (driverStatus drv) DsAvailable));
    [discriminate|].
  apply Nat.eqb_eq.
Qed.

Lemma assign_driver_validate_cases (s : Store) (userId id drv : ObjectId)
  (user : User) (d : Donation) :
  authenticate s userId = Some user ->
  authorize [Receiver; Donor] user = true ->
  findDonation s id = Some d ->
  assign_driver_validate s userId id drv
  = if negb (Status_eqb (status d) reserved) then inl InvalidState
    else match findUser s drv with
         | None => inl NotFound
         | Some u =>
             if negb (UserType_eqb (userType u) Driver) then inl NotFound
             else if negb (DriverStatus_eqb (driverStatus u) DsAvailable)
                  then inl DriverUnavailable
                  else inr (d, u)
         end.
Proof.
  intros Hu Ha Hd. unfold assign_driver_validate. now rewrite Hu, Ha, Hd.
Qed.

Lemma assign_driver_validate_not_Conflict (s : Store)
  (userId id drv : ObjectId) :
  assign_driver_validate s userId id drv <> inl Conflict.
Proof.
  unfold assign_driver_validate.
  destruct (authenticate s userId) as [user|]; [|discriminate].
  destruct (authorize [Receiver; Donor] user); [|discriminate]. simpl.
  destruct (findDonation s id) as [d0|]; [|discriminate].
  destruct (Status_eqb (status d0) reserved); [|discriminate]. simpl.
  destruct (findUser s drv) as [u0|]; [|discriminate].
  destruct (UserType_eqb (userType u0) Driver); [|discriminate]. simpl.
  destruct (DriverStatus_eqb (driverStatus u0) DsAvailable); discriminate.
Qed.

Lemma all_busy_after_write (now : Date) (s : Store) (id drv : ObjectId) :
  all_busy (assign_driver_write now s id drv) drv.
Proof.
  intros u Hin Hid. unfold assign_driver_write, saveUser in Hin. simpl in Hin.
  apply in_map_iff in Hin. destruct Hin as (u0 & Hu0 & _).
  destruct (user_id u0 =? drv) eqn:E.
  - now subst u.
  - subst u. apply String.eqb_neq in E. contradiction.
Qed.

Lemma all_busy_findUser (s : Store) (drv : ObjectId) (u : User) :
  all_busy s drv -> findUser s drv = Some u -> driverStatus u = DsBusy.
Proof.
  intros Hb Hf. unfold findUser in Hf.
  pose proof (find_key_eq user_id drv _ u Hf) as Hid.
  apply find_some in Hf. now apply Hb.
Qed.

Lemma all_busy_assign_driver_fails (now : Date) (s : Store)
  (userId id drv : ObjectId) :
  all_busy s drv ->
  exists e, assign_driver now s userId id drv = (s, inl e)
            /\ (forall user d,
                   authenticate s userId = Some user ->
                   authorize [Receiver; Donor] user = true ->
                   findDonation s id = Some d ->
                   status d = reserved ->
                   e = DriverUnavailable \/ e = NotFound).
Proof.
  intros Hb. unfold assign_driver, assign_driver_validate.
  destruct (authenticate s userId) as [user|] eqn:Hu;
    [|eexists; split; [reflexivity|intros; congruence]].
  destruct (authorize [Receiver; Donor] user) eqn:Ha; cbn [negb];
    [|eexists; split; [reflexivity|intros; congruence]].
  destruct (findDonation s id) as [d0|] eqn:Hd;
    [|eexists; split; [reflexivity|intros; congruence]].
  destruct (Status_eqb (status d0) reserved) eqn:Hst; simpl.
  - destruct (findUser s drv) as [u0|] eqn:Hf;
      [|eexists; split; [reflexivity|intros; now right]].
    destruct (UserType_eqb (userType u0) Driver); simpl;
      [|eexists; split; [reflexivity|intros; now right]].
    rewrite (all_busy_findUser s drv u0 Hb Hf). simpl.
    eexists; split; [reflexivity|intros; now left].
  - eexists; split; [reflexivity|].
    intros user0 d _ _ [= <-] Hres.
    apply Status_eqb_eq in Hres. congruence.
Qed.

Lemma all_busy_not_selected (calculateDistance : Q -> Q -> Q -> Q -> Q)
  (s : Store) (id drv : ObjectId) (cands : list Candidate) (c : Candidate) :
  all_busy s drv ->
  assignDriver_select calculateDistance s id = inr cands ->
  In c cands -> user_id (c_driver c) <> drv.
Proof.
  intros Hb Hsel Hin Hid.
  apply assignDriver_select_inr in Hsel.
  destruct Hsel as (donation & p & _ & _ & -> & _).
  apply sort_by_score_In in Hin. apply in_filter_map in Hin.
  destruct Hin as (u & Hu & Hc).
  apply commitEntry_Some in Hc.
  destruct Hc as (_ & _ & ->). simpl in Hid.
  apply findAssignableDrivers_In in Hu.
  destruct Hu as (Hin & _ & Hav & _).
  rewrite (Hb u Hin Hid) in Hav. discriminate.
Qed.

(** The claim C2 fails.  Two requests assign the sole available driver to
    two reserved donations and both read before either writes.  When the
    second request writes, the driver's flag is already [busy]; it writes all
    the same.  Both requests succeed, on the caller-specified path and, for
    every distance function, on the automatic path, and the driver ends with
    two assigned donations. *)
Lemma concurrent_assign_both_succeed :
  (let r := assign_driver_interleaved 5%Z store_two_reserved
              "recv1" "don1" "drv1" "recv1" "don2" "drv1" in
   snd r = (true, true)
   /\ occupancy (assign_driver_write 5%Z store_two_reserved "don1" "drv1")
                "drv1" = Some DsBusy
   /\ option_map driver (findDonation (fst r) "don1") = Some (Some "drv1")
   /\ option_map driver (findDonation (fst r) "don2") = Some (Some "drv1")
   /\ option_map status (findDonation (fst r) "don2") = Some assigned
   /\ countActive (fst r) "drv1" = 2%nat)
  /\ (forall calculateDistance,
        let r := assignDriver_interleaved calculateDistance 5%Z
                   store_two_reserved "don1" "don2" in
        snd r = (Some "drv1", Some "drv1")
        /\ countActive (fst r) "drv1" = 2%nat).
Proof.
  split.
  - cbv zeta. repeat split; reflexivity.
  - intros calculateDistance. cbv zeta. split; reflexivity.
Qed.

Lemma assign_driver_write_effect (now : Date) (s : Store) (id drv : ObjectId)
  (d : Donation) (u : User) :
  findDonation s id = Some d ->
  findUser s drv = Some u ->
  option_map status (findDonation (assign_driver_write now s id drv) id)
  = Some assigned
  /\ option_map driver (findDonation (assign_driver_write now s id drv) id)
     = Some (Some drv)
  /\ occupancy (assign_driver_write now s id drv) drv = Some DsBusy.
Proof.
  intros Hd Hu. unfold assign_driver_write, occupancy.
  rewrite findDonation_saveUser, findDonation_saveDonation by reflexivity.
  rewrite findUser_saveUser, findUser_saveDonation by reflexivity.
  rewrite Hd, Hu. simpl.
  rewrite (find_key_eq donation_id id _ d Hd), String.eqb_refl.
  rewrite (find_key_eq user_id drv _ u Hu), String.eqb_refl.
  repeat split.
Qed.

(** The automatic commit does not look at the donation's status: a donation
    that is already [delivered] is assigned again, here to the first of two
    equally placed drivers, and stored as [assigned]. *)
Lemma assignDriver_reassigns_delivered :
  option_map status (findDonation store_delivered "don1") = Some delivered
  /\ (forall calculateDistance,
        is_success (snd (assignDriver calculateDistance 5%Z store_delivered
                                      "don1")) = true
        /\ option_map status
             (findDonation
                (fst (assignDriver calculateDistance 5%Z store_delivered
                                   "don1")) "don1")
           = Some assigned).
Proof.
  split; [reflexivity|]. intros calculateDistance.
  unfold assignDriver, assignDriver_select.
  cbn -[commitTotalScore Qdiv sort_by_score].
  unfold sort_by_score. cbn [fold_right insert_by_score c_score].
  destruct (Qle_bool _ _); split; reflexivity.
Qed.

(** C2, amended. A commit-assign never fails [Conflict], and a failed call
    writes nothing.  What a path checks it checks when it reads, not when it
    writes.  The caller-specified path fails [InvalidState] when the donation
    it read is not [reserved] and [DriverUnavailable] when the flag of the
    driver it read is not [available].  The automatic path takes only a
    driver whose flag it read as [available] and for whom it counted no
    assigned or picked-up donation.  The write phase is unconditional on both
    paths: whatever the stored status and flag are by then, it stores
    [assigned] with the driver and sets the flag to [busy]; so of two calls
    whose read phases both succeed before either writes, both write.  Served
    one after the other, a later caller-specified commit for a driver that a
    commit has just taken fails and writes nothing, and a later automatic
    commit does not select that driver. *)
Theorem commit_assign_checks_at_read_time :
  (forall now s userId id drv,
      snd (assign_driver now s userId id drv) <> inl Conflict
      /\ (is_success (snd (assign_driver now s userId id drv)) = false ->
          fst (assign_driver now s userId id drv) = s)
      /\ (is_success (snd (assign_driver now s userId id drv)) = true ->
          fst (assign_driver now s userId id drv)
          = assign_driver_write now s id drv))
  /\ (forall calculateDistance now s id,
        snd (assignDriver calculateDistance now s id) <> inl Conflict
        /\ (is_success (snd (assignDriver calculateDistance now s id)) = false ->
            fst (assignDriver calculateDistance now s id) = s)
        /\ (forall a,
              snd (assignDriver calculateDistance now s id) = inr a ->
              fst (assignDriver calculateDistance now s id)
              = assign_driver_write now s id (assignedDriver a)))
  /\ (forall now s userId id drv user d,
        authenticate s userId = Some user ->
        authorize [Receiver; Donor] user = true ->
        findDonation s id = Some d ->
        (status d <> reserved ->
         assign_driver now s userId id drv = (s, inl InvalidState))
        /\ (forall u,
              status d = reserved -> findUser s drv = Some u ->
              userType u = Driver -> driverStatus u <> DsAvailable ->
              assign_driver now s userId id drv = (s, inl DriverUnavailable)))
  /\ (forall now s id drv d u,
        findDonation s id = Some d -> findUser s drv = Some u ->
        option_map status (findDonation (assign_driver_write now s id drv) id)
        = Some assigned
        /\ option_map driver (findDonation (assign_driver_write now s id drv) id)
           = Some (Some drv)
        /\ occupancy (assign_driver_write now s id drv) drv = Some DsBusy)
  /\ (forall now s id drv,
        (forall now2 userId2 id2,
            is_success
              (snd (assign_driver now2 (assign_driver_write now s id drv)
                                  userId2 id2 drv)) = false
            /\ fst (assign_driver now2 (assign_driver_write now s id drv)
                                  userId2 id2 drv)
               = assign_driver_write now s id drv)
        /\ (forall calculateDistance now2 id2 a,
              snd (assignDriver calculateDistance now2
                                (assign_driver_write now s id drv) id2) = inr a ->
              assignedDriver a <> drv))
  /\ (forall calculateDistance now s id a,
        snd (assignDriver calculateDistance now s id) = inr a ->
        exists u,
          In u (users s) /\ user_id u = assignedDriver a
          /\ userType u = Driver
          /\ driverStatus u = DsAvailable
          /\ countActive s (assignedDriver a) = 0%nat)
  /\ (forall now s userId1 id1 drv1 userId2 id2 drv2,
        is_success (assign_driver_validate s userId1 id1 drv1) = true ->
        is_success (assign_driver_validate s userId2 id2 drv2) = true ->
        assign_driver_interleaved now s userId1 id1 drv1 userId2 id2 drv2
        = (assign_driver_write now (assign_driver_write now s id1 drv1)
                               id2 drv2, (true, true)))
  /\ (forall calculateDistance now s id1 id2 best1 rest1 best2 rest2,
        assignDriver_select calculateDistance s id1 = inr (best1 :: rest1) ->
        assignDriver_select calculateDistance s id2 = inr (best2 :: rest2) ->
        assignDriver_interleaved calculateDistance now s id1 id2
        = (assign_driver_write now
             (assign_driver_write now s id1 (user_id (c_driver best1)))
             id2 (user_id (c_driver best2)),
           (Some (user_id (c_driver best1)),
            Some (user_id (c_driver best2))))).
Proof.
  split; [|split; [|split; [|split; [|split; [|split; [|split]]]]]].
  - intros now s userId id drv. unfold assign_driver.
    pose proof (assign_driver_validate_not_Conflict s userId id drv) as Hnc.
    destruct (assign_driver_validate s userId id drv) as [e|p]; simpl.
    + split; [congruence|]. split; [reflexivity|discriminate].
    + split; [discriminate|]. split; [discriminate|reflexivity].
  - intros calculateDistance now s id. unfold assignDriver.
    pose proof (assignDriver_select_not_Conflict calculateDistance s id) as Hnc.
    destruct (assignDriver_select calculateDistance s id) as [e|[|best rest]];
      simpl.
    + split; [congruence|]. split; [reflexivity|discriminate].
    + split; [discriminate|]. split; [reflexivity|discriminate].
    + split; [discriminate|]. split; [discriminate|].
      intros a [= <-]. reflexivity.
  - intros now s userId id drv user d Hu Ha Hd. unfold assign_driver.
    rewrite (assign_driver_validate_cases s userId id drv user d Hu Ha Hd).
    split.
    + intros Hst. destruct (Status_eqb (status d) reserved) eqn:E;
        [apply Status_eqb_eq in E; contradiction|reflexivity].
    + intros u Hst Hf Ht Hds. rewrite Hst, Hf, Ht. simpl.
      destruct (DriverStatus_eqb (driverStatus u) DsAvailable) eqn:E;
        [apply DriverStatus_eqb_eq in E; contradiction|reflexivity].
  - intros now s id drv d u. apply assign_driver_write_effect.
  - intros now s id drv. split.
    + intros now2 userId2 id2.
      destruct (all_busy_assign_driver_fails now2
                  (assign_driver_write now s id drv) userId2 id2 drv
                  (all_busy_after_write now s id drv)) as (e & -> & _).
      split; reflexivity.
    + intros calculateDistance now2 id2 a Ha.
      assert (Hs : is_success
                     (snd (assignDriver calculateDistance now2
                             (assign_driver_write now s id drv) id2)) = true)
        by now rewrite Ha.
      apply assignDriver_success in Hs.
      destruct Hs as (best & rest & Hsel & _ & Hbest).
      rewrite Ha in Hbest. simpl in Hbest. injection Hbest as ->.
      eapply all_busy_not_selected;
        [apply all_busy_after_write|exact Hsel|now left].
  - intros calculateDistance now s id a Ha.
    assert (Hs : is_success (snd (assignDriver calculateDistance now s id))
                 = true) by now rewrite Ha.
    apply assignDriver_success in Hs.
    destruct Hs as (best & rest & Hsel & _ & Hbest).
    rewrite Ha in Hbest. simpl in Hbest. injection Hbest as ->.
    apply assignDriver_select_inr in Hsel.
    destruct Hsel as (d & p & _ & _ & Heq & _).
    assert (Hin : In best (best :: rest)) by now left.
    rewrite Heq in Hin. apply sort_by_score_In, in_filter_map in Hin.
    destruct Hin as (drv & Hpool & Hc). apply commitEntry_Some in Hc.
    destruct Hc as (Hav & _ & ->). cbn [c_driver].
    apply findAssignableDrivers_In in Hpool.
    destruct Hpool as (Hin & Ht & Hs & _).
    exists drv. repeat (split; [assumption || reflexivity|]).
    now apply isDriverAvailable_countActive.
  - intros now s userId1 id1 drv1 userId2 id2 drv2 H1 H2.
    unfold assign_driver_interleaved. now rewrite H1, H2.
  - intros calculateDistance now s id1 id2 best1 rest1 best2 rest2 H1 H2.
    unfold assignDriver_interleaved. now rewrite H1, H2.
Qed.

Lemma commit_assign_sequential_witness :
  is_success
    (snd (assign_driver 6%Z
            (assign_driver_write 5%Z store_two_reserved "don1" "drv1")
            "recv1" "don2" "drv1")) = false
  /\ fst (assign_driver 6%Z
            (assign_driver_write 5%Z store_two_reserved "don1" "drv1")
            "recv1" "don2" "drv1")
     = assign_driver_write 5%Z store_two_reserved "don1" "drv1".
Proof.
  exact (proj1 (proj1 (proj2 (proj2 (proj2 (proj2
                  commit_assign_checks_at_read_time))))
                  5%Z store_two_reserved "don1" "drv1")
               6%Z "recv1" "don2").
Defined.

(** ** The caller-specified driver *)

(** The claim C6 fails.  With a reserved donation and an authorised caller:
    a user who is no driver is refused as [NotFound], not
    [DriverUnavailable]; a deactivated driver without coordinates, and a
    driver who still has an assigned donation, are not eligible and are
    accepted, since only the role and the flag are looked at. *)
Lemma assign_driver_partial_revalidation :
  snd (assign_driver 5%Z store_unchecked "recv1" "don1" "donor1")
  = inl NotFound
  /\ option_map (isEligible store_unchecked) (findUser store_unchecked "drv1")
     = Some false
  /\ is_success (snd (assign_driver 5%Z store_unchecked "recv1" "don1" "drv1"))
     = true
  /\ option_map (isEligible store_unchecked) (findUser store_unchecked "drv2")
     = Some false
  /\ countActive store_unchecked "drv2" = 1%nat
  /\ is_success (snd (assign_driver 5%Z store_unchecked "recv1" "don1" "drv2"))
     = true.
Proof. repeat split; reflexivity. Qed.

(** C6, amended. When the driver is specified by the caller, for an
    authorised caller and a reserved donation, the driver is validated on
    role and occupancy flag: the call fails [NotFound] when no such user is
    stored or the user's role is not driver, fails [DriverUnavailable] when
    the role is driver and the flag is not [available], and writes nothing
    in either case. *)
Theorem assign_driver_validates_role_and_flag (now : Date) (s : Store)
  (userId id drv : ObjectId) (user : User) (d : Donation) :
  authenticate s userId = Some user ->
  authorize [Receiver; Donor] user = true ->
  findDonation s id = Some d ->
  status d = reserved ->
  (findUser s drv = None ->
   assign_driver now s userId id drv = (s, inl NotFound))
  /\ (forall u, findUser s drv = Some u -> userType u <> Driver ->
                assign_driver now s userId id drv = (s, inl NotFound))
  /\ (forall u, findUser s drv = Some u -> userType u = Driver ->
                driverStatus u <> DsAvailable ->
                assign_driver now s userId id drv = (s, inl DriverUnavailable)).
Proof.
  intros Hu Ha Hd Hst. unfold assign_driver.
  rewrite (assign_driver_validate_cases s userId id drv user d Hu Ha Hd), Hst.
  simpl. split; [|split].
  - now intros ->.
  - intros u -> Ht.
    destruct (UserType_eqb (userType u) Driver) eqn:E;
      [apply UserType_eqb_eq in E; contradiction|reflexivity].
  - intros u -> Ht Hds. rewrite Ht. simpl.
    destruct (DriverStatus_eqb (driverStatus u) DsAvailable) eqn:E;
      [apply DriverStatus_eqb_eq in E; contradiction|reflexivity].
Qed.

Lemma assign_driver_validates_role_and_flag_witness :
  assign_driver 5%Z store_unchecked "recv1" "don1" "drv3"
  = (store_unchecked, inl DriverUnavailable).
Proof.
  refine (proj2 (proj2 (assign_driver_validates_role_and_flag 5%Z
                          store_unchecked "recv1" "don1" "drv3"
                          (example_user "recv1" Receiver 10 20 100
                                        DsAvailable medium)
                          (example_donation "don1" (Some "recv1") None kg90
                                            reserved)
                          eq_refl eq_refl eq_refl eq_refl))
                (example_user "drv3" Driver 10 20 100 DsBusy medium)
                eq_refl eq_refl _).
  discriminate.
Defined.

(** ** Capacity of the ranked drivers *)


Section CapacityFacts.
Variable calculateDistance : Q -> Q -> Q -> Q -> Q.



End CapacityFacts.



(** ** ScoringEngine *)

#[local] Instance toFixed_comp : Proper (eq ==> Qeq ==> Qeq) toFixed.
Proof.
  intros digits ? <- x y Hxy. unfold toFixed.
  rewrite (Qleb_comp _ _ (Qeq_refl _) _ _ (Qabs_wd _ _ Hxy)).
  rewrite (Qleb_comp _ _ (Qeq_refl 0) _ _ Hxy).
  destruct (Qle_bool _ (Qabs y)); [exact Hxy|].
  destruct (Qle_bool 0 y).
  - now rewrite Hxy.
  - now rewrite Hxy.
Qed.

#[local] Instance specScore_comp :
  Proper (Qeq ==> Qeq ==> Qeq ==> Qeq ==> Qeq) specScore.
Proof.
  intros d d' Hd r r' Hr q q' Hq c c' Hc. unfold specScore.
  now rewrite Hd, Hr, Hq, Hc.
Qed.

#[local] Instance advisoryTotalScore_comp :
  Proper (Qeq ==> Qeq ==> Qeq ==> Qeq ==> Qeq) advisoryTotalScore.
Proof.
  intros d d' Hd r r' Hr q q' Hq c c' Hc. unfold advisoryTotalScore.
  cbv zeta. now rewrite Hd, Hr, Hq, Hc.
Qed.

#[local] Instance commitTotalScore_comp :
  Proper (Qeq ==> Qeq ==> Qeq ==> Qeq ==> Qeq) commitTotalScore.
Proof.
  intros d d' Hd r r' Hr q q' Hq c c' Hc. unfold commitTotalScore.
  cbv zeta. now rewrite Hd, Hr, Hq, Hc.
Qed.

Lemma advisoryTotalScore_specScore (d r q c : Q) :
  advisoryTotalScore d r q c == specScore d r q c.
Proof. unfold advisoryTotalScore, specScore, Qdiv. cbv zeta. ring. Qed.

Lemma commitTotalScore_specScore (d r q c : Q) :
  commitTotalScore d r q c == specScore d r q c + 0.1.
Proof. unfold commitTotalScore, specScore, Qdiv. cbv zeta. ring. Qed.

(** *** The score on doubles *)

Lemma Binary64_getVehicleCapacityKg_capacityKg (v : option VehicleCapacity) :
  Binary64.getVehicleCapacityKg
    (Some (match v with Some c => c | None => medium end))
  = Binary64.capacityKg v.
Proof. now destruct v as [[| |]|]. Qed.

Lemma Binary64_advisoryTotalScore_specScore (d r q c : PrimFloat.float) :
  Binary64.advisoryTotalScore d r q c = Binary64.specScore d r q c.
Proof.
  unfold Binary64.advisoryTotalScore, Binary64.specScore. cbv zeta.
  now rewrite (Binary64_mul_comm d), (Binary64_mul_comm (PrimFloat.sub _ r)),
    (Binary64_mul_comm (PrimFloat.div q c)).
Qed.

Lemma Binary64_commitTotalScore_specScore (d r q c : PrimFloat.float) :
  Binary64.commitTotalScore d r q c
  = PrimFloat.add (Binary64.specScore d r q c) 0.1%float.
Proof.
  unfold Binary64.commitTotalScore, Binary64.specScore. cbv zeta.
  now rewrite (Binary64_mul_comm d), (Binary64_mul_comm (PrimFloat.sub _ r)),
    (Binary64_mul_comm (PrimFloat.div q c)).
Qed.

(** The decimal rounding on doubles in some known cases of
    [Number.prototype.toFixed]: 1.005 and 3.005 are doubles below the decimals
    they are written as and go down, 8.345 is a double above and goes up, 2.5
    is a tie and goes up, and a negative number that rounds to zero keeps its
    sign. *)
Lemma Binary64_toFixed_examples :
  (Binary64.toFixed 2 1.005 = 1 /\ Binary64.toFixed 2 3.005 = 3
   /\ Binary64.toFixed 2 8.345 = 8.35 /\ Binary64.toFixed 1 1.45 = 1.4
   /\ Binary64.toFixed 0 2.5 = 3 /\ Binary64.toFixed 2 (-0.001) = -0
   /\ Binary64.toFixed 2 1e21 = 1e21 /\ Binary64.toFixed 2 nan = nan)%float.
Proof. repeat split; vm_compute; reflexivity. Qed.

(** The score of the code is the rounding of a double, which is not always
    the rounding of the rational that the formula stands for: for a donation
    of 3.75 kg and a driver at the pickup point with reputation 90 and a
    medium vehicle the total is the double 3.0049999999999999 and the score
    is 3, where the rational 3.005 rounds to 3.01. *)
Lemma advisoryScore_rounds_the_double :
  (Binary64.advisoryTotalScore 0 90 3.75 150 = 3.0049999999999999
   /\ Binary64.advisoryScore 0 90 [Binary64.mkFoodItem "rice" 3.75 "kg"]
                             (Some medium) = 3)%float
  /\ advisoryTotalScore 0 90 3.75 150 == 3.005
  /\ toFixed 2 (advisoryTotalScore 0 90 3.75 150) == 3.01.
Proof. repeat split; vm_compute; reflexivity. Qed.

(** The claim C4 fails on both paths.  On the automatic commit the score
    carries a constant availability term: for a donation of 90 kg and a
    driver at the pickup point with a medium vehicle and reputation 100 the
    formula gives 0.12 and the candidate's score is 0.22.  On the advisory
    path the score is rounded to two decimals: for a donation of 1 kg the
    formula gives 0.0013333333333333335 and the entry's score is 0. *)
Lemma score_differs_from_formula :
  (Binary64.specScore 0 100 (Binary64.demandKg Binary64.kg90)
                      (Binary64.capacityKg (Some medium)) = 0.12
   /\ Binary64.commitScore 0 100 Binary64.kg90 (Some medium) = 0.22
   /\ Binary64.specScore 0 100
        (Binary64.demandKg [Binary64.mkFoodItem "rice" 1 "kg"])
        (Binary64.capacityKg (Some medium)) = 0.0013333333333333335
   /\ Binary64.advisoryScore 0 100 [Binary64.mkFoodItem "rice" 1 "kg"]
                             (Some medium) = 0)%float.
Proof. repeat split; vm_compute; reflexivity. Qed.

(** C4, amended. With the numbers of the code, IEEE doubles: for every
    driver that a path scores, let [t] be the formula [0.4 * distanceKm +
    0.3 * (100 - reputation) + 0.2 * (demandKg / capacityKg)] evaluated on
    the distance the path computed, the driver's reputation, the running sum
    [demandKg] of the donation's items and the capacity of the driver's
    vehicle class.  On the advisory path the score is [t] printed with two
    decimals and read back; on the automatic commit it is [t + 0.1],
    unrounded.  For a demand of 90 kg, a medium-capacity driver A at 5 km
    with reputation 90 scores 5.12 on the advisory path and 5.22 on the
    commit path, a large-capacity driver B at 20 km with reputation 100
    scores 8.06 and 8.16, and the sort of either path, which puts the lower
    score first, ranks [A, B], in whichever order the two were found. *)
Theorem score_formula_by_path :
  (forall distance reputation items v,
      Binary64.advisoryScore distance reputation items v
      = Binary64.toFixed 2
          (Binary64.specScore distance reputation (Binary64.demandKg items)
                              (Binary64.capacityKg v)))
  /\ (forall distance reputation items v,
        Binary64.commitScore distance reputation items v
        = PrimFloat.add
            (Binary64.specScore distance reputation (Binary64.demandKg items)
                                (Binary64.capacityKg v))
            0.1%float)
  /\ (Binary64.advisoryScore 5 90 Binary64.kg90 (Some medium) = 5.12
      /\ Binary64.advisoryScore 20 100 Binary64.kg90 (Some large) = 8.06
      /\ Binary64.commitScore 5 90 Binary64.kg90 (Some medium) = 5.22
      /\ Binary64.commitScore 20 100 Binary64.kg90 (Some large) = 8.16)%float
  /\ (let advisory :=
        fun '(_, (distance, reputation, v)) =>
          Binary64.advisoryScore distance reputation Binary64.kg90 v in
      let commit :=
        fun '(_, (distance, reputation, v)) =>
          Binary64.commitScore distance reputation Binary64.kg90 v in
      let A := ("A", (5, 90, Some medium))%float in
      let B := ("B", (20, 100, Some large))%float in
      map fst (Binary64.sort_by_score advisory [A; B]) = ["A"; "B"]
      /\ map fst (Binary64.sort_by_score advisory [B; A]) = ["A"; "B"]
      /\ map fst (Binary64.sort_by_score commit [A; B]) = ["A"; "B"]
      /\ map fst (Binary64.sort_by_score commit [B; A]) = ["A"; "B"]).
Proof.
  split; [|split; [|split]].
  - intros distance reputation items v. unfold Binary64.advisoryScore.
    cbv zeta.
    now rewrite Binary64_advisoryTotalScore_specScore,
      Binary64_calculateFoodQuantity_demandKg,
      Binary64_getVehicleCapacityKg_capacityKg.
  - intros distance reputation items v. unfold Binary64.commitScore.
    cbv zeta.
    now rewrite Binary64_commitTotalScore_specScore,
      Binary64_calculateFoodQuantity_demandKg,
      Binary64_getVehicleCapacityKg_capacityKg.
  - repeat split; vm_compute; reflexivity.
  - cbv zeta. repeat split; vm_compute; reflexivity.
Qed.

(** ** Order of the ranking *)




(** * Further properties of the operations *)

(** Case analysis along the control flow of a handler. *)
Ltac split_handler :=
  repeat (match goal with
          | |- context [match ?x with _ => _ end] => destruct x eqn:?
          end; cbv beta iota).

(** ** What the routes keep of users and donations *)

Lemma user_kept_refl (u : User) : user_kept u u.
Proof. repeat split. Qed.

Lemma users_kept_refl (s : Store) : users_kept s s.
Proof. intros id u H. exists u. split; [exact H|apply user_kept_refl]. Qed.

Lemma users_kept_trans (s1 s2 s3 : Store) :
  users_kept s1 s2 -> users_kept s2 s3 -> users_kept s1 s3.
Proof.
  intros H12 H23 id u Hu.
  destruct (H12 id u Hu) as (u2 & Hu2 & (Ha & Hb & Hc & Hd)).
  destruct (H23 id u2 Hu2) as (u3 & Hu3 & (Ha' & Hb' & Hc' & Hd')).
  exists u3. split; [exact Hu3|]. repeat split; congruence.
Qed.

Lemma users_kept_same_users (s s' : Store) :
  users s' = users s -> users_kept s s'.
Proof.
  intros H id u Hu. exists u. split; [|apply user_kept_refl].
  unfold findUser in *. now rewrite H.
Qed.

Lemma users_kept_saveUser (s : Store) (id : ObjectId) (f : User -> User) :
  (forall u, user_kept u (f u)) -> users_kept s (saveUser id f s).
Proof.
  intros Hf id' u Hu.
  rewrite findUser_saveUser by (intros u0; apply (Hf u0)).
  rewrite Hu. simpl. destruct (user_id u =? id).
  - exists (f u). split; [reflexivity|apply Hf].
  - exists u. split; [reflexivity|apply user_kept_refl].
Qed.

Lemma find_app_Some {A : Type} (p : A -> bool) (l l' : list A) (a : A) :
  find p l = Some a -> find p (l ++ l') = Some a.
Proof.
  induction l as [|x l IH]; simpl; [discriminate|].
  destruct (p x); [trivial|exact IH].
Qed.

Lemma users_kept_insertUser (s : Store) (u : User) :
  users_kept s (insertUser u s).
Proof.
  intros id u0 Hu. exists u0. split; [|apply user_kept_refl].
  unfold findUser, insertUser in *. simpl. now apply find_app_Some.
Qed.

Lemma user_kept_set_driverStatus (v : DriverStatus) (u : User) :
  user_kept u (set_driverStatus v u).
Proof. repeat split. Qed.

Lemma user_kept_applyAdminUpdate (b : AdminUpdate) (u : User) :
  user_kept u (applyAdminUpdate b u).
Proof.
  unfold applyAdminUpdate.
  destruct (au_kycStatus b), (au_reputationScore b), (au_isActive b),
    (au_driverStatus b); cbn [userType set_isActive set_reputationScore
                                set_kycStatus];
    try destruct (UserType_eqb (userType u) Driver); repeat split.
Qed.

Lemma user_kept_applyProfileUpdate (b : ProfileUpdate) (u : User) :
  user_kept u (applyProfileUpdate b u).
Proof.
  unfold applyProfileUpdate. destruct (pu_coordinates b) as [[la ln]|];
    repeat split.
Qed.

Lemma users_kept_syncDriverAfterDelivery (s : Store) (d : Donation) :
  users_kept s (syncDriverAfterDelivery s d).
Proof.
  unfold syncDriverAfterDelivery. split_handler;
    try apply users_kept_refl.
  apply users_kept_saveUser, user_kept_set_driverStatus.
Qed.

Lemma users_kept_assign_driver_write (now : Date) (s : Store)
  (id drv : ObjectId) :
  users_kept s (assign_driver_write now s id drv).
Proof.
  unfold assign_driver_write.
  eapply users_kept_trans;
    [|apply users_kept_saveUser, user_kept_set_driverStatus].
  now apply users_kept_same_users.
Qed.

Lemma users_kept_step (calculateDistance : Q -> Q -> Q -> Q -> Q)
  (now : Date) (r : Request) (s : Store) :
  users_kept s (step calculateDistance now r s).
Proof.
  destruct r; cbn [step].
  - unfold register. split_handler; cbn [fst];
      first [apply users_kept_refl|apply users_kept_insertUser].
  - unfold users_patch. split_handler; cbn [fst];
      try apply users_kept_refl.
    apply users_kept_saveUser, user_kept_applyProfileUpdate.
  - unfold admin_patch_user. split_handler; cbn [fst];
      try apply users_kept_refl.
    apply users_kept_saveUser, user_kept_applyAdminUpdate.
  - unfold driver_patch_status. split_handler; cbn [fst];
      try apply users_kept_refl.
    apply users_kept_saveUser, user_kept_set_driverStatus.
  - apply users_kept_same_users, users_create_donation.
  - apply users_kept_same_users, users_reserve.
  - apply users_kept_refl.
  - unfold assign_driver. split_handler; cbn [fst];
      first [apply users_kept_refl|apply users_kept_assign_driver_write].
  - unfold assignDriver. split_handler; cbn [fst];
      try apply users_kept_refl.
    apply users_kept_assign_driver_write.
  - unfold update_status. split_handler; cbn [fst];
      try apply users_kept_refl.
    + eapply users_kept_trans;
        [|apply users_kept_syncDriverAfterDelivery].
      now apply users_kept_same_users.
    + now apply users_kept_same_users.
  - unfold delivery_proof. split_handler; cbn [fst];
      try apply users_kept_refl.
    eapply users_kept_trans; [|apply users_kept_syncDriverAfterDelivery].
    now apply users_kept_same_users.
Qed.

Lemma donation_kept_refl (d : Donation) : donation_kept d d.
Proof. repeat split. Qed.

Lemma donations_kept_refl (s : Store) : donations_kept s s.
Proof. intros id d H. exists d. split; [exact H|apply donation_kept_refl]. Qed.

Lemma donations_kept_trans (s1 s2 s3 : Store) :
  donations_kept s1 s2 -> donations_kept s2 s3 -> donations_kept s1 s3.
Proof.
  intros H12 H23 id d Hd.
  destruct (H12 id d Hd) as (d2 & Hd2 & K2).
  destruct (H23 id d2 Hd2) as (d3 & Hd3 & K3).
  exists d3. split; [exact Hd3|].
  destruct K2 as (A1 & A2 & A3 & A4 & A5 & A6 & A7).
  destruct K3 as (B1 & B2 & B3 & B4 & B5 & B6 & B7).
  repeat split; congruence.
Qed.

Lemma donations_kept_same_donations (s s' : Store) :
  donations s' = donations s -> donations_kept s s'.
Proof.
  intros H id d Hd. exists d. split; [|apply donation_kept_refl].
  unfold findDonation in *. now rewrite H.
Qed.

Lemma donations_kept_saveDonation (now : Date) (s : Store) (id : ObjectId)
  (f : Donation -> Donation) :
  (forall d, donation_kept d (f d)) ->
  donations_kept s (saveDonation now id f s).
Proof.
  intros Hf id' d Hd.
  rewrite findDonation_saveDonation by (intros d0; apply (Hf d0)).
  rewrite Hd. simpl. destruct (donation_id d =? id).
  - exists (set_updatedAt now (f d)). split; [reflexivity|].
    destruct (Hf d) as (H1 & H2 & H3 & H4 & H5 & H6 & H7).
    repeat split; assumption.
  - exists d. split; [reflexivity|apply donation_kept_refl].
Qed.

Lemma donations_kept_insertDonation (s : Store) (d : Donation) :
  donations_kept s (insertDonation d s).
Proof.
  intros id d0 Hd. exists d0. split; [|apply donation_kept_refl].
  unfold findDonation, insertDonation in *. simpl. now apply find_app_Some.
Qed.

Lemma donation_kept_applyStatusUpdate (st : Status) (pt dt : option Date)
  (d : Donation) :
  donation_kept d (applyStatusUpdate st pt dt d).
Proof. unfold applyStatusUpdate. destruct pt, dt; repeat split. Qed.

Lemma donations_kept_assign_driver_write (now : Date) (s : Store)
  (id drv : ObjectId) :
  donations_kept s (assign_driver_write now s id drv).
Proof.
  unfold assign_driver_write. cbv zeta.
  apply (donations_kept_trans s
           (saveDonation now id
              (fun d => set_status assigned (set_driver (Some drv) d)) s)).
  - apply donations_kept_saveDonation. intros d. repeat split.
  - now apply donations_kept_same_donations.
Qed.

Lemma donations_kept_syncDriverAfterDelivery (s s1 : Store) (d : Donation) :
  donations_kept s s1 -> donations_kept s (syncDriverAfterDelivery s1 d).
Proof.
  intros H. apply (donations_kept_trans s s1); [exact H|].
  apply donations_kept_same_donations, donations_syncDriverAfterDelivery.
Qed.

Lemma donations_kept_step (calculateDistance : Q -> Q -> Q -> Q -> Q)
  (now : Date) (r : Request) (s : Store) :
  donations_kept s (step calculateDistance now r s).
Proof.
  destruct r; cbn [step].
  - unfold register. split_handler; cbn [fst];
      now apply donations_kept_same_donations.
  - unfold users_patch. split_handler; cbn [fst];
      now apply donations_kept_same_donations.
  - unfold admin_patch_user. split_handler; cbn [fst];
      now apply donations_kept_same_donations.
  - unfold driver_patch_status. split_handler; cbn [fst];
      now apply donations_kept_same_donations.
  - unfold create_donation. split_handler; cbn [fst];
      first [apply donations_kept_refl|apply donations_kept_insertDonation].
  - unfold reserve. split_handler; cbn [fst];
      try apply donations_kept_refl.
    apply donations_kept_saveDonation. intros d0. repeat split.
  - apply donations_kept_refl.
  - unfold assign_driver. split_handler; cbn [fst];
      first [apply donations_kept_refl
            |apply donations_kept_assign_driver_write].
  - unfold assignDriver. split_handler; cbn [fst];
      first [apply donations_kept_refl
            |apply donations_kept_assign_driver_write].
  - unfold update_status. split_handler; cbn [fst];
      try apply donations_kept_refl.
    + apply donations_kept_syncDriverAfterDelivery,
        donations_kept_saveDonation. intros d0.
      apply donation_kept_applyStatusUpdate.
    + apply donations_kept_saveDonation. intros d0.
      apply donation_kept_applyStatusUpdate.
  - unfold delivery_proof. split_handler; cbn [fst];
      try apply donations_kept_refl.
    apply donations_kept_syncDriverAfterDelivery,
      donations_kept_saveDonation. intros d0. repeat split.
Qed.

(** X1. No request removes a user or changes a user's id, email, role or
    vehicle class: whoever is stored before a request is stored after it
    with the same values of these paths. *)
Theorem step_keeps_users (calculateDistance : Q -> Q -> Q -> Q -> Q)
  (now : Date) (r : Request) (s : Store) (id : ObjectId) (u : User) :
  findUser s id = Some u ->
  exists u',
    findUser (step calculateDistance now r s) id = Some u'
    /\ user_id u' = user_id u /\ email u' = email u
    /\ userType u' = userType u /\ vehicleCapacity u' = vehicleCapacity u.
Proof. intros H. exact (users_kept_step calculateDistance now r s id u H). Qed.

Lemma step_keeps_users_witness :
  exists u',
    findUser
      (step flat_distance 5%Z
         (ReqAdminPatchUser "admin1" "drv1"
            (mkAdminUpdate (Some rejected) (Some 40) (Some false)
                           (Some DsAvailable)))
         store_admin) "drv1" = Some u'
    /\ user_id u' = "drv1" /\ email u' = "drv1@example.org"
    /\ userType u' = Driver /\ vehicleCapacity u' = Some medium.
Proof.
  exact (step_keeps_users flat_distance 5%Z
           (ReqAdminPatchUser "admin1" "drv1"
              (mkAdminUpdate (Some rejected) (Some 40) (Some false)
                             (Some DsAvailable)))
           store_admin "drv1"
           (example_user "drv1" Driver 10 20 100 DsBusy medium) eq_refl).
Defined.

(** X2. No request removes a donation or changes its id, donor, food items,
    pickup address, preferred pickup time, notes or creation time. *)
Theorem step_keeps_donations (calculateDistance : Q -> Q -> Q -> Q -> Q)
  (now : Date) (r : Request) (s : Store) (id : ObjectId) (d : Donation) :
  findDonation s id = Some d ->
  exists d',
    findDonation (step calculateDistance now r s) id = Some d'
    /\ donation_id d' = donation_id d /\ donor d' = donor d
    /\ foodItems d' = foodItems d /\ pickupAddress d' = pickupAddress d
    /\ preferredPickupTime d' = preferredPickupTime d
    /\ notes d' = notes d /\ createdAt d' = createdAt d.
Proof.
  intros H. exact (donations_kept_step calculateDistance now r s id d H).
Qed.

Lemma step_keeps_donations_witness :
  exists d',
    findDonation
      (step flat_distance 5%Z (ReqDeliveryProof "drv1" "don1" "proof.png")
            (fst (update_status 4%Z store_assigned "drv1" "don1" picked_up
                                (Some 4%Z) None))) "don1" = Some d'
    /\ donation_id d' = "don1" /\ donor d' = "donor1"
    /\ foodItems d' = kg90
    /\ pickupAddress d'
       = mkPickupAddress "1 Main St" "Pune" (Some (mkCoordinates 10 20))
    /\ preferredPickupTime d' = 1000%Z
    /\ notes d' = "" /\ createdAt d' = 900%Z.
Proof.
  exact (step_keeps_donations flat_distance 5%Z
           (ReqDeliveryProof "drv1" "don1" "proof.png")
           (fst (update_status 4%Z store_assigned "drv1" "don1" picked_up
                               (Some 4%Z) None))
           "don1"
           (set_updatedAt 4%Z
              (applyStatusUpdate picked_up (Some 4%Z) None
                 (example_donation "don1" (Some "recv1") (Some "drv1") kg90
                                   assigned)))
           eq_refl).
Defined.

(** ** Failures and authorisation *)

(** X3. A request that is answered with a failure writes nothing: the store
    after it is the store before it. *)
Theorem failed_request_writes_nothing
  (calculateDistance : Q -> Q -> Q -> Q -> Q) (now : Date) (r : Request)
  (s : Store) :
  request_ok calculateDistance now r s = false ->
  step calculateDistance now r s = s.
Proof.
  destruct r; cbn [step request_ok]; try reflexivity.
  - unfold register. split_handler; cbn [fst snd is_success];
      intros; first [reflexivity|discriminate].
  - unfold users_patch. split_handler; cbn [fst snd is_success];
      intros; first [reflexivity|discriminate].
  - unfold admin_patch_user. split_handler; cbn [fst snd is_success];
      intros; first [reflexivity|discriminate].
  - unfold driver_patch_status. split_handler; cbn [fst snd is_success];
      intros; first [reflexivity|discriminate].
  - unfold create_donation. split_handler; cbn [fst snd is_success];
      intros; first [reflexivity|discriminate].
  - unfold reserve. split_handler; cbn [fst snd is_success];
      intros; first [reflexivity|discriminate].
  - unfold assign_driver. split_handler; cbn [fst snd is_success];
      intros; first [reflexivity|discriminate].
  - unfold assignDriver. split_handler; cbn [fst snd is_success];
      intros; first [reflexivity|discriminate].
  - unfold update_status. split_handler; cbn [fst snd is_success];
      intros; first [reflexivity|discriminate].
  - unfold delivery_proof. split_handler; cbn [fst snd is_success];
      intros; first [reflexivity|discriminate].
Qed.

Lemma failed_request_writes_nothing_witness :
  step flat_distance 5%Z (ReqReserve "recv1" "don1") store_assigned
  = store_assigned.
Proof.
  apply (failed_request_writes_nothing flat_distance 5%Z
           (ReqReserve "recv1" "don1") store_assigned).
  reflexivity.
Defined.

Lemma authorize_role (allowedRoles : list UserType) (user : User) :
  authorize allowedRoles user = true <-> In (userType user) allowedRoles.
Proof.
  unfold authorize. rewrite existsb_exists. split.
  - intros (t & Hin & Ht). apply UserType_eqb_eq in Ht. now subst.
  - intros Hin. exists (userType user). split; [exact Hin|].
    now apply UserType_eqb_eq.
Qed.

Lemma authorize_not_role (allowedRoles : list UserType) (user : User) :
  ~ In (userType user) allowedRoles -> authorize allowedRoles user = false.
Proof.
  intros H. destruct (authorize allowedRoles user) eqn:E; [|reflexivity].
  apply authorize_role in E. contradiction.
Qed.

(** X4. The role guards of the routes.  For an authenticated caller: only a
    donor creates a donation, only a receiver reserves, only a receiver or a
    donor lists the available drivers or assigns one, only a driver uploads a
    delivery proof, and only an admin updates a user or reads the analytics
    and the donation statistics.  Any other caller is answered [Forbidden]
    and nothing is written. *)
Theorem role_guards (calculateDistance : Q -> Q -> Q -> Q -> Q) (s : Store)
  (userId : ObjectId) (user : User) :
  authenticate s userId = Some user ->
  (userType user <> Donor ->
   forall now newId items address preferred note,
     create_donation now s userId newId items address preferred note
     = (s, inl Forbidden))
  /\ (userType user <> Receiver ->
      forall now id, reserve now s userId id = (s, inl Forbidden))
  /\ (userType user <> Receiver -> userType user <> Donor ->
      forall now id drv,
        available_drivers calculateDistance s userId id = inl Forbidden
        /\ assign_driver now s userId id drv = (s, inl Forbidden))
  /\ (userType user <> Driver ->
      forall now id proofUrl,
        delivery_proof now s userId id proofUrl = (s, inl Forbidden))
  /\ (userType user <> Admin ->
      forall id b startDate endDate,
        admin_patch_user s userId id b = (s, inl Forbidden)
        /\ analytics s userId = inl Forbidden
        /\ donation_stats s userId startDate endDate = inl Forbidden).
Proof.
  intros Hu.
  assert (Hno : forall roles, ~ In (userType user) roles ->
                              authorize roles user = false)
    by (intros roles; apply authorize_not_role).
  split; [|split; [|split; [|split]]].
  - intros Ht now newId items address preferred note.
    unfold create_donation. rewrite Hu, Hno; [reflexivity|].
    simpl. intuition congruence.
  - intros Ht now id. unfold reserve.
    rewrite Hu, Hno; [reflexivity|]. simpl. intuition congruence.
  - intros Hr Hd now id drv.
    assert (Ha : authorize [Receiver; Donor] user = false)
      by (apply Hno; simpl; intuition congruence).
    unfold available_drivers, assign_driver, assign_driver_validate.
    rewrite Hu, Ha. split; reflexivity.
  - intros Ht now id proofUrl. unfold delivery_proof.
    rewrite Hu, Hno; [reflexivity|]. simpl. intuition congruence.
  - intros Ht id b startDate endDate.
    assert (Ha : authorize [Admin] user = false)
      by (apply Hno; simpl; intuition congruence).
    unfold admin_patch_user, analytics, donation_stats.
    rewrite Hu, Ha. repeat split.
Qed.

Lemma role_guards_witness :
  reserve 5%Z store_available "donor1" "don1"
  = (store_available, inl Forbidden).
Proof.
  refine (proj1 (proj2 (role_guards flat_distance store_available "donor1"
                          (example_user "donor1" Donor 10 20 100 DsAvailable
                                        medium) eq_refl)) _ 5%Z "don1").
  discriminate.
Defined.

(** ** Invariants of the reachable stores *)


Lemma user_ok_set_driverStatus (v : DriverStatus) (u : User) :
  user_ok u -> user_ok (set_driverStatus v u).
Proof. trivial. Qed.





(** ** Donations no vehicle can carry *)


Section CapacityBound.
Variable calculateDistance : Q -> Q -> Q -> Q -> Q.
Variable s : Store.
Variable cap : Q.
Hypothesis Hcap :
  forall u, In u (users s) -> getVehicleCapacityKg (vehicleCapacity u) <= cap.

End CapacityBound.





(** ** Referential integrity *)

Lemma has_role_kept (s s' : Store) (id : ObjectId) (t : UserType) :
  users_kept s s' -> has_role s id t -> has_role s' id t.
Proof.
  intros HK (u & Hu & Ht). destruct (HK id u Hu) as (u' & Hu' & _ & _ & Ht' & _).
  exists u'. split; [exact Hu'|congruence].
Qed.

Lemma donation_refs_ok_kept (s s' : Store) (d : Donation) :
  users_kept s s' -> donation_refs_ok s d -> donation_refs_ok s' d.
Proof.
  intros HK (Hd & Hr & Hx). split; [|split].
  - now apply (has_role_kept s).
  - intros r E. apply (has_role_kept s); auto.
  - intros x E. apply (has_role_kept s); auto.
Qed.

Lemma refs_ok_users_only (s s' : Store) :
  users_kept s s' -> donations s' = donations s -> refs_ok s -> refs_ok s'.
Proof.
  intros HK Hd H d Hin. rewrite Hd in Hin.
  apply (donation_refs_ok_kept s); auto.
Qed.

Lemma refs_ok_saveDonation (s s' : Store) (now : Date) (id : ObjectId)
  (f : Donation -> Donation) :
  users_kept s s' ->
  donations s' = donations (saveDonation now id f s) ->
  (forall d, donation_refs_ok s d -> donation_refs_ok s (f d)) ->
  refs_ok s -> refs_ok s'.
Proof.
  intros HK Hd Hf H d Hin. rewrite Hd in Hin. simpl in Hin.
  apply in_map_iff in Hin. destruct Hin as (d0 & <- & Hin0).
  apply (donation_refs_ok_kept s); [exact HK|].
  destruct (donation_id d0 =? id); [|now apply H].
  apply (Hf d0 (H d0 Hin0)).
Qed.

Lemma refs_ok_insertDonation (s s' : Store) (d : Donation) :
  users_kept s s' ->
  donations s' = donations s ++ [d] ->
  donation_refs_ok s d -> refs_ok s -> refs_ok s'.
Proof.
  intros HK Hd Hd0 H d' Hin. rewrite Hd in Hin.
  apply (donation_refs_ok_kept s); [exact HK|].
  apply in_app_or in Hin. destruct Hin as [Hin|[<-|[]]]; auto.
Qed.

Lemma authorized_has_role (s : Store) (userId : ObjectId) (user : User)
  (t : UserType) :
  authenticate s userId = Some user ->
  negb (authorize [t] user) = false ->
  has_role s userId t.
Proof.
  intros Hu Ha. exists user. split; [exact Hu|].
  apply negb_false_iff, authorize_role in Ha. simpl in Ha.
  destruct Ha as [Ha|[]]. now symmetry.
Qed.

Lemma isDriverAvailable_has_role (s : Store) (id : ObjectId) :
  isDriverAvailable s id = true -> has_role s id Driver.
Proof.
  unfold isDriverAvailable.
  destruct (findUser s id) as [u|] eqn:Hu; [|discriminate].
  destruct (UserType_eqb (userType u) Driver) eqn:Ht; [|discriminate].
  intros _. exists u. split; [exact Hu|now apply UserType_eqb_eq].
Qed.

Lemma assign_driver_validate_has_role (s : Store) (userId id drv : ObjectId)
  (p : Donation * User) :
  assign_driver_validate s userId id drv = inr p -> has_role s drv Driver.
Proof.
  unfold assign_driver_validate. split_handler; try discriminate.
  intros _. eexists. split; [eassumption|].
  match goal with
  | E : negb (UserType_eqb _ Driver) = false |- _ =>
      now apply negb_false_iff, UserType_eqb_eq in E
  end.
Qed.

Lemma assignDriver_select_has_role
  (calculateDistance : Q -> Q -> Q -> Q -> Q) (s : Store) (id : ObjectId)
  (cands : list Candidate) (c : Candidate) :
  assignDriver_select calculateDistance s id = inr cands ->
  In c cands -> has_role s (user_id (c_driver c)) Driver.
Proof.
  intros H Hin. apply assignDriver_select_inr in H.
  destruct H as (d & p & _ & _ & -> & _).
  apply sort_by_score_In, in_filter_map in Hin.
  destruct Hin as (drv & _ & Hc). apply commitEntry_Some in Hc.
  destruct Hc as (Hav & _ & ->).
  now apply isDriverAvailable_has_role.
Qed.

Lemma refs_ok_step (calculateDistance : Q -> Q -> Q -> Q -> Q) (now : Date)
  (r : Request) (s : Store) :
  refs_ok s -> refs_ok (step calculateDistance now r s).
Proof.
  intros H. pose proof (users_kept_step calculateDistance now r s) as HK.
  revert HK. destruct r; cbn [step].
  - unfold register. split_handler; cbn [fst]; intros HK;
      now apply (refs_ok_users_only s _ HK).
  - unfold users_patch. split_handler; cbn [fst]; intros HK;
      now apply (refs_ok_users_only s _ HK).
  - unfold admin_patch_user. split_handler; cbn [fst]; intros HK;
      now apply (refs_ok_users_only s _ HK).
  - unfold driver_patch_status. split_handler; cbn [fst]; intros HK;
      now apply (refs_ok_users_only s _ HK).
  - unfold create_donation. split_handler; cbn [fst]; intros HK;
      try (now apply (refs_ok_users_only s _ HK)).
    eapply (refs_ok_insertDonation s _ _ HK); [reflexivity| |exact H].
    split; [|split; discriminate]. cbn [donor].
    eapply authorized_has_role; eassumption.
  - unfold reserve. split_handler; cbn [fst]; intros HK;
      try (now apply (refs_ok_users_only s _ HK)).
    eapply (refs_ok_saveDonation s _ _ _ _ HK); [reflexivity| |exact H].
    intros d0 (Hd & Hr & Hx). split; [exact Hd|]. split; [|exact Hx].
    cbn [receiver set_status set_receiver]. intros r0 [= <-].
    eapply authorized_has_role; eassumption.
  - intros _. exact H.
  - unfold assign_driver. split_handler; cbn [fst]; intros HK;
      try (now apply (refs_ok_users_only s _ HK)).
    eapply (refs_ok_saveDonation s _ _ _ _ HK); [reflexivity| |exact H].
    intros d0 (Hd & Hr & Hx). split; [exact Hd|]. split; [exact Hr|].
    cbn [driver set_status set_driver]. intros x [= <-].
    eapply assign_driver_validate_has_role; eassumption.
  - unfold assignDriver. split_handler; cbn [fst]; intros HK;
      try (now apply (refs_ok_users_only s _ HK)).
    eapply (refs_ok_saveDonation s _ _ _ _ HK); [reflexivity| |exact H].
    intros d0 (Hd & Hr & Hx). split; [exact Hd|]. split; [exact Hr|].
    cbn [driver set_status set_driver]. intros x [= <-].
    eapply assignDriver_select_has_role; [eassumption|now left].
  - unfold update_status. split_handler; cbn [fst]; intros HK;
      try (now apply (refs_ok_users_only s _ HK)).
    + eapply (refs_ok_saveDonation s _ _ _ _ HK);
        [apply donations_syncDriverAfterDelivery| |exact H].
      intros d0 Hd0. unfold applyStatusUpdate.
      destruct pickupTime, deliveryTime; exact Hd0.
    + eapply (refs_ok_saveDonation s _ _ _ _ HK); [reflexivity| |exact H].
      intros d0 Hd0. unfold applyStatusUpdate.
      destruct pickupTime, deliveryTime; exact Hd0.
  - unfold delivery_proof. split_handler; cbn [fst]; intros HK;
      try (now apply (refs_ok_users_only s _ HK)).
    eapply (refs_ok_saveDonation s _ _ _ _ HK);
      [apply donations_syncDriverAfterDelivery| |exact H].
    intros d0 Hd0. exact Hd0.
Qed.

(** X8. Referential integrity.  In every store the operations can reach from
    empty collections, the donor of every donation is a stored user with role
    donor, its receiver, when set, is a stored user with role receiver, and
    its driver, when set, is a stored user with role driver. *)
Theorem reachable_refs_ok (calculateDistance : Q -> Q -> Q -> Q -> Q)
  (s : Store) (d : Donation) :
  reachable calculateDistance s ->
  In d (donations s) ->
  has_role s (donor d) Donor
  /\ (forall r, receiver d = Some r -> has_role s r Receiver)
  /\ (forall x, driver d = Some x -> has_role s x Driver).
Proof.
  intros Hr. revert d.
  change (refs_ok s).
  induction Hr as [|now r s _ IH]; [intros d []|].
  now apply refs_ok_step.
Qed.

Lemma reachable_refs_ok_witness :
  has_role store_reached "donor1" Donor
  /\ (forall r, None = Some r -> has_role store_reached r Receiver)
  /\ (forall x, None = Some x -> has_role store_reached x Driver).
Proof.
  apply (reachable_refs_ok flat_distance store_reached
           (mkDonation "don1" "donor1" None None [mkFoodItem "rice" 200 "kg"]
              (mkPickupAddress "1 Main St" "Pune"
                               (Some (mkCoordinates 10 20)))
              available 1000%Z None None None "" 2%Z 2%Z)).
  - apply reachable_step, reachable_step, reachable_empty.
  - left. reflexivity.
Defined.

(** ** Reservation *)

(** X9. A receiver reserves a donation exactly when it is [available]: the
    stored donation then becomes [reserved] with the caller as receiver, its
    driver is unchanged and no user is written; from any other status the
    request fails [InvalidState] and writes nothing. *)
Theorem reserve_behaviour (now : Date) (s : Store) (userId id : ObjectId)
  (user : User) (d : Donation) :
  authenticate s userId = Some user ->
  userType user = Receiver ->
  findDonation s id = Some d ->
  (status d = available ->
   exists d',
     snd (reserve now s userId id) = inr (Some d')
     /\ findDonation (fst (reserve now s userId id)) id = Some d'
     /\ status d' = reserved /\ receiver d' = Some userId
     /\ driver d' = driver d /\ updatedAt d' = now
     /\ users (fst (reserve now s userId id)) = users s)
  /\ (status d <> available ->
      reserve now s userId id = (s, inl InvalidState)).
Proof.
  intros Hu Ht Hd. unfold reserve. rewrite Hu, Hd.
  assert (Ha : authorize [Receiver] user = true)
    by (apply authorize_role; rewrite Ht; now left).
  rewrite Ha. cbn [negb]. split.
  - intros ->. cbn [Status_eqb negb fst snd].
    rewrite findDonation_saveDonation by reflexivity. rewrite Hd.
    cbn [option_map]. rewrite (find_key_eq donation_id id _ d Hd).
    rewrite String.eqb_refl. eexists. repeat split.
  - intros Hst. destruct (Status_eqb (status d) available) eqn:E;
      [apply Status_eqb_eq in E; contradiction|reflexivity].
Qed.

Lemma reserve_behaviour_witness :
  exists d',
    snd (reserve 5%Z store_available "recv1" "don1") = inr (Some d')
    /\ findDonation (fst (reserve 5%Z store_available "recv1" "don1")) "don1"
       = Some d'
    /\ status d' = reserved /\ receiver d' = Some "recv1"
    /\ driver d' = None /\ updatedAt d' = 5%Z
    /\ users (fst (reserve 5%Z store_available "recv1" "don1"))
       = users store_available.
Proof.
  exact (proj1 (reserve_behaviour 5%Z store_available "recv1" "don1"
                  (example_user "recv1" Receiver 10 20 100 DsAvailable medium)
                  (example_donation "don1" None None kg90 available)
                  eq_refl eq_refl eq_refl) eq_refl).
Defined.

(** ** Delivery *)

Lemma countActive_delivered (s : Store) (x id : ObjectId) :
  (forall d, In d (donations s) -> donation_id d = id ->
             status d = delivered) ->
  countActiveExcept s x id = countActive s x.
Proof.
  intros H. unfold countActiveExcept, countActive. f_equal.
  apply filter_ext_in. intros d Hin.
  destruct (donation_id d =? id) eqn:E.
  - apply String.eqb_eq in E. rewrite (H d Hin E). simpl.
    now rewrite !andb_false_r.
  - simpl. now rewrite andb_true_r.
Qed.

Lemma saveDonation_delivered (now : Date) (s : Store) (id : ObjectId)
  (f : Donation -> Donation) :
  (forall d, donation_id (f d) = donation_id d) ->
  (forall d, status (f d) = delivered) ->
  forall d, In d (donations (saveDonation now id f s)) ->
            donation_id d = id -> status d = delivered.
Proof.
  intros Hid Hst d Hin E. simpl in Hin. apply in_map_iff in Hin.
  destruct Hin as (d0 & <- & _).
  destruct (donation_id d0 =? id) eqn:E0.
  - simpl. apply Hst.
  - apply String.eqb_neq in E0. contradiction.
Qed.

(** The flag after the synchronisation that follows a delivery, for a store
    in which the delivered donation is already stored as delivered. *)
Lemma syncDriverAfterDelivery_effect (s1 : Store) (d : Donation)
  (x : ObjectId) (u : User) :
  driver d = Some x ->
  findUser s1 x = Some u ->
  (forall d1, In d1 (donations s1) -> donation_id d1 = donation_id d ->
              status d1 = delivered) ->
  countActive (syncDriverAfterDelivery s1 d) x = countActive s1 x
  /\ (countActive s1 x = 0%nat ->
      occupancy (syncDriverAfterDelivery s1 d) x = Some DsAvailable)
  /\ (countActive s1 x <> 0%nat ->
      occupancy (syncDriverAfterDelivery s1 d) x = occupancy s1 x).
Proof.
  intros Hx Hu Hdel.
  split.
  { unfold countActive. now rewrite donations_syncDriverAfterDelivery. }
  unfold syncDriverAfterDelivery. rewrite Hx, Hu.
  pose proof (find_key_eq user_id x _ u Hu) as Hid. rewrite Hid.
  rewrite (countActive_delivered s1 x (donation_id d) Hdel).
  destruct (Nat.eqb_spec (countActive s1 x) 0) as [E|E].
  - split; [|contradiction]. intros _. unfold occupancy.
    rewrite findUser_saveUser by reflexivity. rewrite Hu. simpl.
    now rewrite Hid, String.eqb_refl.
  - split; [contradiction|reflexivity].
Qed.

(** X10. Only the donation's driver uploads a delivery proof, and only from
    [picked_up].  A driver who is not the donation's driver is answered
    [Forbidden], any other status [InvalidState], and nothing is written.
    Otherwise the donation becomes [delivered] with the proof and the
    delivery time of the request, and the driver's flag is recomputed: it is
    [available] when the driver has no assigned or picked-up donation left,
    and unchanged otherwise. *)
Theorem delivery_proof_behaviour (now : Date) (s : Store)
  (userId id : ObjectId) (proofUrl : string) (user : User) (d : Donation) :
  authenticate s userId = Some user ->
  userType user = Driver ->
  findDonation s id = Some d ->
  (driver d <> Some userId ->
   delivery_proof now s userId id proofUrl = (s, inl Forbidden))
  /\ (driver d = Some userId -> status d <> picked_up ->
      delivery_proof now s userId id proofUrl = (s, inl InvalidState))
  /\ (driver d = Some userId -> status d = picked_up ->
      exists d',
        snd (delivery_proof now s userId id proofUrl) = inr (Some d')
        /\ status d' = delivered
        /\ deliveryProof d' = Some (mkDeliveryProof proofUrl now)
        /\ actualDeliveryTime d' = Some now
        /\ (countActive (fst (delivery_proof now s userId id proofUrl)) userId
            = 0%nat ->
            occupancy (fst (delivery_proof now s userId id proofUrl)) userId
            = Some DsAvailable)
        /\ (countActive (fst (delivery_proof now s userId id proofUrl)) userId
            <> 0%nat ->
            occupancy (fst (delivery_proof now s userId id proofUrl)) userId
            = occupancy s userId)).
Proof.
  intros Hu Ht Hd. unfold delivery_proof. rewrite Hu, Hd.
  assert (Ha : authorize [Driver] user = true)
    by (apply authorize_role; rewrite Ht; now left).
  rewrite Ha. cbn [negb]. split; [|split].
  - intros Hx. destruct (ObjectId_opt_eqb (driver d) userId) eqn:E;
      [|reflexivity].
    exfalso. apply Hx. unfold ObjectId_opt_eqb in E.
    destruct (driver d) as [x|]; [|discriminate].
    apply String.eqb_eq in E. now subst.
  - intros Hx Hst. rewrite Hx. cbn [ObjectId_opt_eqb].
    rewrite String.eqb_refl. cbn [negb].
    destruct (Status_eqb (status d) picked_up) eqn:E;
      [apply Status_eqb_eq in E; contradiction|reflexivity].
  - intros Hx Hst. rewrite Hx, Hst. cbn [ObjectId_opt_eqb Status_eqb].
    rewrite String.eqb_refl. cbn [negb fst snd].
    set (f := fun d0 => set_actualDeliveryTime (Some now)
                          (set_status delivered
                             (set_deliveryProof
                                (Some (mkDeliveryProof proofUrl now)) d0))).
    set (s1 := saveDonation now id f s).
    assert (Hu1 : findUser s1 userId = Some user) by exact Hu.
    assert (Hdel : forall d1, In d1 (donations s1) ->
                              donation_id d1 = donation_id d ->
                              status d1 = delivered).
    { rewrite (find_key_eq donation_id id _ d Hd).
      now apply saveDonation_delivered. }
    destruct (syncDriverAfterDelivery_effect s1 d userId user Hx Hu1 Hdel)
      as (Hc & H0 & Hn).
    rewrite findDonation_syncDriverAfterDelivery.
    unfold s1 at 1. rewrite findDonation_saveDonation by reflexivity.
    rewrite Hd. cbn [option_map].
    rewrite (find_key_eq donation_id id _ d Hd), String.eqb_refl.
    eexists. split; [reflexivity|]. repeat (split; [reflexivity|]).
    rewrite Hc. split; [exact H0|exact Hn].
Qed.

Lemma delivery_proof_behaviour_witness :
  exists d',
    snd (delivery_proof 5%Z
           (fst (update_status 4%Z store_assigned "drv1" "don1" picked_up
                               (Some 4%Z) None))
           "drv1" "don1" "proof.png") = inr (Some d')
    /\ status d' = delivered
    /\ deliveryProof d' = Some (mkDeliveryProof "proof.png" 5%Z)
    /\ actualDeliveryTime d' = Some 5%Z
    /\ (countActive
          (fst (delivery_proof 5%Z
                  (fst (update_status 4%Z store_assigned "drv1" "don1"
                                      picked_up (Some 4%Z) None))
                  "drv1" "don1" "proof.png")) "drv1" = 0%nat ->
        occupancy
          (fst (delivery_proof 5%Z
                  (fst (update_status 4%Z store_assigned "drv1" "don1"
                                      picked_up (Some 4%Z) None))
                  "drv1" "don1" "proof.png")) "drv1" = Some DsAvailable)
    /\ (countActive
          (fst (delivery_proof 5%Z
                  (fst (update_status 4%Z store_assigned "drv1" "don1"
                                      picked_up (Some 4%Z) None))
                  "drv1" "don1" "proof.png")) "drv1" <> 0%nat ->
        occupancy
          (fst (delivery_proof 5%Z
                  (fst (update_status 4%Z store_assigned "drv1" "don1"
                                      picked_up (Some 4%Z) None))
                  "drv1" "don1" "proof.png")) "drv1"
        = occupancy
            (fst (update_status 4%Z store_assigned "drv1" "don1" picked_up
                                (Some 4%Z) None)) "drv1").
Proof.
  exact (proj2 (proj2 (delivery_proof_behaviour 5%Z
                         (fst (update_status 4%Z store_assigned "drv1" "don1"
                                             picked_up (Some 4%Z) None))
                         "drv1" "don1" "proof.png"
                         (example_user "drv1" Driver 10 20 100 DsBusy medium)
                         (set_updatedAt 4%Z
                            (applyStatusUpdate picked_up (Some 4%Z) None
                               (example_donation "don1" (Some "recv1")
                                                 (Some "drv1") kg90 assigned)))
                         eq_refl eq_refl eq_refl)) eq_refl eq_refl).
Defined.

(** X11. The generic status update to [delivered] recomputes the flag of the
    donation's driver in the same way: after it the donation is stored as
    [delivered], and the driver's flag is [available] when the driver has no
    assigned or picked-up donation left and unchanged otherwise. *)
Theorem update_status_delivered_synchronizes (now : Date) (s : Store)
  (userId id : ObjectId) (pt dt : option Date) (user : User) (d : Donation)
  (x : ObjectId) (u : User) :
  authenticate s userId = Some user ->
  findDonation s id = Some d ->
  canUpdate d userId = true ->
  driver d = Some x ->
  findUser s x = Some u ->
  option_map status
    (findDonation (fst (update_status now s userId id delivered pt dt)) id)
  = Some delivered
  /\ (countActive (fst (update_status now s userId id delivered pt dt)) x
      = 0%nat ->
      occupancy (fst (update_status now s userId id delivered pt dt)) x
      = Some DsAvailable)
  /\ (countActive (fst (update_status now s userId id delivered pt dt)) x
      <> 0%nat ->
      occupancy (fst (update_status now s userId id delivered pt dt)) x
      = occupancy s x).
Proof.
  intros Hu Hd Hc Hx Hux. unfold update_status. rewrite Hu, Hd, Hc.
  cbn [negb Status_eqb fst].
  set (s1 := saveDonation now id (applyStatusUpdate delivered pt dt) s).
  assert (Hu1 : findUser s1 x = Some u) by exact Hux.
  assert (Hdel : forall d1, In d1 (donations s1) ->
                            donation_id d1 = donation_id d ->
                            status d1 = delivered).
  { rewrite (find_key_eq donation_id id _ d Hd).
    apply saveDonation_delivered.
    - intros d0. apply applyStatusUpdate_id.
    - intros d0. apply applyStatusUpdate_status. }
  destruct (syncDriverAfterDelivery_effect s1 d x u Hx Hu1 Hdel)
    as (Hcnt & H0 & Hn).
  rewrite findDonation_syncDriverAfterDelivery, Hcnt.
  split; [|split; [exact H0|exact Hn]].
  unfold s1. rewrite findDonation_saveDonation
    by (intros d0; apply applyStatusUpdate_id).
  rewrite Hd. cbn [option_map].
  rewrite (find_key_eq donation_id id _ d Hd), String.eqb_refl.
  cbn [status set_updatedAt]. now rewrite applyStatusUpdate_status.
Qed.

Lemma update_status_delivered_synchronizes_witness :
  option_map status
    (findDonation
       (fst (update_status 5%Z store_assigned "recv1" "don1" delivered
                           None (Some 5%Z))) "don1")
  = Some delivered
  /\ (countActive
        (fst (update_status 5%Z store_assigned "recv1" "don1" delivered
                            None (Some 5%Z))) "drv1" = 0%nat ->
      occupancy
        (fst (update_status 5%Z store_assigned "recv1" "don1" delivered
                            None (Some 5%Z))) "drv1" = Some DsAvailable)
  /\ (countActive
        (fst (update_status 5%Z store_assigned "recv1" "don1" delivered
                            None (Some 5%Z))) "drv1" <> 0%nat ->
      occupancy
        (fst (update_status 5%Z store_assigned "recv1" "don1" delivered
                            None (Some 5%Z))) "drv1"
      = occupancy store_assigned "drv1").
Proof.
  exact (update_status_delivered_synchronizes 5%Z store_assigned "recv1"
           "don1" None (Some 5%Z)
           (example_user "recv1" Receiver 10 20 100 DsAvailable medium)
           (example_donation "don1" (Some "recv1") (Some "drv1") kg90
                             assigned)
           "drv1" (example_user "drv1" Driver 10 20 100 DsBusy medium)
           eq_refl eq_refl eq_refl eq_refl eq_refl).
Defined.

(** ** After a commit *)

Lemma findDonation_In (s : Store) (id : ObjectId) (d : Donation) :
  findDonation s id = Some d -> In d (donations s).
Proof. intros H. now apply find_some in H. Qed.

Lemma countActive_pos (s : Store) (x : ObjectId) (d : Donation) :
  In d (donations s) -> driver d = Some x -> is_active (status d) = true ->
  (1 <= countActive s x)%nat.
Proof.
  intros Hin Hx Hst. unfold countActive.
  assert (H : In d (filter (fun d0 => ObjectId_opt_eqb (driver d0) x
                                      && is_active (status d0))
                           (donations s))).
  { apply filter_In. split; [exact Hin|]. rewrite Hx, Hst. simpl.
    now rewrite String.eqb_refl. }
  destruct (filter _ (donations s)); [destruct H|simpl; lia].
Qed.

Lemma assign_driver_write_commits (now : Date) (s : Store) (id drv : ObjectId)
  (d : Donation) (u : User) :
  findDonation s id = Some d ->
  findUser s drv = Some u ->
  option_map status (findDonation (assign_driver_write now s id drv) id)
  = Some assigned
  /\ option_map driver (findDonation (assign_driver_write now s id drv) id)
     = Some (Some drv)
  /\ occupancy (assign_driver_write now s id drv) drv = Some DsBusy
  /\ (1 <= countActive (assign_driver_write now s id drv) drv)%nat
  /\ isDriverAvailable (assign_driver_write now s id drv) drv = false.
Proof.
  intros Hd Hu.
  destruct (assign_driver_write_effect now s id drv d u Hd Hu)
    as (Hst & Hdr & Hocc).
  split; [exact Hst|]. split; [exact Hdr|]. split; [exact Hocc|].
  destruct (findDonation (assign_driver_write now s id drv) id) as [d'|] eqn:E;
    [|discriminate].
  simpl in Hst, Hdr. injection Hst as Hst. injection Hdr as Hdr.
  split.
  - apply (countActive_pos _ _ d');
      [exact (findDonation_In _ id d' E)|exact Hdr|].
    now rewrite Hst.
  - unfold isDriverAvailable. unfold occupancy in Hocc.
    destruct (findUser (assign_driver_write now s id drv) drv) as [u'|];
      [|reflexivity].
    simpl in Hocc. injection Hocc as ->.
    destruct (UserType_eqb (userType u') Driver); reflexivity.
Qed.

Lemma isDriverAvailable_findUser (s : Store) (id : ObjectId) :
  isDriverAvailable s id = true -> exists u, findUser s id = Some u.
Proof.
  unfold isDriverAvailable. destruct (findUser s id) as [u|]; [|discriminate].
  intros _. now exists u.
Qed.

(** X12. After a successful commit, caller-specified or automatic, the
    donation is stored as [assigned] with the chosen driver, the driver's
    flag is [busy], the driver has at least one assigned or picked-up
    donation, and [isDriverAvailable] is false for that driver. *)
Theorem commit_marks_driver_busy (calculateDistance : Q -> Q -> Q -> Q -> Q)
  (now : Date) (s : Store) :
  (forall userId id drv,
      is_success (snd (assign_driver now s userId id drv)) = true ->
      let s' := fst (assign_driver now s userId id drv) in
      option_map status (findDonation s' id) = Some assigned
      /\ option_map driver (findDonation s' id) = Some (Some drv)
      /\ occupancy s' drv = Some DsBusy
      /\ (1 <= countActive s' drv)%nat
      /\ isDriverAvailable s' drv = false)
  /\ (forall id a,
        snd (assignDriver calculateDistance now s id) = inr a ->
        let s' := fst (assignDriver calculateDistance now s id) in
        option_map status (findDonation s' id) = Some assigned
        /\ option_map driver (findDonation s' id)
           = Some (Some (assignedDriver a))
        /\ occupancy s' (assignedDriver a) = Some DsBusy
        /\ (1 <= countActive s' (assignedDriver a))%nat
        /\ isDriverAvailable s' (assignedDriver a) = false
        /\ (List.length (alternatives a) <= 3)%nat).
Proof.
  split.
  - intros userId id drv Hs. cbv zeta. unfold assign_driver in *.
    destruct (assign_driver_validate s userId id drv) as [e|[d u]] eqn:E;
      [discriminate|]. cbn [fst].
    unfold assign_driver_validate in E. revert E. split_handler;
      try discriminate. intros _.
    eapply assign_driver_write_commits; eassumption.
  - intros id a Ha. cbv zeta.
    assert (Hs : is_success (snd (assignDriver calculateDistance now s id))
                 = true) by now rewrite Ha.
    apply assignDriver_success in Hs.
    destruct Hs as (best & rest & Hsel & Hfst & Hbest).
    rewrite Ha in Hbest. simpl in Hbest. injection Hbest as Hbest.
    rewrite Hfst, Hbest.
    assert (Halt : (List.length (alternatives a) <= 3)%nat).
    { unfold assignDriver in Ha. rewrite Hsel in Ha. cbn [snd] in Ha.
      injection Ha as <-. cbn [alternatives].
      destruct rest as [|c1 [|c2 [|c3 rest]]]; simpl; lia. }
    pose proof Hsel as Hsel'.
    apply assignDriver_select_inr in Hsel.
    destruct Hsel as (d & p & Hd & _ & Heq & _).
    assert (Hin : In best (best :: rest)) by now left.
    rewrite Heq in Hin. apply sort_by_score_In, in_filter_map in Hin.
    destruct Hin as (drv & _ & Hc). apply commitEntry_Some in Hc.
    destruct Hc as (Hav & _ & ->). cbn [c_driver].
    apply isDriverAvailable_findUser in Hav. destruct Hav as (u & Hu).
    destruct (assign_driver_write_commits now s id (user_id drv) d u Hd Hu)
      as (H1 & H2 & H3 & H4 & H5).
    repeat split; assumption.
Qed.

Lemma commit_marks_driver_busy_witness :
  option_map status
    (findDonation
       (fst (assign_driver 5%Z store_two_reserved "recv1" "don1" "drv1"))
       "don1") = Some assigned
  /\ option_map driver
       (findDonation
          (fst (assign_driver 5%Z store_two_reserved "recv1" "don1" "drv1"))
          "don1") = Some (Some "drv1")
  /\ occupancy
       (fst (assign_driver 5%Z store_two_reserved "recv1" "don1" "drv1"))
       "drv1" = Some DsBusy
  /\ (1 <= countActive
             (fst (assign_driver 5%Z store_two_reserved "recv1" "don1" "drv1"))
             "drv1")%nat
  /\ isDriverAvailable
       (fst (assign_driver 5%Z store_two_reserved "recv1" "don1" "drv1"))
       "drv1" = false.
Proof.
  exact (proj1 (commit_marks_driver_busy flat_distance 5%Z store_two_reserved)
               "recv1" "don1" "drv1" eq_refl).
Defined.

(** ** Eligibility of the ranked drivers *)

Lemma pool_driver_isEligible (s : Store) (drv : User) :
  In drv (findAvailableDrivers s) ->
  isDriverAvailable s (user_id drv) = true ->
  In drv (users s) /\ isEligible s drv = true.
Proof.
  intros Hpool Hav. apply findAvailableDrivers_In in Hpool.
  destruct Hpool as (Hin & Ht & Hs & Ha & Hla & Hln).
  split; [exact Hin|]. unfold isEligible.
  rewrite Ht, Hs, Ha, Hla, Hln, (isDriverAvailable_countActive s _ Hav).
  reflexivity.
Qed.

(** The automatic commit takes a driver whose stored coordinates are
    [null]: the driver is in the pool of [assignDriver], not in the pool of
    the advisory route, and is assigned. *)
Lemma assignDriver_takes_null_coordinates :
  findAvailableDrivers store_null_coordinates = []
  /\ map user_id (findAssignableDrivers store_null_coordinates) = ["drv1"]
  /\ available_drivers flat_distance store_null_coordinates "recv1" "don1"
     = inr []
  /\ option_map driver
       (findDonation
          (fst (assignDriver flat_distance 5%Z store_null_coordinates "don1"))
          "don1")
     = Some (Some "drv1").
Proof. repeat split; vm_compute; reflexivity. Qed.

(** X13. Every driver the matching engine ranks passed the path's tests.
    Each entry of the advisory list comes from a stored user whose role is
    driver, who is active, whose flag is [available], whose latitude and
    longitude are numbers other than 0 and who has no assigned or picked-up
    donation.  Each candidate of the automatic commit comes from a stored
    user whose role is driver, who is active, whose flag is [available],
    whose latitude and longitude are in the document ([null] included) and
    who has no assigned or picked-up donation. *)
Theorem ranked_drivers_are_eligible
  (calculateDistance : Q -> Q -> Q -> Q -> Q) (s : Store) :
  (forall userId id ranked,
      available_drivers calculateDistance s userId id = inr ranked ->
      Forall (fun e => exists drv dlat dlng,
                  In drv (users s) /\ user_id drv = ed_id e
                  /\ isEligible s drv = true
                  /\ coordinates_lat drv = Num dlat
                  /\ coordinates_lng drv = Num dlng
                  /\ ~ dlat == 0 /\ ~ dlng == 0) ranked)
  /\ (forall id cands,
        assignDriver_select calculateDistance s id = inr cands ->
        Forall (fun c => In (c_driver c) (users s)
                         /\ userType (c_driver c) = Driver
                         /\ isActive (c_driver c) = true
                         /\ driverStatus (c_driver c) = DsAvailable
                         /\ path_exists (coordinates_lat (c_driver c)) = true
                         /\ path_exists (coordinates_lng (c_driver c)) = true
                         /\ countActive s (user_id (c_driver c)) = 0%nat)
               cands).
Proof.
  split.
  - intros userId id ranked H. apply available_drivers_inr in H.
    destruct H as (d & p & _ & _ & ->).
    apply Forall_forall. intros e He.
    apply sort_by_score_In, in_filter_map in He.
    destruct He as (drv & Hpool & He). apply advisoryEntry_Some in He.
    destruct He as (Hav & _ & dlat & dlng & Hla & Hln & H0 & H1 & ->).
    destruct (pool_driver_isEligible s drv Hpool Hav) as (Hin & Hel).
    exists drv, dlat, dlng. repeat split; assumption.
  - intros id cands H. apply assignDriver_select_inr in H.
    destruct H as (d & p & _ & _ & -> & _).
    apply Forall_forall. intros c Hc.
    apply sort_by_score_In, in_filter_map in Hc.
    destruct Hc as (drv & Hpool & Hc). apply commitEntry_Some in Hc.
    destruct Hc as (Hav & _ & ->). cbn [c_driver].
    apply findAssignableDrivers_In in Hpool.
    destruct Hpool as (Hin & Ht & Hs & Ha & Hla & Hln).
    repeat (split; [assumption|]).
    now apply isDriverAvailable_countActive.
Qed.

Lemma ranked_drivers_are_eligible_witness :
  Forall (fun c => In (c_driver c) (users store_null_coordinates)
                   /\ userType (c_driver c) = Driver
                   /\ isActive (c_driver c) = true
                   /\ driverStatus (c_driver c) = DsAvailable
                   /\ path_exists (coordinates_lat (c_driver c)) = true
                   /\ path_exists (coordinates_lng (c_driver c)) = true
                   /\ countActive store_null_coordinates
                                  (user_id (c_driver c)) = 0%nat)
         (ranked_or_nil
            (assignDriver_select flat_distance store_null_coordinates
                                 "don1")).
Proof.
  apply (proj2 (ranked_drivers_are_eligible flat_distance
                  store_null_coordinates) "don1").
  reflexivity.
Defined.

(** ** Routes that write users *)

(** X14. Only the owner updates a profile, and the update touches the name,
    the phone and the coordinates only: for any other caller the request is
    [Forbidden]; for the owner the stored user keeps its role, email, KYC
    status, reputation, active flag, driver status and vehicle class. *)
Theorem users_patch_behaviour (s : Store) (userId id : ObjectId)
  (b : ProfileUpdate) (user : User) :
  authenticate s userId = Some user ->
  (id <> userId -> users_patch s userId id b = (s, inl Forbidden))
  /\ (id = userId ->
      exists u',
        snd (users_patch s userId id b) = inr (Some u')
        /\ findUser (fst (users_patch s userId id b)) id = Some u'
        /\ userType u' = userType user /\ email u' = email user
        /\ kycStatus u' = kycStatus user
        /\ reputationScore u' = reputationScore user
        /\ isActive u' = isActive user
        /\ driverStatus u' = driverStatus user
        /\ vehicleCapacity u' = vehicleCapacity user).
Proof.
  intros Hu. unfold users_patch, authorizeOwnerOrRole. rewrite Hu.
  cbn [authorize existsb orb]. split.
  - intros Hne. apply String.eqb_neq in Hne. now rewrite Hne.
  - intros ->. rewrite String.eqb_refl. cbn [negb].
    unfold authenticate in Hu. rewrite Hu. cbn [fst snd].
    rewrite findUser_saveUser by apply applyProfileUpdate_id.
    rewrite Hu. cbn [option_map].
    rewrite (find_key_eq user_id userId _ user Hu), String.eqb_refl.
    eexists. split; [reflexivity|]. split; [reflexivity|].
    unfold applyProfileUpdate.
    destruct (pu_coordinates b) as [[la ln]|]; repeat split.
Qed.

Lemma users_patch_behaviour_witness :
  users_patch store_assigned "recv1" "drv1"
              (mkProfileUpdate (Some "x") None None)
  = (store_assigned, inl Forbidden).
Proof.
  refine (proj1 (users_patch_behaviour store_assigned "recv1" "drv1"
                   (mkProfileUpdate (Some "x") None None)
                   (example_user "recv1" Receiver 10 20 100 DsAvailable medium)
                   eq_refl) _).
  discriminate.
Defined.

(** X15. Who may set a driver's status.  The owner may, and so may every
    caller whose role is driver, for any driver: the stored flag of the
    target becomes the requested one.  A caller who is neither is answered
    [Forbidden], and a target that is not a driver [NotFound]. *)
Theorem driver_patch_status_behaviour (s : Store) (userId id : ObjectId)
  (v : DriverStatus) (user target : User) :
  authenticate s userId = Some user ->
  findUser s id = Some target ->
  (userType user <> Driver -> id <> userId ->
   driver_patch_status s userId id (Some v) = (s, inl Forbidden))
  /\ (userType user = Driver \/ id = userId ->
      userType target <> Driver ->
      driver_patch_status s userId id (Some v) = (s, inl NotFound))
  /\ (userType user = Driver \/ id = userId ->
      userType target = Driver ->
      snd (driver_patch_status s userId id (Some v)) = inr v
      /\ occupancy (fst (driver_patch_status s userId id (Some v))) id
         = Some v).
Proof.
  intros Hu Ht. unfold driver_patch_status, authorizeOwnerOrRole.
  rewrite Hu, Ht. split; [|split].
  - intros Hnd Hne. rewrite authorize_not_role
      by (simpl; intuition congruence).
    apply String.eqb_neq in Hne. now rewrite Hne.
  - intros Hor Hnt.
    assert (Ha : authorize [Driver] user || (id =? userId) = true).
    { destruct Hor as [Hd| ->].
      - rewrite (proj2 (authorize_role [Driver] user)); [reflexivity|].
        rewrite Hd. now left.
      - rewrite String.eqb_refl. apply orb_true_r. }
    rewrite Ha. cbn [negb].
    destruct (UserType_eqb (userType target) Driver) eqn:E;
      [apply UserType_eqb_eq in E; contradiction|reflexivity].
  - intros Hor Hd.
    assert (Ha : authorize [Driver] user || (id =? userId) = true).
    { destruct Hor as [Hd'| ->].
      - rewrite (proj2 (authorize_role [Driver] user)); [reflexivity|].
        rewrite Hd'. now left.
      - rewrite String.eqb_refl. apply orb_true_r. }
    rewrite Ha, Hd. cbn [negb UserType_eqb fst snd].
    split; [reflexivity|]. unfold occupancy.
    rewrite findUser_saveUser by reflexivity. rewrite Ht. cbn [option_map].
    now rewrite (find_key_eq user_id id _ target Ht), String.eqb_refl.
Qed.

Lemma driver_patch_status_behaviour_witness :
  snd (driver_patch_status store_unchecked "drv2" "drv3" (Some DsAvailable))
  = inr DsAvailable
  /\ occupancy
       (fst (driver_patch_status store_unchecked "drv2" "drv3"
                                 (Some DsAvailable))) "drv3"
     = Some DsAvailable.
Proof.
  exact (proj2 (proj2 (driver_patch_status_behaviour store_unchecked "drv2"
                         "drv3" DsAvailable
                         (example_user "drv2" Driver 10 20 100 DsAvailable
                                       medium)
                         (example_user "drv3" Driver 10 20 100 DsBusy medium)
                         eq_refl eq_refl))
               (or_introl eq_refl) eq_refl).
Defined.

(** ** Creation followed by reservation *)

Lemma find_app_None {A : Type} (p : A -> bool) (l : list A) (a : A) :
  find p l = None -> find p (l ++ [a]) = if p a then Some a else None.
Proof.
  induction l as [|x l IH]; simpl; [reflexivity|].
  destruct (p x); [discriminate|exact IH].
Qed.

Lemma reserve_available (now : Date) (s : Store) (userId id : ObjectId)
  (user : User) (d : Donation) :
  authenticate s userId = Some user ->
  userType user = Receiver ->
  findDonation s id = Some d ->
  donation_id d = id ->
  status d = available ->
  snd (reserve now s userId id)
  = inr (Some (set_updatedAt now
                 (set_status reserved (set_receiver (Some userId) d)))).
Proof.
  intros Hu Ht Hd Hid Hst. unfold reserve. rewrite Hu, Hd, Hst.
  rewrite (proj2 (authorize_role [Receiver] user))
    by (rewrite Ht; now left).
  cbn [negb Status_eqb snd].
  rewrite findDonation_saveDonation by reflexivity.
  rewrite Hd. cbn [option_map]. now rewrite Hid, String.eqb_refl.
Qed.

(** X16. A donation whose items pass the schema validation, created under an
    id that is not yet in use, is stored as the donor sent it, [available],
    without receiver or driver, and every stored receiver can then reserve
    it: the reservation succeeds and returns the donation [reserved] for that
    receiver, with the donor and the items of the creation.  A donation with
    an item that does not pass the validation (an empty name, a unit outside
    the schema's enum) is refused and nothing is stored. *)
Theorem create_then_reserve (now1 now2 : Date) (s : Store)
  (donorId newId : ObjectId) (item : FoodItem) (items : list FoodItem)
  (address : PickupAddress) (preferred : Date) (note : string)
  (donorUser : User) :
  authenticate s donorId = Some donorUser ->
  userType donorUser = Donor ->
  findDonation s newId = None ->
  (forallb validFoodItem (item :: items) = false ->
   create_donation now1 s donorId newId (item :: items) address preferred note
   = (s, inl ServerError))
  /\ (forallb validFoodItem (item :: items) = true ->
      let s1 := fst (create_donation now1 s donorId newId (item :: items)
                                     address preferred note) in
      findDonation s1 newId
      = Some (mkDonation newId donorId None None (item :: items) address
                         available preferred None None None note now1 now1)
      /\ (forall recvId recvUser,
            findUser s recvId = Some recvUser ->
            userType recvUser = Receiver ->
            exists d',
              snd (reserve now2 s1 recvId newId) = inr (Some d')
              /\ status d' = reserved /\ receiver d' = Some recvId
              /\ driver d' = None
              /\ donor d' = donorId /\ foodItems d' = item :: items)).
Proof.
  intros Hu Ht Hfresh. unfold create_donation. rewrite Hu.
  rewrite (proj2 (authorize_role [Donor] donorUser))
    by (rewrite Ht; now left).
  cbn [negb]. split; intros Hv; rewrite Hv; cbn [negb]; [reflexivity|].
  cbv zeta. cbn [fst].
  set (d := mkDonation newId donorId None None (item :: items) address
                       available preferred None None None note now1 now1).
  assert (Hd : findDonation (insertDonation d s) newId = Some d).
  { unfold findDonation, insertDonation. cbn [donations].
    rewrite find_app_None by exact Hfresh.
    cbn [donation_id d]. now rewrite String.eqb_refl. }
  split; [exact Hd|].
  intros recvId recvUser Hr Hrt.
  rewrite (reserve_available now2 (insertDonation d s) recvId newId recvUser d
             Hr Hrt Hd eq_refl eq_refl).
  eexists. split; [reflexivity|]. repeat split.
Qed.

Lemma create_then_reserve_witness :
  findDonation
    (fst (create_donation 5%Z store_available "donor1" "don2"
            [mkFoodItem "bread" 10 "packets"]
            (mkPickupAddress "2 Side St" "Pune" None) 2000%Z "fresh"))
    "don2"
  = Some (mkDonation "don2" "donor1" None None
            [mkFoodItem "bread" 10 "packets"]
            (mkPickupAddress "2 Side St" "Pune" None)
            available 2000%Z None None None "fresh" 5%Z 5%Z)
  /\ (forall recvId recvUser,
        findUser store_available recvId = Some recvUser ->
        userType recvUser = Receiver ->
        exists d',
          snd (reserve 6%Z
                 (fst (create_donation 5%Z store_available "donor1" "don2"
                         [mkFoodItem "bread" 10 "packets"]
                         (mkPickupAddress "2 Side St" "Pune" None) 2000%Z
                         "fresh"))
                 recvId "don2") = inr (Some d')
          /\ status d' = reserved /\ receiver d' = Some recvId
          /\ driver d' = None
          /\ donor d' = "donor1"
          /\ foodItems d' = [mkFoodItem "bread" 10 "packets"]).
Proof.
  exact (proj2 (create_then_reserve 5%Z 6%Z store_available "donor1" "don2"
                  (mkFoodItem "bread" 10 "packets") []
                  (mkPickupAddress "2 Side St" "Pune" None) 2000%Z "fresh"
                  (example_user "donor1" Donor 10 20 100 DsAvailable medium)
                  eq_refl eq_refl eq_refl)
               eq_refl).
Defined.

(** ** The decimal rounding *)

Lemma round_half_error (y : Q) :
  Qabs (inject_Z (Qfloor (y + (1 # 2))) - y) <= 1 # 2.
Proof.
  pose proof (Qfloor_le (y + (1 # 2))) as Hl.
  pose proof (Qlt_floor (y + (1 # 2))) as Hu.
  rewrite inject_Z_plus in Hu. change (inject_Z 1) with 1 in Hu.
  set (n := inject_Z (Qfloor (y + (1 # 2)))) in *.
  apply Qabs_Qle_condition. split; lra.
Qed.

Lemma pow10_pos (digits : nat) : 0 < pow10 digits.
Proof.
  unfold pow10. change 0 with (inject_Z 0). rewrite <- Zlt_Qlt.
  apply Z.pow_pos_nonneg; lia.
Qed.

Lemma toFixed_error_bound (digits : nat) (x : Q) :
  Qabs (toFixed digits x - x) <= (1 # 2) / pow10 digits.
Proof.
  pose proof (pow10_pos digits) as Hp.
  assert (Hq : 0 < / pow10 digits) by now apply Qinv_lt_0_compat.
  assert (Hne : ~ pow10 digits == 0) by (intros E; rewrite E in Hp; discriminate).
  unfold toFixed. fold (pow10 digits). cbv zeta.
  destruct (Qle_bool (inject_Z (10 ^ 21)) (Qabs x)).
  - setoid_replace (x - x) with 0 by ring. simpl Qabs.
    apply Qlt_le_weak. unfold Qdiv. apply Qmult_lt_0_compat; [reflexivity|exact Hq].
  - destruct (Qle_bool 0 x).
    + setoid_replace (inject_Z (Qfloor (x * pow10 digits + (1 # 2))) / pow10 digits - x)
        with ((inject_Z (Qfloor (x * pow10 digits + (1 # 2))) - x * pow10 digits) * / pow10 digits)
        by (field; exact Hne).
      rewrite Qabs_Qmult, (Qabs_pos (/ pow10 digits)) by now apply Qlt_le_weak.
      unfold Qdiv. apply Qmult_le_compat_r; [apply round_half_error|now apply Qlt_le_weak].
    + setoid_replace (- (inject_Z (Qfloor (- x * pow10 digits + (1 # 2))) / pow10 digits) - x)
        with (- ((inject_Z (Qfloor (- x * pow10 digits + (1 # 2))) - (- x) * pow10 digits) * / pow10 digits))
        by (field; exact Hne).
      rewrite Qabs_opp, Qabs_Qmult, (Qabs_pos (/ pow10 digits)) by now apply Qlt_le_weak.
      unfold Qdiv. apply Qmult_le_compat_r; [apply round_half_error|now apply Qlt_le_weak].
Qed.

Lemma roundPos_mono (digits : nat) (x y : Q) :
  x <= y -> roundPos digits x <= roundPos digits y.
Proof.
  intros H. pose proof (pow10_pos digits) as Hp. unfold roundPos, Qdiv.
  apply Qmult_le_compat_r; [|now apply Qlt_le_weak, Qinv_lt_0_compat].
  rewrite <- Zle_Qle. apply Qfloor_resp_le.
  apply Qplus_le_compat; [|apply Qle_refl].
  apply Qmult_le_compat_r; [exact H|now apply Qlt_le_weak].
Qed.

Lemma roundPos_nonneg (digits : nat) (x : Q) : 0 <= x -> 0 <= roundPos digits x.
Proof.
  intros H. pose proof (pow10_pos digits) as Hp. unfold roundPos, Qdiv.
  apply Qmult_le_0_compat; [|now apply Qlt_le_weak, Qinv_lt_0_compat].
  change 0 with (inject_Z (Qfloor 0)). rewrite <- Zle_Qle.
  apply Qfloor_resp_le.
  assert (0 <= x * pow10 digits) by (apply Qmult_le_0_compat; [exact H|now apply Qlt_le_weak]).
  lra.
Qed.

Lemma roundPos_below (digits : nat) (x : Q) (N : Z) :
  x < inject_Z N -> roundPos digits x <= inject_Z N.
Proof.
  intros H. pose proof (pow10_pos digits) as Hp.
  assert (Hne : ~ pow10 digits == 0) by (intros E; rewrite E in Hp; discriminate).
  unfold roundPos.
  apply (Qmult_le_r _ _ (pow10 digits) Hp).
  setoid_replace (inject_Z (Qfloor (x * pow10 digits + (1 # 2))) / pow10 digits * pow10 digits)
    with (inject_Z (Qfloor (x * pow10 digits + (1 # 2)))) by (field; exact Hne).
  unfold pow10 at 2. rewrite <- inject_Z_mult, <- Zle_Qle.
  assert (Hlt : (Qfloor (x * pow10 digits + (1 # 2)) < N * 10 ^ Z.of_nat digits + 1)%Z).
  { rewrite Zlt_Qlt. eapply Qle_lt_trans; [apply Qfloor_le|].
    rewrite inject_Z_plus, inject_Z_mult. fold (pow10 digits).
    change (inject_Z 1) with 1.
    assert (x * pow10 digits < inject_Z N * pow10 digits)
      by (apply Qmult_lt_compat_r; assumption).
    lra. }
  lia.
Qed.

Lemma toFixed_nonneg_arg (digits : nat) (x : Q) :
  0 <= x ->
  toFixed digits x == (if Qle_bool (inject_Z (10 ^ 21)) x then x else roundPos digits x).
Proof.
  intros H. unfold toFixed, roundPos. fold (pow10 digits). cbv zeta.
  rewrite (Qabs_pos x H).
  destruct (Qle_bool (inject_Z (10 ^ 21)) x); [reflexivity|].
  rewrite (proj2 (Qle_bool_iff 0 x) H). reflexivity.
Qed.

Lemma toFixed_nonneg (digits : nat) (x : Q) : 0 <= x -> 0 <= toFixed digits x.
Proof.
  intros H. rewrite (toFixed_nonneg_arg digits x H).
  destruct (Qle_bool _ x); [exact H|now apply roundPos_nonneg].
Qed.

Lemma toFixed_mono_nonneg (digits : nat) (x y : Q) :
  0 <= x -> x <= y -> toFixed digits x <= toFixed digits y.
Proof.
  intros H0 Hxy.
  assert (Hy : 0 <= y) by (eapply Qle_trans; eassumption).
  rewrite (toFixed_nonneg_arg digits x H0), (toFixed_nonneg_arg digits y Hy).
  destruct (Qle_bool (inject_Z (10 ^ 21)) x) eqn:Ex,
           (Qle_bool (inject_Z (10 ^ 21)) y) eqn:Ey.
  - exact Hxy.
  - exfalso. apply Qle_bool_iff in Ex.
    assert (E : Qle_bool (inject_Z (10 ^ 21)) y = true)
      by (apply Qle_bool_iff; eapply Qle_trans; eassumption).
    congruence.
  - apply Qle_bool_iff in Ey. eapply Qle_trans; [|exact Ey].
    apply roundPos_below. apply Qnot_le_lt. intros Hc.
    apply Qle_bool_iff in Hc. congruence.
  - now apply roundPos_mono.
Qed.

Lemma toFixed_neg_arg (digits : nat) (x : Q) :
  x < 0 -> toFixed digits x == - toFixed digits (- x).
Proof.
  intros H. unfold toFixed. fold (pow10 digits). cbv zeta.
  rewrite Qabs_opp.
  destruct (Qle_bool (inject_Z (10 ^ 21)) (Qabs x)); [ring|].
  assert (E1 : Qle_bool 0 x = false).
  { destruct (Qle_bool 0 x) eqn:E; [|reflexivity].
    apply Qle_bool_iff in E. exfalso. apply (Qlt_irrefl 0).
    eapply Qle_lt_trans; eassumption. }
  assert (E2 : Qle_bool 0 (- x) = true) by (apply Qle_bool_iff; lra).
  rewrite E1, E2. reflexivity.
Qed.

Lemma toFixed_mono (digits : nat) (x y : Q) :
  x <= y -> toFixed digits x <= toFixed digits y.
Proof.
  intros Hxy.
  destruct (Qlt_le_dec x 0) as [Hx|Hx]; [|now apply toFixed_mono_nonneg].
  destruct (Qlt_le_dec y 0) as [Hy|Hy].
  - rewrite (toFixed_neg_arg digits x Hx), (toFixed_neg_arg digits y Hy).
    apply Qopp_le_compat. apply toFixed_mono_nonneg; lra.
  - eapply Qle_trans; [|now apply toFixed_nonneg].
    rewrite (toFixed_neg_arg digits x Hx).
    assert (0 <= toFixed digits (- x)) by (apply toFixed_nonneg; lra).
    lra.
Qed.

(** X17. [parseFloat(x.toFixed(digits))] differs from [x] by at most half a
    unit of the last kept decimal: by at most 0.005 for the two decimals of a
    score or a distance. *)
Theorem toFixed_half_unit (digits : nat) (x : Q) :
  Qabs (toFixed digits x - x) <= (1 # 2) / pow10 digits
  /\ Qabs (toFixed 2 x - x) <= 0.005.
Proof.
  split; [apply toFixed_error_bound|].
  eapply Qle_trans; [apply toFixed_error_bound|]. discriminate.
Qed.

(** X18. The rounding is monotone: it never inverts the order of two
    numbers, it can only make them equal. *)
Theorem toFixed_monotone (digits : nat) (x y : Q) :
  x <= y -> toFixed digits x <= toFixed digits y.
Proof. apply toFixed_mono. Qed.

Lemma toFixed_monotone_witness : toFixed 2 5.124 <= toFixed 2 5.126.
Proof. apply (toFixed_monotone 2 5.124 5.126). discriminate. Defined.

Lemma specScore_mono (d1 d2 r1 r2 q c : Q) :
  d1 <= d2 -> r2 <= r1 -> specScore d1 r1 q c <= specScore d2 r2 q c.
Proof. intros Hd Hr. unfold specScore. lra. Qed.

(** X19. The score favours the closer and the better-reputed driver: with
    the same demand and vehicle capacity, a driver who is no farther away and
    has no lower reputation gets no higher score, on the advisory path (after
    rounding) and on the automatic commit. *)
Theorem score_monotone (d1 d2 r1 r2 q c : Q) :
  d1 <= d2 -> r2 <= r1 ->
  toFixed 2 (advisoryTotalScore d1 r1 q c)
  <= toFixed 2 (advisoryTotalScore d2 r2 q c)
  /\ commitTotalScore d1 r1 q c <= commitTotalScore d2 r2 q c.
Proof.
  intros Hd Hr. pose proof (specScore_mono d1 d2 r1 r2 q c Hd Hr) as H.
  split.
  - apply toFixed_mono. now rewrite !advisoryTotalScore_specScore.
  - rewrite !commitTotalScore_specScore. lra.
Qed.

Lemma score_monotone_witness :
  toFixed 2 (advisoryTotalScore 5 90 90 150)
  <= toFixed 2 (advisoryTotalScore 20 90 90 150)
  /\ commitTotalScore 5 90 90 150 <= commitTotalScore 20 90 90 150.
Proof. apply (score_monotone 5 20 90 90 90 150); discriminate. Defined.

(** ** Admin analytics *)

Lemma countDonations_partition (s : Store) :
  (countDonations (Status_in [available; reserved; assigned; picked_up]) s
   + countDonations (Status_in [delivered]) s
   + countDonations (Status_in [cancelled]) s
   = countDonations (fun _ => true) s)%nat.
Proof.
  unfold countDonations. induction (donations s) as [|d l IH]; [reflexivity|].
  cbn [filter].
  destruct (status d); cbn [Status_in existsb Status_eqb orb] in IH |- *;
    cbn [Datatypes.length]; lia.
Qed.

Lemma countDonations_le (p : Status -> bool) (s : Store) :
  (countDonations p s <= countDonations (fun _ => true) s)%nat.
Proof.
  unfold countDonations. induction (donations s) as [|d l IH]; [apply le_n|].
  cbn [filter]. destruct (p (status d)); cbn [Datatypes.length]; lia.
Qed.

Lemma countUsers_roles (s : Store) :
  (countUsers (fun u => UserType_eqb (userType u) Donor) s
   + countUsers (fun u => UserType_eqb (userType u) Receiver) s
   + countUsers (fun u => UserType_eqb (userType u) Driver) s
   + countUsers (fun u => UserType_eqb (userType u) Admin) s
   = countUsers (fun _ => true) s)%nat.
Proof.
  unfold countUsers. induction (users s) as [|u l IH]; [reflexivity|].
  cbn [filter]. destruct (userType u); cbn [UserType_eqb Datatypes.length]; lia.
Qed.

Lemma countUsers_kyc (s : Store) :
  (countUsers (fun u => KycStatus_eqb (kycStatus u) verified) s
   + countUsers (fun u => KycStatus_eqb (kycStatus u) pending) s
   + countUsers (fun u => KycStatus_eqb (kycStatus u) rejected) s
   <= countUsers (fun _ => true) s)%nat.
Proof.
  unfold countUsers. induction (users s) as [|u l IH]; [apply le_n|].
  cbn [filter]. destruct (kycStatus u); cbn [KycStatus_eqb Datatypes.length]; lia.
Qed.

Lemma percentage_bounds (m t : nat) :
  (m <= t)%nat -> (0 < t)%nat ->
  0 <= toFixed 2 (Q_of_nat m / Q_of_nat t * 100) <= 100.
Proof.
  intros Hmt Ht. unfold Q_of_nat.
  assert (Htq : 0 < inject_Z (Z.of_nat t))
    by (change 0 with (inject_Z 0); rewrite <- Zlt_Qlt; lia).
  assert (Hm0 : 0 <= inject_Z (Z.of_nat m))
    by (change 0 with (inject_Z 0); rewrite <- Zle_Qle; lia).
  assert (Hle : inject_Z (Z.of_nat m) <= inject_Z (Z.of_nat t))
    by (rewrite <- Zle_Qle; lia).
  set (mq := inject_Z (Z.of_nat m)) in *.
  set (tq := inject_Z (Z.of_nat t)) in *.
  assert (H0 : 0 <= mq / tq).
  { apply Qle_shift_div_l; [exact Htq|]. lra. }
  assert (H1 : mq / tq <= 1).
  { apply Qle_shift_div_r; [exact Htq|]. lra. }
  set (ratio := mq / tq) in *.
  split.
  - apply toFixed_nonneg. lra.
  - apply (Qle_trans _ (toFixed 2 100)); [|discriminate].
    apply toFixed_mono. lra.
Qed.

(** X21. The numbers of the admin dashboard add up.  For an admin caller the
    active, completed and cancelled donations sum to the total; the donors,
    receivers and drivers are at most the users (the rest are admins), and so
    are the users counted by KYC status; the match rate is a percentage
    between 0 and 100, and 0 when there is no donation. *)
Theorem analytics_counts_add_up (s : Store) (userId : ObjectId)
  (a : Analytics) :
  analytics s userId = inr a ->
  (activeDonations a + completedDonations a + cancelledDonations a
   = totalDonations a)%nat
  /\ totalDonations a = List.length (donations s)
  /\ (totalDonors a + totalReceivers a + totalDrivers a <= totalUsers a)%nat
  /\ (kycVerified a + kycPending a + kycRejected a <= totalUsers a)%nat
  /\ 0 <= matchRate a <= 100
  /\ (totalDonations a = 0%nat -> matchRate a = 0).
Proof.
  unfold analytics.
  destruct (authenticate s userId) as [user|]; [|discriminate].
  destruct (negb (authorize [Admin] user)); [discriminate|].
  intros [= <-].
  cbn [activeDonations completedDonations cancelledDonations totalDonations
       totalDonors totalReceivers totalDrivers totalUsers kycVerified
       kycPending kycRejected matchRate].
  split; [apply countDonations_partition|].
  split.
  { unfold countDonations. f_equal.
    induction (donations s) as [|d l IH]; [reflexivity|].
    cbn [filter]. now rewrite IH. }
  split; [pose proof (countUsers_roles s); lia|].
  split; [apply countUsers_kyc|].
  destruct (Nat.ltb_spec 0 (countDonations (fun _ => true) s)) as [Hpos|Hz].
  - split; [|lia].
    apply percentage_bounds; [apply countDonations_le|exact Hpos].
  - split; [split; discriminate|reflexivity].
Qed.

Lemma analytics_counts_add_up_witness :
  (1 + 0 + 0 = 1)%nat
  /\ 1%nat = List.length (donations store_admin)
  /\ (1 + 1 + 1 <= 4)%nat
  /\ (4 + 0 + 0 <= 4)%nat
  /\ 0 <= 100.00 <= 100
  /\ (1%nat = 0%nat -> 100.00 = 0).
Proof.
  exact (analytics_counts_add_up store_admin "admin1"
           (mkAnalytics 4 1 1 1 1 1 0 0 100.00 4 0 0) eq_refl).
Defined.

(** ** Donation statistics *)

Lemma status_counts_sum (p : Donation -> bool) (l : list Donation) :
  list_sum
    (map (fun st =>
            List.length (filter (fun d => p d && Status_eqb (status d) st) l))
         all_statuses)
  = List.length (filter p l).
Proof.
  induction l as [|d l IH]; [reflexivity|].
  cbn [filter]. cbn [all_statuses map list_sum] in *.
  destruct (p d); cbn [andb].
  - destruct (status d); cbn [Status_eqb] in IH |- *;
      cbn [Datatypes.length list_sum fold_right] in IH |- *; lia.
  - exact IH.
Qed.

(** X22. The per-status counts of the donation statistics sum to the number
    of donations created within the requested bounds; without bounds they sum
    to the number of stored donations. *)
Theorem donation_stats_sum (s : Store) (userId : ObjectId)
  (startDate endDate : option Date) (counts : Status -> nat) :
  donation_stats s userId startDate endDate = inr counts ->
  list_sum (map counts all_statuses)
  = List.length (filter (inDateRange startDate endDate) (donations s))
  /\ (startDate = None -> endDate = None ->
      list_sum (map counts all_statuses) = List.length (donations s)).
Proof.
  unfold donation_stats. split_handler; try discriminate. intros [= <-].
  rewrite status_counts_sum. split; [reflexivity|].
  intros -> ->. f_equal. unfold inDateRange. cbn [andb].
  induction (donations s) as [|d l IH]; [reflexivity|].
  cbn [filter]. now rewrite IH.
Qed.

Lemma donation_stats_sum_witness :
  list_sum
    (map (fun st =>
            List.length
              (filter (fun d => inDateRange (Some 0%Z) None d
                                && Status_eqb (status d) st)
                      (donations store_admin)))
         all_statuses)
  = List.length (filter (inDateRange (Some 0%Z) None) (donations store_admin))
  /\ (Some 0%Z = None -> @None Date = None ->
      list_sum
        (map (fun st =>
                List.length
                  (filter (fun d => inDateRange (Some 0%Z) None d
                                    && Status_eqb (status d) st)
                          (donations store_admin)))
             all_statuses)
      = List.length (donations store_admin)).
Proof.
  exact (donation_stats_sum store_admin "admin1" (Some 0%Z) None _ eq_refl).
Defined.

(** ** The best-ranked driver *)



(** ** From assignment to delivery *)

Lemma assign_driver_validate_ok (s : Store) (userId id drv : ObjectId)
  (d : Donation) (u : User) :
  assign_driver_validate s userId id drv = inr (d, u) ->
  findDonation s id = Some d /\ findUser s drv = Some u
  /\ userType u = Driver.
Proof.
  unfold assign_driver_validate. split_handler; try discriminate.
  intros [= <- <-]. repeat split.
  match goal with
  | E : negb (UserType_eqb _ Driver) = false |- _ =>
      now apply negb_false_iff, UserType_eqb_eq in E
  end.
Qed.

Lemma delivery_proof_success (now : Date) (s : Store) (userId id : ObjectId)
  (proofUrl : string) (user : User) (d : Donation) :
  authenticate s userId = Some user ->
  userType user = Driver ->
  findDonation s id = Some d ->
  driver d = Some userId ->
  status d = picked_up ->
  is_success (snd (delivery_proof now s userId id proofUrl)) = true
  /\ findDonation (fst (delivery_proof now s userId id proofUrl)) id
     = Some (set_updatedAt now
               (set_actualDeliveryTime (Some now)
                  (set_status delivered
                     (set_deliveryProof
                        (Some (mkDeliveryProof proofUrl now)) d))))
  /\ (countActive (fst (delivery_proof now s userId id proofUrl)) userId
      = 0%nat ->
      occupancy (fst (delivery_proof now s userId id proofUrl)) userId
      = Some DsAvailable)
  /\ (countActive (fst (delivery_proof now s userId id proofUrl)) userId
      <> 0%nat ->
      occupancy (fst (delivery_proof now s userId id proofUrl)) userId
      = occupancy s userId).
Proof.
  intros Hu Ht Hd Hx Hst. unfold delivery_proof. rewrite Hu, Hd.
  rewrite (proj2 (authorize_role [Driver] user)) by (rewrite Ht; now left).
  rewrite Hx, Hst. cbn [ObjectId_opt_eqb Status_eqb].
  rewrite String.eqb_refl. cbn [negb fst snd is_success].
  set (f := fun d0 => set_actualDeliveryTime (Some now)
                        (set_status delivered
                           (set_deliveryProof
                              (Some (mkDeliveryProof proofUrl now)) d0))).
  set (s1 := saveDonation now id f s).
  assert (Hu1 : findUser s1 userId = Some user) by exact Hu.
  assert (Hdel : forall d1, In d1 (donations s1) ->
                            donation_id d1 = donation_id d ->
                            status d1 = delivered).
  { rewrite (find_key_eq donation_id id _ d Hd).
    now apply saveDonation_delivered. }
  destruct (syncDriverAfterDelivery_effect s1 d userId user Hx Hu1 Hdel)
    as (Hc & H0 & Hn).
  rewrite findDonation_syncDriverAfterDelivery, Hc.
  split; [reflexivity|]. split; [|split; [exact H0|exact Hn]].
  unfold s1. rewrite findDonation_saveDonation by reflexivity.
  rewrite Hd. cbn [option_map].
  now rewrite (find_key_eq donation_id id _ d Hd), String.eqb_refl.
Qed.

(** X24. The three steps after a reservation compose.  Once a driver has
    been assigned to a donation, that driver can mark it [picked_up] through
    the status update and then upload the delivery proof: both requests
    succeed, the donation ends [delivered] with the same driver, the pickup
    time and the proof of the requests, and the driver's flag ends
    [available] when no other assigned or picked-up donation of theirs is
    left, and [busy] otherwise. *)
Theorem assign_pickup_deliver (now1 now2 now3 : Date) (s : Store)
  (userId id drv : ObjectId) (proofUrl : string) :
  is_success (snd (assign_driver now1 s userId id drv)) = true ->
  let s1 := fst (assign_driver now1 s userId id drv) in
  let s2 := fst (update_status now2 s1 drv id picked_up (Some now2) None) in
  let s3 := fst (delivery_proof now3 s2 drv id proofUrl) in
  is_success (snd (update_status now2 s1 drv id picked_up (Some now2) None))
  = true
  /\ is_success (snd (delivery_proof now3 s2 drv id proofUrl)) = true
  /\ option_map status (findDonation s3 id) = Some delivered
  /\ option_map driver (findDonation s3 id) = Some (Some drv)
  /\ option_map actualPickupTime (findDonation s3 id) = Some (Some now2)
  /\ option_map deliveryProof (findDonation s3 id)
     = Some (Some (mkDeliveryProof proofUrl now3))
  /\ (countActive s3 drv = 0%nat -> occupancy s3 drv = Some DsAvailable)
  /\ (countActive s3 drv <> 0%nat -> occupancy s3 drv = Some DsBusy).
Proof.
  intros Hs. cbv zeta.
  unfold assign_driver in *.
  destruct (assign_driver_validate s userId id drv) as [e|[d u]] eqn:E;
    [discriminate|]. cbn [fst].
  apply assign_driver_validate_ok in E. destruct E as (Hd & Hu & Ht).
  pose proof (find_key_eq donation_id id _ d Hd) as Hdid.
  pose proof (find_key_eq user_id drv _ u Hu) as Huid.
  set (s1 := assign_driver_write now1 s id drv).
  set (d1 := set_updatedAt now1 (set_status assigned (set_driver (Some drv) d))).
  set (u1 := set_driverStatus DsBusy u).
  assert (Hd1 : findDonation s1 id = Some d1).
  { unfold s1, assign_driver_write.
    rewrite findDonation_saveUser, findDonation_saveDonation by reflexivity.
    rewrite Hd. cbn [option_map]. now rewrite Hdid, String.eqb_refl. }
  assert (Hu1 : findUser s1 drv = Some u1).
  { unfold s1, assign_driver_write.
    rewrite findUser_saveUser, findUser_saveDonation by reflexivity.
    rewrite Hu. cbn [option_map]. now rewrite Huid, String.eqb_refl. }
  assert (Hcan : canUpdate d1 drv = true).
  { unfold canUpdate. cbn [driver d1 set_updatedAt set_status set_driver
                             ObjectId_opt_eqb].
    rewrite String.eqb_refl. now rewrite !orb_true_r. }
  assert (Ha1 : authenticate s1 drv = Some u1) by exact Hu1.
  unfold update_status. rewrite Ha1, Hd1, Hcan.
  cbn [negb Status_eqb fst snd is_success].
  set (s2 := saveDonation now2 id (applyStatusUpdate picked_up (Some now2) None)
                          s1).
  set (d2 := set_updatedAt now2 (applyStatusUpdate picked_up (Some now2) None d1)).
  assert (Hd2 : findDonation s2 id = Some d2).
  { unfold s2. rewrite findDonation_saveDonation by reflexivity.
    rewrite Hd1. cbn [option_map].
    assert (Hid1 : donation_id d1 = id) by exact Hdid.
    now rewrite Hid1, String.eqb_refl. }
  assert (Hu2 : authenticate s2 drv = Some u1) by exact Hu1.
  destruct (delivery_proof_success now3 s2 drv id proofUrl u1 d2 Hu2 Ht Hd2
              eq_refl eq_refl) as (Hok & Hd3 & H0 & Hn).
  split; [reflexivity|]. split; [exact Hok|].
  rewrite Hd3. cbn [option_map].
  repeat (split; [reflexivity|]).
  split; [exact H0|].
  intros Hne. rewrite (Hn Hne). unfold occupancy.
  change (findUser s2 drv) with (findUser s1 drv). now rewrite Hu1.
Qed.

Lemma assign_pickup_deliver_witness :
  is_success
    (snd (update_status 6%Z
            (fst (assign_driver 5%Z store_two_reserved "recv1" "don1" "drv1"))
            "drv1" "don1" picked_up (Some 6%Z) None)) = true
  /\ is_success
       (snd (delivery_proof 7%Z
               (fst (update_status 6%Z
                       (fst (assign_driver 5%Z store_two_reserved "recv1"
                                           "don1" "drv1"))
                       "drv1" "don1" picked_up (Some 6%Z) None))
               "drv1" "don1" "proof.png")) = true.
Proof.
  pose proof (assign_pickup_deliver 5%Z 6%Z 7%Z store_two_reserved "recv1"
                "don1" "drv1" "proof.png" eq_refl) as H.
  cbv zeta in H. exact (conj (proj1 H) (proj1 (proj2 H))).
Defined.
